(* ===== verification/_CoqProject ===== *)
-Q . S2P
Prelude.v
StableSort.v
Model.v
Rss.v
Updater.v
Store.v
Fanout.v
Listing.v
Sweep.v
Bot.v
Telegram.v
Worker.v
Render.v
