(* ===== verification/Prelude.v ===== *)
(** * telerss: a verification development of the subscription update pipeline

    telerss ([src/src]) is a Telegram bot on Cloudflare Workers that keeps
    users' RSS subscriptions fresh.  A scheduled run ([index.ts] ->
    [Bot.fetchAll] in [bot.ts]) pages through the users of the KV store
    ([UserStore] in [store.ts]); for each user, [updateUserSubscriptions]
    starts one async task per subscription, each calling
    [fetchSubscriptionUpdates] ([updater.ts]), which consults a
    module-level feed cache, fetches the feed conditionally, parses it with
    [parseRSS] ([rss.ts]) and diffs it against the subscription's watermark
    with [getNewPosts]; new posts are sent to the chat, then the user's
    subscriptions are merged back and the user is written once.

    ** Files, in dependency order

    - [Prelude.v] (this file): the [result] type of code that may throw,
      JS truthiness and JS objects as association lists ([js_get],
      [js_set]), the [telerss] hint database, shared list lemmas.
    - [StableSort.v]: [sortDesc], a stable sort by descending key standing
      for [posts.sort((a, b) => b.pubDate - a.pubDate)]; the lemma that a
      stable descending sort is unique ([StableSortDesc_sortDesc]) is what
      justifies one definition for the engine's sort.
    - [Model.v]: the records of [model.ts] and [defaultSettings].
    - [Rss.v]: [parseRSS] over an explicit DOM ([Node]): descendant search
      ([getElementsByTagName]), [textContent], the item and channel objects
      built by [obj[tag] = text].
    - [Updater.v]: the feed cache ([UState], a [gmap] from URL), the fetcher
      [fetchSubscriptionUpdates] cut at its [await]s into [startFetch],
      [onResponse], [onBody], [applyFeed], and the differ [getNewPosts].  The
      DOM parser of [@xmldom/xmldom] and [Date]'s parser are the type class
      [Platform]; the network is an argument [Network]; [Date.now()] is a
      time argument.
    - [Store.v]: [UserStore] over a [gmap] from key to user, every method as
      a function with its thrown errors as [Err], the merge-back
      [updateSubscriptions].
    - [Fanout.v]: [updateUserSubscriptions] with the two JS effects that
      matter: subscription objects shared between the user and the tasks (a
      heap of objects and users holding references), and the interleaving of
      the tasks at their [await]s (the step relation [step] over
      configurations of tasks sharing the cache and the heap).
    - [Listing.v]: [UserStore.listIds]: [String.split], [parseInt] as the
      engine reads it, the KV listing service as the class [KVListing] with
      its laws [KVListingLaws] (pages of keys with a cursor), and a paged
      implementation [PagedKV] that discharges them.
    - [Sweep.v]: [Bot.fetchAll]: the cursor loop over pages and, inside a
      page, the [Promise.all] over users, as the step relation [pstep] on
      pages whose users are waiting for [get], running their fan-out
      ([Fanout.step]), missing, or written.
    - [Bot.v]: the command layer of [bot.ts]: [Command]'s regular
      expression as a backtracking matcher ([execCommandRegex]), the
      handlers [subscribe], [unsubscribe], [list], [help], [fetch] in a
      state-and-error monad [M] over the store, the Telegram calls made and
      the clock, and [exec] with its [try]/[catch] as the relation [execR]
      ([/fetch] runs the fan-out).
    - [Telegram.v]: [telegram.ts]: each method of [TelegramApi] as the
      HTTP request it makes ([sendMessageUrl], [requestOf],
      [sendRichMessageRequest]) and, as a specification of the receiving
      side, how a URL's query is read (the WHATWG URL parser and the
      form-urlencoded parser: [urlQuery], [formParams]) and how a JSON body
      is read ([stringify] after [JSON.stringify], the reader [readValue]
      with fuel and [parseJson]).
    - [Worker.v]: [index.ts]: the webhook [fetch] as [fetchR] (method, JSON
      body, secret token, then [exec]) and [scheduled].
    - [Render.v]: [render.ts]: [escapeTg], [renderPost] (with [Date]'s
      [toISOString] as the class [DateFormat]), [decodeHtml], [filterTags]
      with the regular expression its template literal really builds, and
      [formatPost]; [tgRead], Telegram's reading of plain and bold
      MarkdownV2 text, states what a rendered message shows.

    ** What the theorems show

    - Differ ([Updater.v], [StableSort.v]): only posts strictly newer than
      the watermark, newest first; after the first fetch the result is
      exactly the stable sort of the new items (a refinement of the spec's
      filter-then-sort); on the first fetch at most 5, the newest.
    - Fetcher ([Updater.v]): cache hits send nothing; 304 changes nothing;
      errors never touch the cache; a successful fetch caches the feed
      stamped with the time and advances the watermark, never backwards when
      the cache is fresh; run one after another, subscriptions sharing a URL
      cause exactly one request and one parse.
    - Fan-out ([Fanout.v]): through the shared objects, every successfully
      fetched subscription is written back, in every schedule of the tasks.
      That a fan-out terminates and can always run to completion holds by
      construction of [step] (each [await] resolves in one step; the lemmas
      [step_terminates] and [run_to_completion] are kept as helpers, not as
      results); the liveness that matters is that of the whole run below.
      In every schedule, a cached feed whose URL no waiting task is
      fetching stays in the cache unchanged ([CacheKept], [star_kept]).
    - Store ([Store.v]): every writing method keeps users under their own
      key with unique subscription URLs; merge-back replaces by URL and is
      idempotent; [addSubscription] fails exactly on a duplicate URL.
    - Parser ([Rss.v]): parsing a printed feed gives back its items and
      title (round trip); a feed whose channel has a [channel] element
      anywhere below it is rejected, since the search is by descendants.
    - Run ([Listing.v], [Sweep.v]): [listIds] reads back the ids of the
      users' keys ([parseInt] of [pretty] is the identity); against any
      listing service obeying [KVListingLaws], a run writes each stored user
      exactly once and every run reaches its end (liveness, by the
      lexicographic measure of a page then of its fan-outs).  [scheduled]
      ([Worker.v]) never clears or refreshes a feed cached before the run:
      the module-level cache outlives every run, in every interleaving
      ([PageKept], [fetchAllFrom_kept]).
    - Commands ([Bot.v]): [new Command(text)] parses every printed command
      back; [exec] answers every error of a handler with one message and
      keeps the effects made before it; [/sub] stores the subscription
      exactly when the feed fetches and parses and the URL is new; [/unsub]
      removes the URL from the user or answers that it is not subscribed;
      [/fetch] changes only the caller's user; every [/start...] message and
      every group command [/word@bot ...] is an unknown command answered
      with the help text ([execCommandRegex_shape]).
    - Telegram client ([Telegram.v]): the query of a [sendMessage] URL is
      read as its chat id, text and options when the text holds no [&],
      [#], [+], [%], tab or newline; every JSON value reads back from its
      [JSON.stringify] form, so the posts and the registered commands
      arrive exactly ([readValue_stringify], [parseJson_stringify]); the
      body of [registerCommands] is typed by [conforms] against a [Schema].
    - Worker ([Worker.v]): a request without the secret token has no
      effect.  Rendering ([Render.v]): Telegram reads a rendered post as
      the code writes it, feed title and post title in bold, then the link
      and the date; the comment of [render.ts] documents another format
      ([{feedTitle} - {post.title}], not bold), recorded as a divergence.
    - Differ, again ([Updater.v]): a post dated after the fetch that
      delivered it is delivered again by every later update from a feed
      that still lists it, because the watermark is the fetch time.
    - Findings, proved on concrete inputs: concurrent tasks for one URL can
      both fetch and parse it; the merge-back's posts filter has no effect;
      a channel child named [items] breaks parsing; deleting all
      subscriptions of an unknown user creates a record; [/start] is never
      dispatched; [/unsub] in one chat
      removes a subscription made in another; the "Invalid RSS feed."
      branch is unreachable and errors read "Error: Error: ..."; a post
      without title or link is never rendered; [escapeTg] leaves the
      backslash unescaped, which Telegram rejects; the replies of
      [sendMessage] lose their line breaks and are cut at a [&] or [#] of
      a feed URL; the [\s] of the
      [filterTags] template literal is lost.

    ** Bounds and choices

    Timestamps are [Z] milliseconds: the code only stores [Date.now()] and
    [getTime()] of valid dates, integers below 2^53, so no rounding occurs
    and [b.pubDate - a.pubDate] has the sign of the exact difference.
    [NaN] dates are [None], which no comparison keeps.  No fuel is used: all
    recursion is structural (the regular expressions backtrack through
    continuations over the remaining string), the fan-out terminates by
    the measure [Fanout.measure] and a page of the run by
    [Sweep.pageMeasure]; the cursor loop terminates by the number of pages
    the listing laws give ([kvPages]).  Strings are [String.string] of
    8-bit code units, which is what [escapeTg], the regular expressions and
    [parseInt] look at.  The JSON reader runs on one unit of fuel per
    character of the body, which [Telegram.size_le_length] shows is
    enough.  Test inputs for the witnesses come from
    [Updater.TestPlatform] (dates as day numbers, one feed [F]).

    ** Not modelled

    The responses of the Telegram calls are taken to resolve: the calls
    are outputs of the command layer ([Bot.ApiCall]), whose requests
    [Telegram.v] builds.  Non-ASCII text is read as its bytes: the
    UTF-16 to UTF-8 conversion of [fetch] and of Telegram is left out.
    [fetchUpdates] of [updater.ts], a [Promise.all] of fetches that only
    the tests call, is not modelled.  The XML text parser, [Date] and [Response] are libraries the
    code only calls, given as the classes [Platform] and [DateFormat] and
    the argument [Network].  [settings.ts] holds constants.  The tests
    ([*.test.ts]) are not modelled; their cases are among the witnesses.
*)

From stdpp Require Import base list strings gmap.
From Stdlib Require Import ZArith Ascii.

Declare Scope telerss_scope.
Delimit Scope telerss_scope with tr.

(** ** Results of code that may throw *)

(** A JS function that returns normally gives [Ok v]; one that throws gives
    [Err e].  Effects performed before a throw are kept by the caller, which
    threads its state separately (see [Updater.v]). *)
Inductive result (A E : Type) : Type :=
| Ok (a : A)
| Err (e : E).
Arguments Ok {A E} a.
Arguments Err {A E} e.

Definition result_bind {A B E} (r : result A E) (k : A -> result B E) : result B E :=
  match r with
  | Ok a => k a
  | Err e => Err e
  end.

Notation "'let?' x ':=' c 'in' k" := (result_bind c (fun x => k))
  (at level 10, x name, c at level 100, k at level 200) : telerss_scope.

Definition is_ok {A E} (r : result A E) : bool :=
  match r with Ok _ => true | Err _ => false end.

(** ** JavaScript values the code relies on *)

(** Truthiness of a [string | null | undefined] value ([if (sub.etag)]):
    [null], [undefined] and the empty string are falsy. *)
Definition js_truthy_str (o : option string) : bool :=
  match o with
  | Some s => negb (String.eqb s "")
  | None => false
  end.

(** Truthiness of a number that is never [NaN] here ([if (sub.lastFetched)]). *)
Definition js_truthy_num (z : Z) : bool := negb (Z.eqb z 0).

(** A plain JS object used as a string-keyed record, as an association list
    in property-insertion order.  Reading a missing key gives [undefined]
    ([None]); assigning an existing key overwrites it in place, a new key is
    appended. *)
Definition JsObj (V : Type) := list (string * V).

Fixpoint js_get {V} (k : string) (o : JsObj V) : option V :=
  match o with
  | [] => None
  | (k', v) :: o' => if String.eqb k k' then Some v else js_get k o'
  end.

Fixpoint js_set {V} (k : string) (v : V) (o : JsObj V) : JsObj V :=
  match o with
  | [] => [(k, v)]
  | (k', v') :: o' => if String.eqb k k' then (k, v) :: o' else (k', v') :: js_set k v o'
  end.

(** ** Automation *)

Create HintDb telerss.

Ltac destr_eqb :=
  repeat match goal with
  | |- context [String.eqb ?a ?b] =>
      let E := fresh "E" in
      destruct (String.eqb_spec a b) as [E|E]; [subst|]
  | |- context [Z.eqb ?a ?b] =>
      let E := fresh "E" in destruct (Z.eqb_spec a b) as [E|E]
  | |- context [Z.ltb ?a ?b] =>
      let E := fresh "E" in destruct (Z.ltb_spec a b) as [E|E]
  | |- context [Z.leb ?a ?b] =>
      let E := fresh "E" in destruct (Z.leb_spec a b) as [E|E]
  end.

Section JsObjLemmas.
Context {V : Type}.

Lemma js_get_set_eq (k : string) (v : V) (o : JsObj V) : js_get k (js_set k v o) = Some v.
Proof.
  induction o as [|[k' v'] o IH]; simpl; rewrite ?String.eqb_refl; [done|].
  destruct (String.eqb_spec k k'); simpl; rewrite ?String.eqb_refl; [done|].
  destruct (String.eqb_spec k k'); [congruence|done].
Qed.

Lemma js_get_set_ne (k k2 : string) (v : V) (o : JsObj V) :
  k <> k2 -> js_get k2 (js_set k v o) = js_get k2 o.
Proof.
  intros Hne. induction o as [|[k' v'] o IH]; simpl.
  - destruct (String.eqb_spec k2 k); congruence.
  - destruct (String.eqb_spec k k'); simpl.
    + subst. destruct (String.eqb_spec k2 k'); congruence.
    + destruct (String.eqb_spec k2 k'); congruence.
Qed.

(** Assigning never removes a property. *)
Lemma js_get_set_some (k k2 : string) (v : V) (o : JsObj V) :
  is_Some (js_get k2 o) -> is_Some (js_get k2 (js_set k v o)).
Proof.
  destruct (String.eqb_spec k k2) as [->|Hne].
  - rewrite js_get_set_eq. eauto.
  - rewrite js_get_set_ne by done. done.
Qed.
End JsObjLemmas.

#[export] Hint Rewrite @js_get_set_eq : telerss.
#[export] Hint Resolve js_get_set_some : telerss.

(** ** Lists *)

Lemma filter_In_iff {A} (f : A -> bool) (x : A) (l : list A) :
  In x (List.filter f l) <-> In x l /\ f x = true.
Proof. apply filter_In. Qed.

Lemma filter_all_true {A} (f : A -> bool) (l : list A) :
  (forall x, In x l -> f x = true) -> List.filter f l = l.
Proof.
  induction l as [|a l IH]; intros H; simpl; [done|].
  rewrite H by (left; done). f_equal. apply IH. intros x Hx. apply H. right. done.
Qed.

Lemma firstn_In {A} (n : nat) (x : A) (l : list A) : In x (firstn n l) -> In x l.
Proof.
  revert l. induction n as [|n IH]; intros [|a l]; simpl; try tauto.
  intros [<-|H]; [left; done|right; apply IH, H].
Qed.

#[export] Hint Resolve firstn_In : telerss.

(** A sum of weights over a list after one element is replaced. *)
Lemma list_sum_map_insert {A} (w : A -> nat) (l : list A) i x x' :
  l !! i = Some x -> (list_sum (map w (<[i := x']> l)) + w x = list_sum (map w l) + w x')%nat.
Proof.
  revert i. induction l as [|a l IH]; intros [|i] Hi; simpl in *; try discriminate.
  - injection Hi as ->. lia.
  - specialize (IH i Hi). lia.
Qed.

(** Replacing one element of a list changes a [flat_map] over it by the
    images of the two elements, up to order. *)
Lemma flat_map_insert {A B} (f : A -> list B) (l : list A) i x x' :
  l !! i = Some x -> flat_map f (<[i := x']> l) ++ f x ≡ₚ flat_map f l ++ f x'.
Proof.
  revert i. induction l as [|a l IH]; intros [|i] Hi; simpl in *; try discriminate.
  - injection Hi as ->. solve_Permutation.
  - rewrite <- !app_assoc. by apply Permutation_app_head, IH.
Qed.

Lemma lookup_map_seq {A} (f : nat -> A) k n i :
  (i < n)%nat -> map f (seq k n) !! i = Some (f (k + i)%nat).
Proof.
  revert k i. induction n as [|n IH]; intros k [|i] Hi; simpl; try lia.
  - by rewrite Nat.add_0_r.
  - rewrite IH by lia. do 2 f_equal. lia.
Qed.

(** ** Strings *)

Lemma string_app_nil_r (s : string) : String.append s EmptyString = s.
Proof.
  induction s as [|c s IH]; [done|].
  change (String c (String.append s EmptyString) = String c s). by rewrite IH.
Qed.

(** Every character of a string satisfies [p]. *)
Fixpoint strForall (p : ascii -> bool) (s : string) : bool :=
  match s with
  | String c s' => p c && strForall p s'
  | EmptyString => true
  end.

(** The first character satisfies [p]. *)
Definition startsWith (p : ascii -> bool) (s : string) : bool :=
  match s with String c _ => p c | EmptyString => false end.

Lemma string_append_cons (c : ascii) (s t : string) : String.append (String c s) t = String c (String.append s t).
Proof. done. Qed.

Lemma string_append_assoc (s t u : string) : String.append (String.append s t) u = String.append s (String.append t u).
Proof. induction s as [|c s IH]; [done|]. rewrite !string_append_cons. by rewrite IH. Qed.

Lemma forallb_false_In {A} (f : A -> bool) (l : list A) :
  forallb f l = false -> exists x, In x l /\ f x = false.
Proof.
  induction l as [|a l IH]; simpl; [done|].
  destruct (f a) eqn:Ha; simpl; [intros H; destruct (IH H) as (x & ? & ?); eauto|eauto].
Qed.
