(* ===== verification/StableSort.v ===== *)
(** * Stable sorting by a numeric key, newest first

    [posts.sort((a, b) => b.pubDate - a.pubDate)] in [src/src/updater.ts]
    sorts by descending key with a stable algorithm (ECMAScript 2019 requires
    [Array.prototype.sort] to be stable).  This file gives an executable
    stable sort, [sortDesc], and proves that the result of a stable sort by
    descending key is unique: any list that is sorted by descending key and
    keeps the relative order of items with equal keys is [sortDesc]'s output.
    That is what lets one definition stand for the engine's sort. *)

From stdpp Require Import base list.
From Stdlib Require Import ZArith Sorted Permutation.
From S2P Require Import Prelude.

Section StableSortDesc.
Context {A : Type} (key : A -> Z).

(** Insert [x] before the first element whose key is not larger: [x]
    comes first in the input, so it stays before elements of equal key. *)
Fixpoint insertDesc (x : A) (l : list A) : list A :=
  match l with
  | [] => [x]
  | y :: ys => if (key y <=? key x)%Z then x :: y :: ys else y :: insertDesc x ys
  end.

Fixpoint sortDesc (l : list A) : list A :=
  match l with
  | [] => []
  | x :: r => insertDesc x (sortDesc r)
  end.

(** The abstract contract of a stable sort by descending key. *)
Definition SortedDesc : list A -> Prop := Sorted (fun a b => (key b <= key a)%Z).

Definition sameKeyOrder (l1 l2 : list A) : Prop :=
  forall k, List.filter (fun a => Z.eqb (key a) k) l1 = List.filter (fun a => Z.eqb (key a) k) l2.

Definition StableSortDesc (input output : list A) : Prop :=
  SortedDesc output /\ sameKeyOrder input output.

Lemma insertDesc_perm x l : Permutation (insertDesc x l) (x :: l).
Proof.
  induction l as [|y l IH]; simpl; [done|].
  destruct (key y <=? key x)%Z; [done|].
  rewrite IH. apply perm_swap.
Qed.

Lemma sortDesc_perm l : Permutation (sortDesc l) l.
Proof.
  induction l as [|x l IH]; simpl; [done|].
  rewrite insertDesc_perm, IH. done.
Qed.

Lemma sortDesc_In x l : In x (sortDesc l) <-> In x l.
Proof. split; apply Permutation_in; [apply sortDesc_perm|symmetry; apply sortDesc_perm]. Qed.

Lemma insertDesc_sorted x l : SortedDesc l -> SortedDesc (insertDesc x l).
Proof.
  unfold SortedDesc. induction 1 as [|y l Hs IH Hhd]; simpl; [repeat constructor|].
  destruct (Z.leb_spec (key y) (key x)).
  - constructor; [constructor; done|constructor; lia].
  - constructor; [done|].
    destruct l as [|z l]; simpl; [constructor; lia|].
    inversion Hhd; subst.
    destruct (key z <=? key x)%Z; constructor; lia.
Qed.

Lemma sortDesc_sorted l : SortedDesc (sortDesc l).
Proof. induction l; simpl; [constructor|by apply insertDesc_sorted]. Qed.

(** Inserting an element only adds it to the bucket of its own key. *)
Lemma filter_insertDesc x l k :
  List.filter (fun a => Z.eqb (key a) k) (insertDesc x l) =
  List.filter (fun a => Z.eqb (key a) k) (x :: l).
Proof.
  induction l as [|y l IH]; simpl; [done|].
  destruct (Z.leb_spec (key y) (key x)); simpl; [done|].
  rewrite IH. simpl.
  destruct (Z.eqb_spec (key y) k), (Z.eqb_spec (key x) k); try done; lia.
Qed.

Lemma sortDesc_sameKeyOrder l : sameKeyOrder l (sortDesc l).
Proof.
  intros k. induction l as [|x l IH]; simpl; [done|].
  rewrite filter_insertDesc. simpl. rewrite IH. done.
Qed.

Lemma sortDesc_stable l : StableSortDesc l (sortDesc l).
Proof. split; [apply sortDesc_sorted|apply sortDesc_sameKeyOrder]. Qed.

Lemma SortedDesc_head_max a l x :
  SortedDesc (a :: l) -> In x (a :: l) -> (key x <= key a)%Z.
Proof.
  intros Hs Hx. apply Sorted_StronglySorted in Hs; [|intros ???; lia].
  destruct Hx as [->|Hx]; [lia|].
  inversion Hs as [|? ? _ Hall]; subst.
  rewrite List.Forall_forall in Hall. apply Hall, Hx.
Qed.

Lemma sameKeyOrder_In l1 l2 x : sameKeyOrder l1 l2 -> In x l1 -> In x l2.
Proof.
  intros H Hx. specialize (H (key x)).
  assert (In x (List.filter (fun a => Z.eqb (key a) (key x)) l1)) as Hf
    by (apply filter_In; rewrite Z.eqb_refl; done).
  rewrite H in Hf. apply filter_In in Hf. tauto.
Qed.

Lemma sameKeyOrder_sym l1 l2 : sameKeyOrder l1 l2 -> sameKeyOrder l2 l1.
Proof. intros H k. symmetry. apply H. Qed.

Lemma sameKeyOrder_cons a l1 l2 : sameKeyOrder (a :: l1) (a :: l2) -> sameKeyOrder l1 l2.
Proof.
  intros H k. specialize (H k). simpl in H.
  destruct (Z.eqb (key a) k); [injection H; done|done].
Qed.

Lemma sameKeyOrder_heads a l1 b l2 :
  key a = key b -> sameKeyOrder (a :: l1) (b :: l2) -> a = b.
Proof.
  intros Hk H. specialize (H (key a)). simpl in H.
  rewrite Z.eqb_refl, Hk, Z.eqb_refl in H. congruence.
Qed.

(** Uniqueness: two stable descending sorts of the same input agree. *)
Lemma stable_sort_unique l1 l2 :
  SortedDesc l1 -> SortedDesc l2 -> sameKeyOrder l1 l2 -> l1 = l2.
Proof.
  revert l2. induction l1 as [|a l1 IH]; intros [|b l2] S1 S2 H.
  - done.
  - exfalso. eapply (@in_nil A b), sameKeyOrder_In; [apply sameKeyOrder_sym, H|left; done].
  - exfalso. eapply (@in_nil A a), sameKeyOrder_In; [apply H|left; done].
  - assert (key a = key b).
    { pose proof (SortedDesc_head_max b l2 a S2 (sameKeyOrder_In _ _ a H (or_introl eq_refl))).
      pose proof (SortedDesc_head_max a l1 b S1
                    (sameKeyOrder_In _ _ b (sameKeyOrder_sym _ _ H) (or_introl eq_refl))).
      lia. }
    assert (a = b) as <- by (eapply sameKeyOrder_heads; eauto).
    f_equal. apply IH; [eapply Sorted_inv; eauto|eapply Sorted_inv; eauto|].
    eapply sameKeyOrder_cons; eauto.
Qed.

(** Any list that is sorted by descending key and keeps the input
    order of equal keys is [sortDesc]'s result: the engine's stable
    [Array.prototype.sort] with comparator [b.pubDate - a.pubDate]
    computes what [sortDesc] computes. *)
Lemma StableSortDesc_sortDesc l out : StableSortDesc l out -> out = sortDesc l.
Proof.
  intros [Hs Hk]. apply stable_sort_unique; [done|apply sortDesc_sorted|].
  intros k. rewrite <- Hk. apply sortDesc_sameKeyOrder.
Qed.
End StableSortDesc.

#[export] Hint Resolve sortDesc_sorted sortDesc_sameKeyOrder sortDesc_stable : telerss.

Module StableSortExamples.
Local Open Scope Z_scope.
(** Pairs sorted on their first component, the second telling equal keys apart. *)
Definition input : list (Z * Z) := [(1, 0); (3, 0); (1, 1); (2, 0); (3, 1)].
Definition sorted : list (Z * Z) := [(3, 0); (3, 1); (2, 0); (1, 0); (1, 1)].

Lemma StableSortDesc_sortDesc_witness :
  StableSortDesc fst input sorted /\ sorted = sortDesc fst input.
Proof.
  assert (H : StableSortDesc fst input sorted).
  { split.
    - repeat constructor; simpl; lia.
    - intros k. cbn [List.filter fst input sorted].
      destruct (Z.eqb_spec 1 k), (Z.eqb_spec 2 k), (Z.eqb_spec 3 k); subst; try lia; reflexivity. }
  split; [exact H|exact (StableSortDesc_sortDesc fst input sorted H)].
Defined.
End StableSortExamples.
