(* ===== verification/Model.v ===== *)
(** * The data model: [src/src/model.ts] and [src/src/settings.ts]

    Records for the TypeScript interfaces, with the optional fields as
    [option] ([undefined] or [null] is [None]).  Timestamps are JS numbers
    holding whole milliseconds since the epoch; they are [Z] here because
    every timestamp the code stores comes from [Date.now()] or
    [Date.prototype.getTime()] of a valid date, both integers far below
    2^53. *)

From stdpp Require Import base list strings.
From Stdlib Require Import ZArith.
From S2P Require Import Prelude.

Open Scope Z_scope.

(** [interface Subscription] *)
Record Subscription := mkSubscription {
  chatId : Z;
  url : string;
  lastFetched : Z;
  etag : option string;
  refreshRate : option Z
}.

(** [newSubscription(chatId, url)]: never fetched, [lastFetched = 0]. *)
Definition newSubscription (chatId : Z) (url : string) : Subscription :=
  {| chatId := chatId; url := url; lastFetched := 0; etag := None; refreshRate := None |}.

(** [interface User] *)
Record User := mkUser {
  id : Z;
  subscriptions : list Subscription;
  defaultRefreshRate : option Z;
  postsToLoadOnNewSub : option Z
}.

Definition newUser (id : Z) : User :=
  {| id := id; subscriptions := []; defaultRefreshRate := None; postsToLoadOnNewSub := None |}.

Definition setSubscriptions (u : User) (subs : list Subscription) : User :=
  {| id := id u; subscriptions := subs; defaultRefreshRate := defaultRefreshRate u;
     postsToLoadOnNewSub := postsToLoadOnNewSub u |}.

(** [interface Post].  The text fields are read from the parsed item and are
    [undefined] when the item has no such child element, hence [option]. *)
Record Post := mkPost {
  title : option string;
  link : option string;
  description : option string;
  pubDate : Z;
  hashtags : option (list string)
}.

(** [interface Update].  [feedTitle] is [feed.channel.title], which is
    [undefined] for a channel without a [<title>] child. *)
Record Update := mkUpdate {
  subscription : Subscription;
  feedTitle : option string;
  posts : list Post
}.

(** [defaultSettings] of [settings.ts]. *)
Module Settings.
Record t := mk {
  maxUsers : Z;
  maxSubscriptionsPerUser : Z;
  postsToLoadOnNewSub : nat;
  defaultRefreshRate : Z
}.

Definition defaultSettings : t :=
  {| maxUsers := 100; maxSubscriptionsPerUser := 1000;
     postsToLoadOnNewSub := 5; defaultRefreshRate := 15 |}.
End Settings.

(** Record updates used by the code's in-place assignments. *)
Definition setFetched (s : Subscription) (lf : Z) (e : option string) : Subscription :=
  {| chatId := chatId s; url := url s; lastFetched := lf; etag := e; refreshRate := refreshRate s |}.

Lemma setFetched_url s lf e : url (setFetched s lf e) = url s.
Proof. done. Qed.

Lemma setSubscriptions_id u subs : id (setSubscriptions u subs) = id u.
Proof. done. Qed.

#[export] Hint Rewrite setFetched_url setSubscriptions_id : telerss.
