(* ===== verification/Rss.v ===== *)
(** * The feed parser: [parseRSS] of [src/src/rss.ts]

    [parseRSS] hands the text to [@xmldom/xmldom]'s [DOMParser] and walks the
    resulting DOM.  The library's text-to-tree step is not modelled; the walk
    is, over an explicit DOM ([Node]): [getElementsByTagName] (all descendant
    elements of a tag, in document order), [childNodes], [textContent] and
    the [hasOwnProperty('tagName')] test, which holds of elements only.

    Items and the channel are JS objects filled by [obj[tag] = text]
    ([Prelude.js_set]); assigning a string to the key [__proto__] is ignored
    by JS, which [js_assign] reproduces.  The channel starts as
    [{ items: [] }], so a channel child element named [items] replaces the
    array with a string: [JsVal] keeps both shapes. *)

From stdpp Require Import base list strings.
From Stdlib Require Import ZArith.
From S2P Require Import Prelude.

Open Scope string_scope.

(** A DOM node: elements (with their tag name and children), text (and
    CDATA) nodes, and comments. *)
Inductive Node : Type :=
| Element (tagName : string) (childNodes : list Node)
| Text (data : string)
| Comment (data : string).

(** Concatenated text of the descendants ([Node.textContent] of an element). *)
Fixpoint textContent (n : Node) : string :=
  match n with
  | Element _ cs => (fix go (cs : list Node) : string :=
                       match cs with
                       | [] => ""
                       | c :: cs' => textContent c ++ go cs'
                       end) cs
  | Text s => s
  | Comment _ => ""
  end.

(** [n] itself when it is an element named [name], then its descendants of
    that name, in document order. *)
Fixpoint elementsByTag (name : string) (n : Node) : list Node :=
  match n with
  | Element t cs =>
      ((if String.eqb t name then [n] else []) ++
      (fix go (cs : list Node) : list Node :=
         match cs with
         | [] => []
         | c :: cs' => elementsByTag name c ++ go cs'
         end) cs)%list
  | _ => []
  end.

(** [parent.getElementsByTagName(name)] for a parent with children [cs]. *)
Definition getElementsByTagName (name : string) (cs : list Node) : list Node :=
  concat (map (elementsByTag name) cs).

Arguments getElementsByTagName : simpl never.

Definition Item := JsObj string.

Inductive JsVal : Type :=
| JStr (s : string)
| JItems (items : list Item).

Definition Channel := JsObj JsVal.

(** [obj[key] = value] for a string [value]. *)
Definition js_assign {V} (k : string) (v : V) (o : JsObj V) : JsObj V :=
  if String.eqb k "__proto__" then o else js_set k v o.

(** The [forEach] over [itemElement.childNodes]. *)
Definition buildItem (cs : list Node) : Item :=
  fold_left (fun it n =>
               match n with
               | Element t _ => js_assign t (textContent n) it
               | _ => it
               end) cs [].

(** The [forEach] over [channelElement.childNodes], items skipped. *)
Definition assignChannelFields (cs : list Node) (ch : Channel) : Channel :=
  fold_left (fun ch n =>
               match n with
               | Element t _ => if String.eqb t "item" then ch
                                else js_assign t (JStr (textContent n)) ch
               | _ => ch
               end) cs ch.

Definition childrenOf (n : Node) : list Node :=
  match n with Element _ cs => cs | _ => [] end.

(** [parseRSS(xml)] after [parseFromString]: [doc] is the list of the
    document's top-level nodes. *)
Definition parseRSS (doc : list Node) : result Channel string :=
  match getElementsByTagName "rss" doc with
  | [rssElement] =>
      match getElementsByTagName "channel" (childrenOf rssElement) with
      | [channelElement] =>
          let ccs := childrenOf channelElement in
          let items := map (fun e => buildItem (childrenOf e)) (getElementsByTagName "item" ccs) in
          Ok (assignChannelFields ccs [("items", JItems items)])
      | _ => Err "Invalid RSS feed: missing <channel> element"
      end
  | _ => Err "Invalid RSS feed: missing <rss> element"
  end.

(** What [for (const item of feed.channel.items)] iterates over.  When
    [items] was overwritten by a string, the loop visits its characters:
    string primitives, which have none of the properties the loop reads, so
    each behaves as the empty item. *)
Definition channelItems (ch : Channel) : list Item :=
  match js_get "items" ch with
  | Some (JItems l) => l
  | Some (JStr s) => map (fun _ => []) (String.list_ascii_of_string s)
  | None => []
  end.

(** [feed.channel.title] *)
Definition channelTitle (ch : Channel) : option string :=
  match js_get "title" ch with
  | Some (JStr s) => Some s
  | _ => None
  end.

(** ** Properties of the parser *)

Open Scope list_scope.

(** An RSS document printed from a title and a list of items, each item a
    child element per property: the shape of a well-formed feed. *)
Definition fieldNode (kv : string * string) : Node := Element kv.1 [Text kv.2].

Definition itemNode (it : Item) : Node := Element "item" (map fieldNode it).

Definition rssDoc (t : string) (items : list Item) : list Node :=
  [Element "rss" [Element "channel" (Element "title" [Text t] :: map itemNode items)]].

(** Property names that the printed form keeps apart from the structure the
    parser searches for. *)
Definition plainKey (k : string) : Prop :=
  k <> "item" /\ k <> "rss" /\ k <> "channel" /\ k <> "__proto__".

Definition wfItem (it : Item) : Prop := NoDup (map fst it) /\ Forall plainKey (map fst it).

Lemma js_set_fresh {V} (k : string) (v : V) (o : JsObj V) :
  ~ In k (map fst o) -> js_set k v o = o ++ [(k, v)].
Proof.
  induction o as [|[k' v'] o IH]; intros Hk; simpl in *; [done|].
  destruct (String.eqb_spec k k'); [subst; tauto|].
  rewrite IH; [done|tauto].
Qed.

Lemma assignChannelFields_has_items cs ch :
  is_Some (js_get "items" ch) -> is_Some (js_get "items" (assignChannelFields cs ch)).
Proof.
  unfold assignChannelFields. revert ch.
  induction cs as [|n cs IH]; intros ch H; simpl; [done|].
  apply IH. destruct n as [t ?| |]; [|done|done].
  destruct (String.eqb t "item"); [done|].
  unfold js_assign. destruct (String.eqb t "__proto__"); [done|].
  by apply js_get_set_some.
Qed.

Lemma getElementsByTagName_cons name n cs :
  getElementsByTagName name (n :: cs) = elementsByTag name n ++ getElementsByTagName name cs.
Proof. done. Qed.

Lemma elementsByTag_Element name t cs :
  elementsByTag name (Element t cs) =
  (if String.eqb t name then [Element t cs] else []) ++ getElementsByTagName name cs.
Proof.
  simpl. f_equal. unfold getElementsByTagName.
  induction cs as [|c cs IH]; [done|]. simpl. f_equal. exact IH.
Qed.

Lemma getElementsByTagName_nil name : getElementsByTagName name [] = [].
Proof. done. Qed.

Lemma elementsByTag_Text name s : elementsByTag name (Text s) = [].
Proof. done. Qed.

Arguments elementsByTag : simpl never.

(** Induction on nodes with the property for every child of an element. *)
Fixpoint Node_ind' (P : Node -> Prop) (HE : forall t cs, Forall P cs -> P (Element t cs))
    (HT : forall s, P (Text s)) (HC : forall s, P (Comment s)) (n : Node) {struct n} : P n :=
  match n with
  | Element t cs =>
      HE t cs ((fix go (cs : list Node) : Forall P cs :=
                  match cs return Forall P cs with
                  | [] => @List.Forall_nil _ P
                  | c :: cs' => @List.Forall_cons _ P c cs' (Node_ind' P HE HT HC c) (go cs')
                  end) cs)
  | Text s => HT s
  | Comment s => HC s
  end.

(** An element found by the descendant search has fewer elements of that
    name below it than the search found: itself is one of them. *)
Lemma elementsByTag_nested name n ch :
  In ch (elementsByTag name n) ->
  (length (getElementsByTagName name (childrenOf ch)) < length (elementsByTag name n))%nat.
Proof.
  revert ch. induction n as [t cs IH|s|s] using Node_ind'; intros ch Hin;
    [|by rewrite elementsByTag_Text in Hin|change False in Hin; done].
  rewrite elementsByTag_Element in Hin |- *. rewrite length_app. apply in_app_or in Hin as [Hin|Hin].
  - destruct (String.eqb t name); [|done]. destruct Hin as [<-|[]]. simpl. lia.
  - cut (length (getElementsByTagName name (childrenOf ch)) < length (getElementsByTagName name cs))%nat;
      [lia|].
    clear t. revert Hin. induction IH as [|c cs Hc _ IHcs]; intros Hin; [done|].
    rewrite getElementsByTagName_cons in Hin |- *. rewrite length_app.
    apply in_app_or in Hin as [Hin|Hin]; [specialize (Hc ch Hin)|specialize (IHcs Hin)]; lia.
Qed.

Lemma getElementsByTagName_nested name cs ch :
  In ch (getElementsByTagName name cs) ->
  (length (getElementsByTagName name (childrenOf ch)) < length (getElementsByTagName name cs))%nat.
Proof.
  induction cs as [|c cs IH]; intros Hin; [done|].
  rewrite getElementsByTagName_cons in Hin |- *. rewrite length_app.
  apply in_app_or in Hin as [Hin|Hin]; [pose proof (elementsByTag_nested name c ch Hin)|specialize (IH Hin)]; lia.
Qed.

Lemma textContent_field k v : textContent (fieldNode (k, v)) = v.
Proof. apply string_app_nil_r. Qed.

Lemma getElementsByTagName_fields name (it : Item) :
  Forall (fun k => k <> name) (map fst it) -> getElementsByTagName name (map fieldNode it) = [].
Proof.
  induction it as [|[k v] it IH]; intros H; [done|].
  inversion H as [|? ? Hk Hrest]; subst. simpl in Hk.
  rewrite map_cons, getElementsByTagName_cons. change (fieldNode (k, v)) with (Element k [Text v]).
  rewrite elementsByTag_Element.
  destruct (String.eqb_spec k name); [congruence|]. rewrite IH by done. done.
Qed.

Lemma getElementsByTagName_items name (items : list Item) :
  name <> "item" -> Forall (fun it => Forall (fun k => k <> name) (map fst it)) items ->
  getElementsByTagName name (map itemNode items) = [].
Proof.
  intros Hn. induction items as [|it items IH]; intros H; [done|].
  inversion H as [|? ? Hit Hrest]; subst.
  rewrite map_cons, getElementsByTagName_cons. change (itemNode it) with (Element "item" (map fieldNode it)).
  rewrite elementsByTag_Element, getElementsByTagName_fields by done. rewrite (IH Hrest).
  destruct (String.eqb_spec "item" name); [congruence|]. done.
Qed.

Lemma getElementsByTagName_item_items (items : list Item) :
  Forall (fun it => Forall (fun k => k <> "item") (map fst it)) items ->
  getElementsByTagName "item" (map itemNode items) = map itemNode items.
Proof.
  induction items as [|it items IH]; intros H; [done|].
  inversion H as [|? ? Hit Hrest]; subst.
  rewrite map_cons, getElementsByTagName_cons. change (itemNode it) with (Element "item" (map fieldNode it)).
  rewrite elementsByTag_Element, getElementsByTagName_fields by done. rewrite (IH Hrest). done.
Qed.

Lemma buildItem_fields_acc (it acc : Item) :
  NoDup (map fst (acc ++ it)) -> Forall (fun k => k <> "__proto__") (map fst it) ->
  fold_left (fun it n => match n with
                         | Element t _ => js_assign t (textContent n) it
                         | _ => it end) (map fieldNode it) acc = acc ++ it.
Proof.
  revert acc. induction it as [|[k v] it IH]; intros acc Hnd Hp; simpl; [by rewrite app_nil_r|].
  inversion Hp as [|? ? Hk Hrest]; subst. simpl in Hk.
  unfold js_assign. destruct (String.eqb_spec k "__proto__"); [congruence|].
  rewrite string_app_nil_r, js_set_fresh.
  - rewrite IH; [by rewrite <- app_assoc|by rewrite <- app_assoc|done].
  - rewrite map_app in Hnd. simpl in Hnd. apply NoDup_app in Hnd as (_ & Hdis & _).
    intros Hin. apply (Hdis k); [by apply list_elem_of_In|constructor].
Qed.

Lemma buildItem_fields (it : Item) : wfItem it -> buildItem (map fieldNode it) = it.
Proof.
  intros [Hnd Hk]. apply (buildItem_fields_acc it []); [done|].
  eapply Forall_impl; [exact Hk|]. intros k (_ & _ & _ & H). exact H.
Qed.

Lemma assignChannelFields_items (items : list Item) ch :
  assignChannelFields (map itemNode items) ch = ch.
Proof.
  unfold assignChannelFields. induction items as [|it items IH]; [done|]. exact IH.
Qed.

Lemma wfItems_avoid (items : list Item) name :
  name = "item" \/ name = "rss" \/ name = "channel" ->
  Forall wfItem items -> Forall (fun it => Forall (fun k => k <> name) (map fst it)) items.
Proof.
  intros Hn H. eapply Forall_impl; [exact H|]. intros it [_ Hk].
  eapply Forall_impl; [exact Hk|]. intros k (H1 & H2 & H3 & _). intuition congruence.
Qed.

(** C20: parsing the printed form of a feed gives back its items, in
    order, and its title, whenever every item's property names are distinct
    and none of them is [item], [rss], [channel] or [__proto__]. *)
Theorem parseRSS_rssDoc (t : string) (items : list Item) :
  Forall wfItem items ->
  parseRSS (rssDoc t items) = Ok [("items", JItems items); ("title", JStr t)].
Proof.
  intros Hwf.
  pose proof (wfItems_avoid items "item" ltac:(auto) Hwf) as Hi.
  pose proof (wfItems_avoid items "rss" ltac:(auto) Hwf) as Hr.
  pose proof (wfItems_avoid items "channel" ltac:(auto) Hwf) as Hc.
  unfold parseRSS, rssDoc.
  repeat rewrite ?getElementsByTagName_cons, ?elementsByTag_Element, ?elementsByTag_Text,
    ?getElementsByTagName_nil, ?app_nil_r.
  rewrite (getElementsByTagName_items "rss") by done.
  cbn -[getElementsByTagName elementsByTag textContent].
  repeat rewrite ?getElementsByTagName_cons, ?elementsByTag_Element, ?elementsByTag_Text,
    ?getElementsByTagName_nil, ?app_nil_r.
  rewrite (getElementsByTagName_items "channel") by done.
  cbn -[getElementsByTagName elementsByTag textContent].
  repeat rewrite ?getElementsByTagName_cons, ?elementsByTag_Element, ?elementsByTag_Text,
    ?getElementsByTagName_nil, ?app_nil_r.
  rewrite getElementsByTagName_item_items by done.
  cbn -[getElementsByTagName elementsByTag textContent].
  pose proof (assignChannelFields_items items) as Ha. unfold assignChannelFields in Ha.
  rewrite Ha, map_map, (map_ext_in _ id), map_id; [|].
  - change (textContent (Element "title" [Text t])) with (textContent (fieldNode ("title", t))).
    rewrite textContent_field. done.
  - intros it Hit. apply buildItem_fields. rewrite List.Forall_forall in Hwf. auto.
Qed.

(** C31: Spec gap: [getElementsByTagName] searches all descendants, so a
    feed whose [channel] has another [channel] element anywhere below it
    (an item with a child named [channel], say) has two [channel]
    elements, and [parseRSS] rejects the whole feed with the
    missing-channel error. *)
Theorem parseRSS_nested_channel_rejected doc rss ch :
  getElementsByTagName "rss" doc = [rss] ->
  In ch (getElementsByTagName "channel" (childrenOf rss)) ->
  getElementsByTagName "channel" (childrenOf ch) <> [] ->
  parseRSS doc = Err "Invalid RSS feed: missing <channel> element".
Proof.
  intros Hr Hch Hne. unfold parseRSS. rewrite Hr.
  pose proof (getElementsByTagName_nested _ _ _ Hch) as Hl.
  destruct (getElementsByTagName "channel" (childrenOf ch)) as [|x xs]; [done|].
  destruct (getElementsByTagName "channel" (childrenOf rss)) as [|a [|b l]]; simpl in Hl; [done|lia|done].
Qed.

(** An item carrying a [channel] child. *)
Lemma parseRSS_nested_channel_rejected_witness :
  parseRSS [Element "rss" [Element "channel"
              [Element "title" [Text "T"];
               Element "item" [Element "channel" [Text "c"]]]]]
  = Err "Invalid RSS feed: missing <channel> element".
Proof.
  apply (parseRSS_nested_channel_rejected _
           (Element "rss" [Element "channel" [Element "title" [Text "T"];
                                              Element "item" [Element "channel" [Text "c"]]]])
           (Element "channel" [Element "title" [Text "T"]; Element "item" [Element "channel" [Text "c"]]]));
    [reflexivity|vm_compute; left; reflexivity|vm_compute; discriminate].
Defined.

(** Spec gap: a channel child element named [items] replaces the parsed
    item array by its text, after which the feed has no item with a date. *)
Theorem parseRSS_items_overwritten :
  match parseRSS [Element "rss" [Element "channel"
                   [Element "item" [Element "pubDate" [Text "Mon, 03 Apr 2023"]];
                    Element "items" [Text "ab"]]]] with
  | Ok ch => channelItems ch = [[]; []]
  | Err _ => False
  end.
Proof. reflexivity. Qed.

Module RssExamples.
Definition sampleItems : list Item :=
  [[("title", "Item 1"); ("description", "Item 1 Description")]; []].

Lemma sampleItems_wf : Forall wfItem sampleItems.
Proof.
  unfold sampleItems, wfItem, plainKey. simpl.
  repeat constructor; try discriminate; simpl; rewrite ?list_elem_of_singleton; [discriminate|apply not_elem_of_nil].
Qed.

Lemma parseRSS_rssDoc_witness :
  Forall wfItem sampleItems /\
  parseRSS (rssDoc "Test RSS Feed" sampleItems) =
    Ok [("items", JItems sampleItems); ("title", JStr "Test RSS Feed")].
Proof. split; [exact sampleItems_wf|exact (parseRSS_rssDoc "Test RSS Feed" sampleItems sampleItems_wf)]. Defined.
End RssExamples.
