(* ===== verification/Updater.v ===== *)
(** * Feed cache, feed fetcher and post differ: [src/src/updater.ts]

    [fetchSubscriptionUpdates] reads and fills the module-level [feedCache]
    (a [Map] from feed URL to [CachedFeed]), issues a conditional [fetch] on
    a miss, parses the body with [parseRSS], and diffs the items against the
    subscription's watermark with [getNewPosts].  The subscription object is
    then mutated ([sub.lastFetched = feed.lastFetched; sub.etag =
    feed.etag]); here the mutated value is returned in the [Update], and
    [Fanout.v] writes it back into the shared object.

    The function is cut at its two [await]s into phases ([startFetch],
    [onResponse], [onBody], [applyFeed]) so that the concurrent model of
    [Fanout.v] runs the very same code between suspension points; the
    sequential [fetchSubscriptionUpdates] composes them.

    The collaborators the code only calls are a type class, [Platform]:
    the XML text-to-DOM step of [DOMParser] and [Date]'s string parser.  The
    network is an argument, [Network], from URL and conditional header to a
    response ([None] when [fetch] rejects). *)

From stdpp Require Import base list strings gmap.
From Stdlib Require Import ZArith Sorted Ascii.
From S2P Require Import Prelude StableSort Model Rss.

Open Scope Z_scope.

(** ** Collaborators *)

Class Platform := {
  (** [new DOMParser().parseFromString(text, 'text/xml')]: the document's
      top-level nodes. *)
  parseFromString : string -> list Node;
  (** [new Date(s).getTime()] for a string [s]; [None] is [NaN]. *)
  dateParse : string -> option Z
}.

(** [interface CachedFeed] *)
Module CachedFeed.
Record t := mk {
  channel : Channel;
  etag : option string;
  lastFetched : Z
}.
End CachedFeed.

(** The conditional header [fetchSubscriptionUpdates] adds, if any.  The
    [If-Modified-Since] value is [new Date(lastFetched).toUTCString()]; the
    timestamp it is rendered from is kept. *)
Inductive CondHeader :=
| NoCondition
| IfNoneMatch (etag : string)
| IfModifiedSince (since : Z).

Record Response := mkResponse {
  status : Z;
  respEtag : option string;   (** [resp.headers.get('etag')] *)
  body : string               (** [await resp.text()] *)
}.

Definition Network := string -> CondHeader -> option Response.

Inductive FetchError :=
| NetworkError
| ParseError (msg : string).

(** What the fetcher does that the outside world sees: requests sent and
    documents parsed, most recent first. *)
Inductive NetEvent :=
| Request (url : string) (h : CondHeader)
| Parse (url : string).

(** The module-level [feedCache] and the event log. *)
Record UState := mkUState {
  feedCache : gmap string CachedFeed.t;
  events : list NetEvent
}.

Definition logEvent (e : NetEvent) (st : UState) : UState :=
  {| feedCache := feedCache st; events := e :: events st |}.

(** [feedCache.set(url, feed)] *)
Definition cacheSet (u : string) (f : CachedFeed.t) (st : UState) : UState :=
  {| feedCache := <[u := f]> (feedCache st); events := events st |}.

Section Updater.
Context `{Platform}.

(** ** [getNewPosts] *)

(** [new Date(item.pubDate).getTime()]; a missing [pubDate] is
    [new Date(undefined)], which is [NaN]. *)
Definition itemPubDate (it : Item) : option Z :=
  match js_get "pubDate" it with
  | Some s => dateParse s
  | None => None
  end.

Definition itemToPost (it : Item) (d : Z) : Post :=
  {| title := js_get "title" it; link := js_get "link" it;
     description := js_get "description" it; pubDate := d; hashtags := None |}.

(** The [for ... of] loop: keep the items whose date is after the
    watermark; [NaN > x] is false. *)
Fixpoint collectNewPosts (lf : Z) (items : list Item) : list Post :=
  match items with
  | [] => []
  | it :: rest =>
      match itemPubDate it with
      | Some d => if lf <? d then itemToPost it d :: collectNewPosts lf rest
                  else collectNewPosts lf rest
      | None => collectNewPosts lf rest
      end
  end.

Definition getNewPosts (feed : CachedFeed.t) (sub : Subscription) : list Post :=
  let posts := sortDesc pubDate
                 (collectNewPosts (lastFetched sub) (channelItems (CachedFeed.channel feed))) in
  if Z.eqb (lastFetched sub) 0
  then firstn (Settings.postsToLoadOnNewSub Settings.defaultSettings) posts
  else posts.

(** ** [fetchSubscriptionUpdates], phase by phase *)

(** The headers: [If-None-Match] when [sub.etag] is truthy, else
    [If-Modified-Since] when [sub.lastFetched] is truthy. *)
Definition cacheHeaders (sub : Subscription) : CondHeader :=
  match etag sub with
  | Some e => if js_truthy_str (Some e) then IfNoneMatch e
              else if js_truthy_num (lastFetched sub) then IfModifiedSince (lastFetched sub)
              else NoCondition
  | None => if js_truthy_num (lastFetched sub) then IfModifiedSince (lastFetched sub)
            else NoCondition
  end.

Inductive StartResult :=
| CacheHit (feed : CachedFeed.t)
| CacheMiss (h : CondHeader).

(** The synchronous prefix, up to [await fetch(...)]. *)
Definition startFetch (cache : gmap string CachedFeed.t) (sub : Subscription) : StartResult :=
  match cache !! url sub with
  | Some f => CacheHit f
  | None => CacheMiss (cacheHeaders sub)
  end.

Inductive AfterFetch :=
| NotModified
| GotBody (etag : option string) (text : string).

(** After [await fetch(...)]: a rejected fetch throws, a 304 returns. *)
Definition onResponse (r : option Response) : result AfterFetch FetchError :=
  match r with
  | None => Err NetworkError
  | Some resp => if Z.eqb (status resp) 304 then Ok NotModified
                 else Ok (GotBody (respEtag resp) (body resp))
  end.

(** After [await resp.text()]: parse, stamp with [Date.now()]. *)
Definition onBody (now : Z) (et : option string) (text : string) : result CachedFeed.t FetchError :=
  match parseRSS (parseFromString text) with
  | Ok ch => Ok {| CachedFeed.channel := ch; CachedFeed.etag := et; CachedFeed.lastFetched := now |}
  | Err m => Err (ParseError m)
  end.

(** The synchronous tail: diff against the old watermark, then advance it. *)
Definition applyFeed (feed : CachedFeed.t) (sub : Subscription) : Update :=
  let ps := getNewPosts feed sub in
  let sub' := setFetched sub (CachedFeed.lastFetched feed) (CachedFeed.etag feed) in
  {| subscription := sub'; feedTitle := channelTitle (CachedFeed.channel feed); posts := ps |}.

Definition notModifiedUpdate (sub : Subscription) : Update :=
  {| subscription := sub; feedTitle := Some ""; posts := [] |}.

Definition fetchSubscriptionUpdates (net : Network) (now : Z) (st : UState) (sub : Subscription)
  : UState * result Update FetchError :=
  match startFetch (feedCache st) sub with
  | CacheHit f => (st, Ok (applyFeed f sub))
  | CacheMiss h =>
      let st1 := logEvent (Request (url sub) h) st in
      match onResponse (net (url sub) h) with
      | Err e => (st1, Err e)
      | Ok NotModified => (st1, Ok (notModifiedUpdate sub))
      | Ok (GotBody et text) =>
          let st2 := logEvent (Parse (url sub)) st1 in
          match onBody now et text with
          | Err e => (st2, Err e)
          | Ok f => (cacheSet (url sub) f st2, Ok (applyFeed f sub))
          end
      end
  end.
End Updater.

(** ** A concrete platform for the witnesses

    Dates are decimal numbers of days, the network serves one feed [F] of
    ten items dated day 1 to day 10 (the scenario of the spec's section 8),
    and the document text ["F-body"] is what the DOM parser turns into it. *)
Module TestPlatform.
Fixpoint decimalValue (s : string) (acc : Z) : option Z :=
  match s with
  | EmptyString => Some acc
  | String c s' =>
      let n := Z.of_nat (Ascii.nat_of_ascii c) in
      if (48 <=? n) && (n <=? 57) then decimalValue s' (acc * 10 + (n - 48)) else None
  end.

Definition dateOf (s : string) : option Z :=
  match s with EmptyString => None | _ => decimalValue s 0 end.

Definition dayItem (t d : string) : Item := [("title", t); ("pubDate", d)].

Definition tenDays : list Item := [dayItem "Post 1" "1"; dayItem "Post 2" "2"; dayItem "Post 3" "3"; dayItem "Post 4" "4"; dayItem "Post 5" "5"; dayItem "Post 6" "6"; dayItem "Post 7" "7"; dayItem "Post 8" "8"; dayItem "Post 9" "9"; dayItem "Post 10" "10"].

Definition docF : list Node := rssDoc "Feed F" tenDays.

(** The same feed later, with a post dated day 25. *)
Definition docF2 : list Node := rssDoc "Feed F" (tenDays ++ [dayItem "Post 25" "25"]).

Definition platform : Platform :=
  {| parseFromString := fun s => if String.eqb s "F-body" then docF
                                 else if String.eqb s "F-body-2" then docF2 else [];
     dateParse := dateOf |}.

Definition feedF (now : Z) : CachedFeed.t :=
  CachedFeed.mk [("items", JItems tenDays); ("title", JStr "Feed F")] (Some "v1") now.

Definition netF : Network :=
  fun u _ => if String.eqb u "F" then Some (mkResponse 200 (Some "v1") "F-body") else None.

Definition netF2 : Network :=
  fun u _ => if String.eqb u "F" then Some (mkResponse 200 (Some "v2") "F-body-2") else None.

Definition net304 : Network := fun _ _ => Some (mkResponse 304 None "").

Definition netDown : Network := fun _ _ => None.

Definition emptyState : UState := {| feedCache := ∅; events := [] |}.

Definition subF (chat lf : Z) : Subscription :=
  {| chatId := chat; url := "F"; lastFetched := lf; etag := None; refreshRate := None |}.

Definition dayPost (i : Z) (t : string) : Post :=
  {| title := Some t; link := None; description := None; pubDate := i; hashtags := None |}.
End TestPlatform.

(** ** Properties of the post differ *)

Lemma Sorted_firstn {A} (R : A -> A -> Prop) n (l : list A) : Sorted R l -> Sorted R (firstn n l).
Proof.
  revert n. induction l as [|a l IH]; intros n Hs; [by destruct n|].
  destruct n as [|n]; [constructor|]. simpl.
  inversion Hs as [|? ? Hl Hhd]; subst. constructor; [by apply IH|].
  destruct l as [|b l], n as [|n]; simpl; try constructor.
  inversion Hhd; done.
Qed.

Lemma SortedDesc_app_le {A} (key : A -> Z) l1 l2 p q :
  SortedDesc key (l1 ++ l2) -> In p l1 -> In q l2 -> key q <= key p.
Proof.
  induction l1 as [|a l1 IH]; intros Hs Hp Hq; [done|].
  destruct Hp as [->|Hp].
  - apply (SortedDesc_head_max key p (l1 ++ l2) q Hs). right. apply in_or_app. by right.
  - apply IH; [|done|done]. eapply Sorted_inv; eauto.
Qed.

#[export] Hint Resolve Sorted_firstn : telerss.

Section DifferProps.
Context `{Platform}.

Lemma collectNewPosts_In lf items p :
  In p (collectNewPosts lf items) <->
  exists it d, In it items /\ itemPubDate it = Some d /\ lf < d /\ p = itemToPost it d.
Proof.
  induction items as [|it items IH]; simpl; [split; [done|]; intros (? & ? & [] & _)|].
  destruct (itemPubDate it) as [d|] eqn:Hd; [destruct (Z.ltb_spec lf d)|]; simpl; rewrite ?IH.
  - split.
    + intros [<-|(it' & d' & ? & ? & ? & ->)]; [exists it, d; auto|exists it', d'; auto].
    + intros (it' & d' & [<-|?] & ? & ? & ->); [left; congruence|right; exists it', d'; auto].
  - split; [intros (it' & d' & ? & ? & ? & ->); exists it', d'; auto|].
    intros (it' & d' & [<-|?] & ? & ? & ->); [assert (d = d') by congruence; lia|exists it', d'; auto].
  - split; [intros (it' & d' & ? & ? & ? & ->); exists it', d'; auto|].
    intros (it' & d' & [<-|?] & ? & ? & ->); [congruence|exists it', d'; auto].
Qed.

Lemma collectNewPosts_newer lf items p : In p (collectNewPosts lf items) -> lf < pubDate p.
Proof. rewrite collectNewPosts_In. intros (it & d & _ & _ & ? & ->). done. Qed.

Lemma getNewPosts_In_candidates feed sub p :
  In p (getNewPosts feed sub) ->
  In p (collectNewPosts (lastFetched sub) (channelItems (CachedFeed.channel feed))).
Proof.
  unfold getNewPosts. intros Hp. apply sortDesc_In with (key := pubDate).
  destruct (Z.eqb (lastFetched sub) 0); [eapply firstn_In; eauto|done].
Qed.

(** C2: every post [getNewPosts] returns is strictly newer than the
    subscription's watermark; a post dated exactly at the watermark is
    never returned. *)
Theorem getNewPosts_after_watermark feed sub p :
  In p (getNewPosts feed sub) -> lastFetched sub < pubDate p.
Proof. intros Hp. eapply collectNewPosts_newer, getNewPosts_In_candidates, Hp. Qed.

(** C4: the posts come newest first. *)
Theorem getNewPosts_sorted feed sub : SortedDesc pubDate (getNewPosts feed sub).
Proof.
  unfold getNewPosts. destruct (Z.eqb (lastFetched sub) 0); [apply Sorted_firstn|]; apply sortDesc_sorted.
Qed.

(** C1: after the first fetch, [getNewPosts] is exactly a stable sort, newest
    first, of the posts of the items dated after the watermark: a list is
    such a sort if and only if it is [getNewPosts]'s result. *)
Theorem getNewPosts_refines feed sub out :
  lastFetched sub <> 0 ->
  StableSortDesc pubDate (collectNewPosts (lastFetched sub) (channelItems (CachedFeed.channel feed))) out
  <-> out = getNewPosts feed sub.
Proof.
  intros Hlf. unfold getNewPosts. rewrite (proj2 (Z.eqb_neq _ _) Hlf).
  split; [intros [Hs Hk]; apply (stable_sort_unique pubDate); [done|apply sortDesc_sorted|];
         intros k; rewrite <- Hk; apply sortDesc_sameKeyOrder|intros ->; apply sortDesc_stable].
Qed.

(** C3: on the first fetch of a subscription ([lastFetched = 0]) at most
    [postsToLoadOnNewSub] (5) posts are returned, as many as there are
    candidates up to that bound, and they are the newest ones: no candidate
    left out is newer than a post returned. *)
Theorem getNewPosts_first_fetch feed sub :
  lastFetched sub = 0 ->
  let cands := collectNewPosts (lastFetched sub) (channelItems (CachedFeed.channel feed)) in
  length (getNewPosts feed sub) = Nat.min 5 (length cands) /\
  (forall p q, In p (getNewPosts feed sub) -> In q cands -> ~ In q (getNewPosts feed sub) ->
               pubDate q <= pubDate p).
Proof.
  intros H0 cands. unfold getNewPosts. fold cands. rewrite H0, Z.eqb_refl. simpl.
  split.
  - rewrite length_firstn, (Permutation_length (sortDesc_perm pubDate cands)). done.
  - intros p q Hp Hq Hnq.
    apply (SortedDesc_app_le pubDate (firstn 5 (sortDesc pubDate cands))
             (skipn 5 (sortDesc pubDate cands))); [rewrite firstn_skipn; apply sortDesc_sorted|done|].
    apply (sortDesc_In pubDate) in Hq. rewrite <- (firstn_skipn 5) in Hq.
    apply in_app_or in Hq as [Hq|Hq]; [contradiction|done].
Qed.

(** C32: Finding: the watermark becomes the time of the fetch
    ([feed.lastFetched], [Date.now()] when it was parsed), not the date of
    the newest post.  So a post delivered by an update and dated after
    that fetch is delivered again by the next update of the subscription
    from any feed that still lists its item, the same cached feed
    included. *)
Theorem future_post_redelivered f f' sub p :
  In p (posts (applyFeed f sub)) -> CachedFeed.lastFetched f < pubDate p -> CachedFeed.lastFetched f <> 0 ->
  incl (channelItems (CachedFeed.channel f)) (channelItems (CachedFeed.channel f')) ->
  In p (posts (applyFeed f' (subscription (applyFeed f sub)))).
Proof.
  intros Hp Hd Hnz Hincl. unfold applyFeed in *. cbn [posts subscription] in *.
  apply getNewPosts_In_candidates, collectNewPosts_In in Hp as (it & d & Hit & Hdate & _ & ->).
  unfold getNewPosts. cbn [lastFetched setFetched]. rewrite (proj2 (Z.eqb_neq _ _) Hnz).
  apply (Permutation_in _ (Permutation_sym (sortDesc_perm pubDate _))).
  apply collectNewPosts_In. exists it, d. cbn in Hd. auto.
Qed.
End DifferProps.

(** ** Properties of the fetcher *)

(** A run of [fetchSubscriptionUpdates] over subscriptions one after the
    other, each finishing before the next starts: the schedule in which the
    cache de-duplicates best.  [Fanout.v] models the concurrent schedules. *)
Fixpoint fetchSeq `{Platform} (net : Network) (now : Z) (st : UState) (subs : list Subscription)
  : UState * list (result Update FetchError) :=
  match subs with
  | [] => (st, [])
  | s :: rest =>
      let '(st1, r) := fetchSubscriptionUpdates net now st s in
      let '(st2, rs) := fetchSeq net now st1 rest in
      (st2, r :: rs)
  end.

(** Events about one URL: requests ([isReq = true]) or parses. *)
Definition eventAbout (isReq : bool) (u : string) (e : NetEvent) : bool :=
  match e with
  | Request u' _ => isReq && String.eqb u' u
  | Parse u' => negb isReq && String.eqb u' u
  end.

Definition countEvents (isReq : bool) (u : string) (st : UState) : nat :=
  length (List.filter (eventAbout isReq u) (events st)).

(** Every entry of the cache was stamped at or after [t0]. *)
Definition CacheFresh (t0 : Z) (st : UState) : Prop :=
  forall u f, feedCache st !! u = Some f -> t0 <= CachedFeed.lastFetched f.

(** The network serves a parseable, modified document at [u]. *)
Definition ServesFeed `{Platform} (net : Network) (u : string) : Prop :=
  forall h, exists r ch, net u h = Some r /\ status r <> 304 /\ parseRSS (parseFromString (body r)) = Ok ch.

Section FetcherProps.
Context `{Platform}.

(** The two shapes of a fetch: a cache hit, or a miss that sends one
    request and ends in a cached feed stamped [now], a 304, or an error. *)
Lemma fetch_cases net now st sub :
  (exists f, feedCache st !! url sub = Some f /\
             fetchSubscriptionUpdates net now st sub = (st, Ok (applyFeed f sub))) \/
  (feedCache st !! url sub = None /\
   exists evs r,
     List.Forall (fun e => e = Parse (url sub)) evs /\
     match r with Ok (Some f) => CachedFeed.lastFetched f = now | _ => True end /\
     fetchSubscriptionUpdates net now st sub =
       ({| feedCache := match r with
                        | Ok (Some f) => <[url sub := f]> (feedCache st)
                        | _ => feedCache st end;
           events := evs ++ Request (url sub) (cacheHeaders sub) :: events st |},
        match r with
        | Ok (Some f) => Ok (applyFeed f sub)
        | Ok None => Ok (notModifiedUpdate sub)
        | Err e => Err e
        end)).
Proof.
  unfold fetchSubscriptionUpdates, startFetch.
  destruct (feedCache st !! url sub) as [f|] eqn:Hc; [left; eauto|right; split; [done|]].
  destruct (onResponse (net (url sub) (cacheHeaders sub))) as [[|et text]|e].
  - exists [], (Ok None). repeat constructor.
  - unfold onBody. destruct (parseRSS (parseFromString text)) as [ch|m].
    + exists [Parse (url sub)], (Ok (Some (CachedFeed.mk ch et now))). repeat constructor.
    + exists [Parse (url sub)], (Err (ParseError m)). repeat constructor.
  - exists [], (Err e). repeat constructor.
Qed.

Lemma fetch_hit_eq net now st sub f :
  feedCache st !! url sub = Some f ->
  fetchSubscriptionUpdates net now st sub = (st, Ok (applyFeed f sub)).
Proof. intros Hc. unfold fetchSubscriptionUpdates, startFetch. rewrite Hc. done. Qed.

(** C10: a subscription whose URL is already in the cache is served from it:
    no request, no parse, the state is unchanged. *)
Theorem fetch_cache_hit net now st sub f :
  feedCache st !! url sub = Some f ->
  fetchSubscriptionUpdates net now st sub = (st, Ok (applyFeed f sub)).
Proof. apply fetch_hit_eq. Qed.

(** C8: on a cache miss answered by 304 Not Modified, the update carries the
    subscription unchanged (watermark and validator) and no posts, and
    nothing is cached. *)
Theorem fetch_not_modified net now st sub r :
  feedCache st !! url sub = None ->
  net (url sub) (cacheHeaders sub) = Some r -> status r = 304 ->
  fetchSubscriptionUpdates net now st sub =
    (logEvent (Request (url sub) (cacheHeaders sub)) st, Ok (notModifiedUpdate sub)).
Proof.
  intros Hc Hn Hs. unfold fetchSubscriptionUpdates, startFetch, onResponse.
  rewrite Hc, Hn, Hs. done.
Qed.

(** C9: a failed fetch or parse leaves the cache as it was, so it cannot
    poison the URL for other subscriptions. *)
Theorem fetch_error_keeps_cache net now st sub st' e :
  fetchSubscriptionUpdates net now st sub = (st', Err e) -> feedCache st' = feedCache st.
Proof.
  destruct (fetch_cases net now st sub) as [(f & _ & ->)|(_ & evs & r & _ & _ & ->)]; [congruence|].
  destruct r as [[f|]|e']; intros [= <- _]; done.
Qed.

Lemma fetch_miss_eq net now st sub r ch :
  feedCache st !! url sub = None ->
  net (url sub) (cacheHeaders sub) = Some r -> status r <> 304 ->
  parseRSS (parseFromString (body r)) = Ok ch ->
  let f := CachedFeed.mk ch (respEtag r) now in
  fetchSubscriptionUpdates net now st sub =
    (cacheSet (url sub) f (logEvent (Parse (url sub)) (logEvent (Request (url sub) (cacheHeaders sub)) st)),
     Ok {| subscription := setFetched sub now (respEtag r);
           feedTitle := channelTitle ch; posts := getNewPosts f sub |}).
Proof.
  intros Hc Hn Hs Hp f. unfold fetchSubscriptionUpdates, startFetch, onResponse, onBody.
  rewrite Hc, Hn, (proj2 (Z.eqb_neq _ _) Hs), Hp. done.
Qed.


(** C11: on a cache miss answered by a parseable document, the feed is
    cached stamped [now] with the response's validator, and the
    subscription's watermark and validator become those. *)
Theorem fetch_miss_success net now st sub r ch :
  feedCache st !! url sub = None ->
  net (url sub) (cacheHeaders sub) = Some r -> status r <> 304 ->
  parseRSS (parseFromString (body r)) = Ok ch ->
  let f := CachedFeed.mk ch (respEtag r) now in
  fetchSubscriptionUpdates net now st sub =
    (cacheSet (url sub) f (logEvent (Parse (url sub)) (logEvent (Request (url sub) (cacheHeaders sub)) st)),
     Ok {| subscription := setFetched sub now (respEtag r);
           feedTitle := channelTitle ch; posts := getNewPosts f sub |}).
Proof. apply fetch_miss_eq. Qed.

(** Entries are never replaced: a miss only fills an absent key. *)
Lemma fetch_keeps_entries net now st sub st' r u f :
  fetchSubscriptionUpdates net now st sub = (st', r) ->
  feedCache st !! u = Some f -> feedCache st' !! u = Some f.
Proof.
  destruct (fetch_cases net now st sub) as [(f' & _ & ->)|(Hmiss & evs & r' & _ & _ & ->)];
    intros [= <- _] Hu; [done|].
  destruct r' as [[f'|]|e]; cbn [feedCache]; [|done|done].
  rewrite lookup_insert_ne; [done|]. intros <-. congruence.
Qed.

(** C12: with every cache entry stamped at or after [t0] and the clock at or
    after [t0], a fetch keeps the cache so, and a subscription whose
    watermark is at most [t0] never sees it move backwards. *)
Theorem fetch_watermark_monotone net now t0 st sub st' r :
  CacheFresh t0 st -> lastFetched sub <= t0 -> t0 <= now ->
  fetchSubscriptionUpdates net now st sub = (st', r) ->
  CacheFresh t0 st' /\
  (forall u, r = Ok u -> lastFetched sub <= lastFetched (subscription u)).
Proof.
  intros Hfresh Hsub Hnow.
  destruct (fetch_cases net now st sub) as [(f & Hf & ->)|(_ & evs & r' & _ & Hr' & ->)];
    intros [= <- <-].
  - split; [done|]. intros u [= <-]. simpl. specialize (Hfresh _ _ Hf). lia.
  - destruct r' as [[f|]|e]; (split; [|intros u [= <-]; cbn [subscription applyFeed
      notModifiedUpdate setFetched lastFetched]]); try lia; try done.
    intros u' f'. cbn [feedCache]. rewrite lookup_insert.
    case_decide; [intros [= <-]; lia|apply Hfresh].
Qed.

Lemma countEvents_parses b u v evs :
  List.Forall (fun e => e = Parse v) evs -> v <> u -> List.filter (eventAbout b u) evs = [].
Proof.
  induction 1 as [|e evs -> _ IH]; intros Hne; [done|]. simpl.
  destruct (String.eqb_spec v u); [congruence|]. rewrite andb_false_r. by apply IH.
Qed.

(** A fetch for another URL neither adds events about [u] nor touches its
    cache entry. *)
Lemma fetch_other_url b u net now st sub st' r :
  url sub <> u -> fetchSubscriptionUpdates net now st sub = (st', r) ->
  countEvents b u st' = countEvents b u st /\ feedCache st' !! u = feedCache st !! u.
Proof.
  intros Hne.
  destruct (fetch_cases net now st sub) as [(f & _ & ->)|(_ & evs & r' & Hevs & _ & ->)];
    intros [= <- _]; [done|].
  split.
  - unfold countEvents. cbn [events]. rewrite List.filter_app, length_app.
    rewrite (countEvents_parses b u (url sub) evs) by done. simpl.
    destruct (String.eqb_spec (url sub) u); [congruence|]. rewrite andb_false_r. done.
  - destruct r' as [[f|]|e]; cbn [feedCache]; [|done|done]. by rewrite lookup_insert_ne.
Qed.

(** A fetch for [u] on a miss, when [u] serves a feed, sends one request,
    parses once and fills the cache. *)
Lemma fetch_serves_fills b u net now st sub st' r :
  url sub = u -> ServesFeed net u -> feedCache st !! u = None ->
  fetchSubscriptionUpdates net now st sub = (st', r) ->
  countEvents b u st' = S (countEvents b u st) /\ is_Some (feedCache st' !! u).
Proof.
  intros <- Hserve Hmiss. destruct (Hserve (cacheHeaders sub)) as (resp & ch & Hn & Hs & Hp).
  rewrite (fetch_miss_eq net now st sub resp ch Hmiss Hn Hs Hp). intros [= <- _].
  split; [|cbn [cacheSet feedCache]; rewrite lookup_insert_eq; eauto].
  unfold countEvents. cbn [events cacheSet logEvent]. simpl.
  rewrite String.eqb_refl. destruct b; simpl; done.
Qed.

(** C5: in a sequential run over any subscriptions, a feed URL that serves
    a document is requested and parsed exactly once if it was not cached
    and some subscription has it, and never otherwise ([b = true] counts
    requests, [b = false] parses). *)
Theorem fetchSeq_dedup b u net now st subs :
  ServesFeed net u ->
  countEvents b u (fst (fetchSeq net now st subs)) =
  (countEvents b u st +
   match feedCache st !! u with
   | Some _ => 0
   | None => if existsb (fun s => String.eqb (url s) u) subs then 1 else 0
   end)%nat.
Proof.
  intros Hserve. revert st. induction subs as [|s rest IH]; intros st.
  - simpl. destruct (feedCache st !! u); lia.
  - cbn [fetchSeq]. destruct (fetchSubscriptionUpdates net now st s) as [st1 r] eqn:E.
    destruct (fetchSeq net now st1 rest) as [st2 rs] eqn:E2. cbn [fst].
    specialize (IH st1). rewrite E2 in IH. cbn [fst] in IH. rewrite IH. simpl existsb.
    destruct (String.eqb_spec (url s) u) as [Hu|Hu].
    + destruct (feedCache st !! u) as [f|] eqn:Hc.
      * rewrite <- Hu in Hc. rewrite (fetch_hit_eq net now st s f Hc) in E.
        injection E as <- _. rewrite <- Hu in *. rewrite Hc. lia.
      * destruct (fetch_serves_fills b u net now st s st1 r Hu Hserve Hc E) as [-> [f Hf]].
        rewrite Hf. simpl. lia.
    + destruct (fetch_other_url b u net now st s st1 r Hu E) as [-> ->]. done.
Qed.
End FetcherProps.

Module UpdaterExamples.
Import TestPlatform.

(** The spec's first-fetch scenario: a never-fetched subscription to
    a feed of ten items dated day 1 to day 10 gets the posts of days 10,
    9, 8, 7 and 6, in that order. *)
Example tenDays_first_fetch_scenario :
  @getNewPosts platform (feedF 20) (subF 1 0) =
  [dayPost 10 "Post 10"; dayPost 9 "Post 9"; dayPost 8 "Post 8"; dayPost 7 "Post 7"; dayPost 6 "Post 6"].
Proof. vm_compute. reflexivity. Qed.

Lemma getNewPosts_after_watermark_witness :
  In (dayPost 10 "Post 10") (@getNewPosts platform (feedF 20) (subF 1 7)) /\
  lastFetched (subF 1 7) < pubDate (dayPost 10 "Post 10").
Proof.
  assert (Hin : In (dayPost 10 "Post 10") (@getNewPosts platform (feedF 20) (subF 1 7)))
    by (vm_compute; left; reflexivity).
  split; [exact Hin|exact (@getNewPosts_after_watermark platform _ _ _ Hin)].
Defined.

Lemma getNewPosts_refines_witness :
  lastFetched (subF 1 7) <> 0 /\
  (StableSortDesc pubDate
     (@collectNewPosts platform 7 tenDays) [dayPost 10 "Post 10"; dayPost 9 "Post 9"; dayPost 8 "Post 8"]
   <-> [dayPost 10 "Post 10"; dayPost 9 "Post 9"; dayPost 8 "Post 8"] =
       @getNewPosts platform (feedF 20) (subF 1 7)).
Proof.
  assert (H7 : lastFetched (subF 1 7) <> 0) by discriminate.
  split; [exact H7|exact (@getNewPosts_refines platform (feedF 20) (subF 1 7) _ H7)].
Defined.

Lemma getNewPosts_first_fetch_witness :
  lastFetched (subF 1 0) = 0 /\ length (@getNewPosts platform (feedF 20) (subF 1 0)) = 5%nat.
Proof.
  split; [reflexivity|].
  destruct (@getNewPosts_first_fetch platform (feedF 20) (subF 1 0) eq_refl) as [Hlen _].
  rewrite Hlen. vm_compute. reflexivity.
Defined.

Definition stF : UState := {| feedCache := <["F" := feedF 5]> ∅; events := [] |}.

Lemma fetch_cache_hit_witness :
  feedCache stF !! "F" = Some (feedF 5) /\
  @fetchSubscriptionUpdates platform netDown 9 stF (subF 2 0) =
    (stF, Ok (@applyFeed platform (feedF 5) (subF 2 0))).
Proof.
  assert (Hc : feedCache stF !! url (subF 2 0) = Some (feedF 5)) by reflexivity.
  split; [exact Hc|exact (@fetch_cache_hit platform netDown 9 stF (subF 2 0) _ Hc)].
Defined.

Lemma fetch_not_modified_witness :
  feedCache emptyState !! "F" = None /\
  @fetchSubscriptionUpdates platform net304 9 emptyState (subF 2 4) =
    (logEvent (Request "F" (IfModifiedSince 4)) emptyState, Ok (notModifiedUpdate (subF 2 4))).
Proof.
  assert (Hc : feedCache emptyState !! url (subF 2 4) = None) by reflexivity.
  split; [exact Hc|].
  exact (@fetch_not_modified platform net304 9 emptyState (subF 2 4) (mkResponse 304 None "")
           Hc eq_refl eq_refl).
Defined.

Lemma fetch_error_keeps_cache_witness :
  @fetchSubscriptionUpdates platform netDown 9 emptyState (subF 2 0) =
    (logEvent (Request "F" NoCondition) emptyState, Err NetworkError) /\
  feedCache (logEvent (Request "F" NoCondition) emptyState) = feedCache emptyState.
Proof.
  assert (E : @fetchSubscriptionUpdates platform netDown 9 emptyState (subF 2 0) =
                (logEvent (Request "F" NoCondition) emptyState, Err NetworkError)) by reflexivity.
  split; [exact E|exact (@fetch_error_keeps_cache platform _ _ _ _ _ _ E)].
Defined.

Lemma fetch_miss_success_witness :
  parseRSS (@parseFromString platform "F-body") = Ok [("items", JItems tenDays); ("title", JStr "Feed F")] /\
  @fetchSubscriptionUpdates platform netF 9 emptyState (subF 2 0) =
    (cacheSet "F" (feedF 9) (logEvent (Parse "F") (logEvent (Request "F" NoCondition) emptyState)),
     Ok {| subscription := setFetched (subF 2 0) 9 (Some "v1");
           feedTitle := Some "Feed F"; posts := @getNewPosts platform (feedF 9) (subF 2 0) |}).
Proof.
  assert (Hp : parseRSS (@parseFromString platform "F-body") =
               Ok [("items", JItems tenDays); ("title", JStr "Feed F")]) by (vm_compute; reflexivity).
  split; [exact Hp|].
  exact (@fetch_miss_success platform netF 9 emptyState (subF 2 0) (mkResponse 200 (Some "v1") "F-body")
           _ eq_refl eq_refl ltac:(discriminate) Hp).
Defined.

Lemma emptyState_fresh t0 : CacheFresh t0 emptyState.
Proof. intros u f H. unfold emptyState in H. cbn [feedCache] in H. rewrite lookup_empty in H. discriminate. Qed.

Lemma fetch_watermark_monotone_witness :
  lastFetched (subF 1 3) <= 5 /\
  CacheFresh 5 (cacheSet "F" (feedF 9) (logEvent (Parse "F") (logEvent (Request "F" (IfModifiedSince 3)) emptyState))) /\
  lastFetched (subF 1 3) <= lastFetched (subscription (@applyFeed platform (feedF 9) (subF 1 3))).
Proof.
  assert (E : @fetchSubscriptionUpdates platform netF 9 emptyState (subF 1 3) =
              (cacheSet "F" (feedF 9) (logEvent (Parse "F") (logEvent (Request "F" (IfModifiedSince 3)) emptyState)),
               Ok (@applyFeed platform (feedF 9) (subF 1 3)))) by (vm_compute; reflexivity).
  destruct (@fetch_watermark_monotone platform netF 9 5 emptyState (subF 1 3) _ _
              (emptyState_fresh 5) ltac:(simpl; lia) ltac:(lia) E) as [Hf Hw].
  split; [simpl; lia|split; [exact Hf|exact (Hw _ eq_refl)]].
Defined.

Lemma netF_serves : @ServesFeed platform netF "F".
Proof.
  intros h. exists (mkResponse 200 (Some "v1") "F-body"), [("items", JItems tenDays); ("title", JStr "Feed F")].
  split; [reflexivity|split; [discriminate|vm_compute; reflexivity]].
Qed.

Lemma fetchSeq_dedup_witness :
  countEvents true "F" (fst (@fetchSeq platform netF 9 emptyState [subF 1 0; subF 2 0; subF 3 5])) = 1%nat.
Proof.
  rewrite (@fetchSeq_dedup platform true "F" netF 9 emptyState _ netF_serves). reflexivity.
Defined.

(** Finding: [feedCache] is a module-level constant that no code clears,
    so it outlives a run.  A second run in the same worker, at time 30,
    when the feed now has a post dated 25, serves the entry cached by the
    first run at time 20: the new post is not delivered, whereas a run
    starting from an empty cache delivers it. *)
Theorem feed_cache_outlives_run :
  let '(st1, rs1) := @fetchSeq platform netF 20 emptyState [subF 1 0] in
  match rs1 with
  | [Ok u1] =>
      lastFetched (subscription u1) = 20 /\
      (let '(_, rs2) := @fetchSeq platform netF2 30 st1 [subscription u1] in
       map (fun r => match r with Ok u => posts u | Err _ => [] end) rs2 = [[]]) /\
      (let '(_, rs2) := @fetchSeq platform netF2 30 emptyState [subscription u1] in
       map (fun r => match r with Ok u => posts u | Err _ => [] end) rs2 = [[dayPost 25 "Post 25"]])
  | _ => False
  end.
Proof. vm_compute. repeat split. Qed.

(** The run of the finding: a post dated day 25, fetched at day 20,
    passes the filter again on the next run (day 22, fresh cache) and is
    delivered twice. *)
Example future_post_redelivered_run :
  let '(_, rs1) := @fetchSeq platform netF2 20 emptyState [subF 1 15] in
  match rs1 with
  | [Ok u1] =>
      posts u1 = [dayPost 25 "Post 25"] /\
      (let '(_, rs2) := @fetchSeq platform netF2 22 emptyState [subscription u1] in
       map (fun r => match r with Ok u => posts u | Err _ => [] end) rs2 = [[dayPost 25 "Post 25"]])
  | _ => False
  end.
Proof. vm_compute. split; reflexivity. Qed.
(** Feed F at day 20, with the post of day 25. *)
Definition feedF2 : CachedFeed.t :=
  CachedFeed.mk [("items", JItems (tenDays ++ [dayItem "Post 25" "25"])); ("title", JStr "Feed F")] (Some "v2") 20.

Lemma future_post_redelivered_witness :
  In (dayPost 25 "Post 25") (posts (@applyFeed platform feedF2 (@subscription (@applyFeed platform feedF2 (subF 1 15))))).
Proof.
  apply (@future_post_redelivered platform feedF2 feedF2 (subF 1 15) (dayPost 25 "Post 25"));
    [vm_compute; left; reflexivity|vm_compute; reflexivity|discriminate|apply incl_refl].
Defined.
End UpdaterExamples.
