(* ===== verification/Store.v ===== *)
(** * The subscriber store: [UserStore] of [src/src/store.ts]

    The Cloudflare KV namespace is a finite map from key strings to stored
    users ([KV]).  A user is stored under [`user:${id}`] ([userKey]) as
    [JSON.stringify(user)] and read back with [JSON.parse]; the records of
    [Model.v] hold only JSON-representable data ([undefined] and [null] both
    read back as absent or [null], which the model does not distinguish), so
    the stored value is the record itself.

    Each method is a function of the store, with the thrown [Error]s as
    [Err] messages.  The store's invariant, [StoreWf], is that every user is
    kept under its own key and has no two subscriptions with the same URL;
    every method preserves it.  [updateSubscriptions] is the merge-back of
    the spec's section 4.6. *)

From stdpp Require Import base list strings gmap pretty.
From Stdlib Require Import ZArith.
From S2P Require Import Prelude Model.

Open Scope Z_scope.

Abbreviation KV := (gmap string User).

(** [`user:${userId}`] *)
Definition userKey (userId : Z) : string := String.append "user:" (pretty userId).

(** [set(user)]: [kv.put(`user:${user.id}`, JSON.stringify(user))] *)
Definition set (u : User) (kv : KV) : KV := <[userKey (id u) := u]> kv.

(** [get(userId)] *)
Definition get (userId : Z) (kv : KV) : option User := kv !! userKey userId.

Definition addUser (userId : Z) (kv : KV) : KV := set (newUser userId) kv.

Definition hasUrl (u : string) (s : Subscription) : bool := String.eqb (url s) u.

(** [await this.get(userId) || newUser(userId)] *)
Definition getOrNew (userId : Z) (kv : KV) : User :=
  match get userId kv with Some u => u | None => newUser userId end.

Definition addSubscription (userId chatId : Z) (u : string) (kv : KV) : result KV string :=
  let user := getOrNew userId kv in
  if existsb (hasUrl u) (subscriptions user)
  then Err "You are already subscribed to this feed in one of the chats."
  else Ok (set (setSubscriptions user (subscriptions user ++ [newSubscription chatId u])) kv).

Definition deleteSubscription (userId : Z) (u : string) (kv : KV) : result KV string :=
  let user := getOrNew userId kv in
  if negb (existsb (hasUrl u) (subscriptions user))
  then Err "You are not subscribed to this feed."
  else Ok (set (setSubscriptions user (List.filter (fun s => negb (hasUrl u s)) (subscriptions user))) kv).

Definition deleteAllSubscriptionsInChat (userId chatId : Z) (kv : KV) : KV :=
  let user := getOrNew userId kv in
  set (setSubscriptions user (List.filter (fun s => negb (Z.eqb (Model.chatId s) chatId))
                                            (subscriptions user))) kv.

Definition getChatSubscriptions (userId chatId : Z) (kv : KV) : result (list Subscription) string :=
  match get userId kv with
  | None => Err "User not found."
  | Some user => Ok (List.filter (fun s => Z.eqb (Model.chatId s) chatId) (subscriptions user))
  end.

(** The [map] callback of [updateSubscriptions]: the first updated
    subscription with the same URL, or the subscription itself. *)
Definition mergeSub (updated : list Subscription) (s : Subscription) : Subscription :=
  match List.find (hasUrl (url s)) updated with
  | Some s' => s'
  | None => s
  end.

Definition mergeSubscriptions (subs updated : list Subscription) : list Subscription :=
  map (mergeSub updated) subs.

(** [updateSubscriptions(user, updatedSubscriptions)]: merge, then one write. *)
Definition updateSubscriptions (user : User) (updated : list Subscription) (kv : KV) : KV :=
  set (setSubscriptions user (mergeSubscriptions (subscriptions user) updated)) kv.

(** ** The store invariant *)

(** Every user is stored under its own key and has at most one subscription
    per feed URL. *)
Definition UniqueUrls (u : User) : Prop := NoDup (map url (subscriptions u)).

Definition StoreWf (kv : KV) : Prop :=
  forall k u, kv !! k = Some u -> k = userKey (id u) /\ UniqueUrls u.

Lemma userKey_inj a b : userKey a = userKey b -> a = b.
Proof. unfold userKey. intros H. apply (inj (String.append "user:")) in H. by apply (inj pretty). Qed.

Lemma hasUrl_true u s : hasUrl u s = true <-> url s = u.
Proof. unfold hasUrl. apply String.eqb_eq. Qed.

Lemma existsb_hasUrl u subs : existsb (hasUrl u) subs = true <-> In u (map url subs).
Proof.
  rewrite existsb_exists, in_map_iff. split.
  - intros (s & Hs & Hu%hasUrl_true). eauto.
  - intros (s & Hu & Hs). exists s. split; [done|by apply hasUrl_true].
Qed.

Lemma NoDup_map_filter {A B} (f : A -> B) (p : A -> bool) (l : list A) :
  NoDup (map f l) -> NoDup (map f (List.filter p l)).
Proof.
  induction l as [|a l IH]; simpl; [done|]. intros Hnd.
  apply NoDup_cons in Hnd as [Hna Hnd].
  destruct (p a); simpl; [|by apply IH].
  constructor; [|by apply IH].
  intros Hin. apply Hna. apply list_elem_of_In in Hin. apply list_elem_of_In.
  apply in_map_iff in Hin as (x & <- & Hx). apply filter_In in Hx as [Hx _].
  apply in_map. done.
Qed.

Lemma set_wf u kv : StoreWf kv -> UniqueUrls u -> StoreWf (set u kv).
Proof.
  intros Hwf Hu k v. unfold set. rewrite lookup_insert. case_decide as Hk.
  - intros [= <-]. subst. done.
  - apply Hwf.
Qed.

Lemma getOrNew_wf userId kv :
  StoreWf kv -> id (getOrNew userId kv) = userId /\ UniqueUrls (getOrNew userId kv).
Proof.
  intros Hwf. unfold getOrNew, get.
  destruct (kv !! userKey userId) as [u|] eqn:Hg.
  - destruct (Hwf _ _ Hg) as [Hk Hu]. split; [|done]. symmetry. by apply userKey_inj.
  - split; [done|constructor].
Qed.

Lemma mergeSub_url updated s : url (mergeSub updated s) = url s.
Proof.
  unfold mergeSub. destruct (List.find (hasUrl (url s)) updated) as [s'|] eqn:Hf; [|done].
  apply find_some in Hf as [_ Hf]. by apply hasUrl_true.
Qed.

Lemma mergeSubscriptions_urls subs updated :
  map url (mergeSubscriptions subs updated) = map url subs.
Proof. unfold mergeSubscriptions. rewrite map_map. apply map_ext. apply mergeSub_url. Qed.

Lemma mergeSub_idem updated s : mergeSub updated (mergeSub updated s) = mergeSub updated s.
Proof.
  unfold mergeSub at 1. rewrite mergeSub_url. unfold mergeSub.
  destruct (List.find (hasUrl (url s)) updated); done.
Qed.

#[export] Hint Resolve set_wf : telerss.
#[export] Hint Rewrite mergeSub_url mergeSubscriptions_urls mergeSub_idem : telerss.

(** C18: every method of [UserStore] that writes keeps the store invariant:
    users stay under their own key and no user gets two subscriptions to the
    same URL ([addSubscription]'s duplicate check is what keeps it). *)
Theorem store_ops_preserve_wf kv :
  StoreWf kv ->
  (forall userId, StoreWf (addUser userId kv)) /\
  (forall userId chatId u kv', addSubscription userId chatId u kv = Ok kv' -> StoreWf kv') /\
  (forall userId u kv', deleteSubscription userId u kv = Ok kv' -> StoreWf kv') /\
  (forall userId chatId, StoreWf (deleteAllSubscriptionsInChat userId chatId kv)) /\
  (forall user updated, UniqueUrls user -> StoreWf (updateSubscriptions user updated kv)).
Proof.
  intros Hwf. split; [|split; [|split; [|split]]].
  - intros userId. apply set_wf; [done|constructor].
  - intros userId chatId u kv'. unfold addSubscription.
    destruct (existsb (hasUrl u) _) eqn:He; [done|]. intros [= <-].
    apply set_wf; [done|]. unfold UniqueUrls. simpl. rewrite map_app. simpl.
    apply NoDup_app. destruct (getOrNew_wf userId kv Hwf) as [_ Hu].
    split; [done|split; [|repeat constructor; set_solver]].
    intros x Hx Hx'. apply list_elem_of_singleton in Hx' as ->.
    apply list_elem_of_In, existsb_hasUrl in Hx. congruence.
  - intros userId u kv' Hdel. unfold deleteSubscription in Hdel.
    repeat case_match; simplify_eq. apply set_wf; [done|].
    apply NoDup_map_filter, (getOrNew_wf userId kv Hwf).
  - intros userId chatId. apply set_wf; [done|].
    apply NoDup_map_filter, (getOrNew_wf userId kv Hwf).
  - intros user updated Hu. apply set_wf; [done|].
    unfold UniqueUrls. simpl. by rewrite mergeSubscriptions_urls.
Qed.

(** ** Merge-back *)

Lemma find_hasUrl_unique (updated : list Subscription) s' u :
  NoDup (map url updated) -> In s' updated -> url s' = u -> List.find (hasUrl u) updated = Some s'.
Proof.
  induction updated as [|x updated IH]; intros Hnd Hin Hu; [done|].
  simpl in Hnd. apply NoDup_cons in Hnd as [Hx Hnd]. simpl.
  destruct (hasUrl u x) eqn:Hh.
  - apply hasUrl_true in Hh. destruct Hin as [->|Hin]; [done|].
    exfalso. apply Hx, list_elem_of_In, in_map_iff. exists s'. split; [congruence|done].
  - destruct Hin as [->|Hin]; [apply not_true_iff_false in Hh; destruct Hh; by apply hasUrl_true|].
    by apply IH.
Qed.

Lemma find_hasUrl_none (updated : list Subscription) u :
  (forall s', In s' updated -> url s' <> u) -> List.find (hasUrl u) updated = None.
Proof.
  intros H. destruct (List.find (hasUrl u) updated) as [s'|] eqn:Hf; [|done].
  apply find_some in Hf as [Hin Hh]. apply hasUrl_true in Hh. exfalso. by apply (H s').
Qed.

(** C15: merge-back replaces each subscription of the user by the updated
    subscription with the same URL when there is one (the updated set having
    one per URL), and keeps it unchanged otherwise; positions and URLs are
    kept. *)
Theorem mergeSubscriptions_spec subs updated i s :
  NoDup (map url updated) -> nth_error subs i = Some s ->
  (forall s', In s' updated -> url s' = url s -> nth_error (mergeSubscriptions subs updated) i = Some s') /\
  ((forall s', In s' updated -> url s' <> url s) -> nth_error (mergeSubscriptions subs updated) i = Some s) /\
  map url (mergeSubscriptions subs updated) = map url subs.
Proof.
  intros Hnd Hi. unfold mergeSubscriptions at 1 2. rewrite !nth_error_map, Hi. simpl. unfold mergeSub.
  split; [|split; [|apply mergeSubscriptions_urls]].
  - intros s' Hin Hu. by rewrite (find_hasUrl_unique updated s' (url s)).
  - intros Hnone. by rewrite find_hasUrl_none.
Qed.

(** C14: merge-back is idempotent: reconciling the user, as updated in place by
    a first [updateSubscriptions], with the same updated set again writes
    the same store. *)
Theorem updateSubscriptions_idempotent user updated kv :
  let user1 := setSubscriptions user (mergeSubscriptions (subscriptions user) updated) in
  updateSubscriptions user1 updated (updateSubscriptions user updated kv) =
  updateSubscriptions user updated kv.
Proof.
  intros user1. unfold updateSubscriptions, set, user1. cbn [id setSubscriptions subscriptions].
  unfold mergeSubscriptions. rewrite map_map, (map_ext _ _ (mergeSub_idem updated)).
  apply insert_insert_eq.
Qed.

(** C19: [addSubscription] fails exactly when the user already has a
    subscription to the URL, with the code's message; otherwise it stores
    the user (a new one if there was none) with the new, never-fetched
    subscription appended, and no other user changes. *)
Theorem addSubscription_spec userId chatId u kv :
  StoreWf kv ->
  match addSubscription userId chatId u kv with
  | Err m => m = "You are already subscribed to this feed in one of the chats." /\
             In u (map url (subscriptions (getOrNew userId kv)))
  | Ok kv' => ~ In u (map url (subscriptions (getOrNew userId kv))) /\
              get userId kv' = Some (setSubscriptions (getOrNew userId kv)
                                       (subscriptions (getOrNew userId kv) ++ [newSubscription chatId u])) /\
              (forall other, other <> userId -> get other kv' = get other kv)
  end.
Proof.
  intros Hwf. destruct (getOrNew_wf userId kv Hwf) as [Hid _].
  unfold addSubscription. destruct (existsb (hasUrl u) _) eqn:He.
  - split; [done|by apply existsb_hasUrl].
  - split; [intros Hin%existsb_hasUrl; congruence|]. unfold get, set. cbn [id setSubscriptions].
    rewrite Hid. split; [apply lookup_insert_eq|].
    intros other Hne. apply lookup_insert_ne. intros Hk. by apply Hne, userKey_inj.
Qed.

(** Spec gap: [deleteAllSubscriptionsInChat] for a user with no record
    writes a new, empty user record. *)
Theorem deleteAll_creates_user :
  get 7 (deleteAllSubscriptionsInChat 7 1 ∅) = Some (newUser 7).
Proof. reflexivity. Qed.

Module StoreExamples.
Lemma empty_wf : StoreWf ∅.
Proof. intros k u H. rewrite lookup_empty in H. discriminate. Qed.

Definition s1 : Subscription := newSubscription 1 "A".
Definition s2 : Subscription := newSubscription 1 "B".
Definition s2' : Subscription := setFetched s2 50 (Some "e").

Lemma store_ops_preserve_wf_witness :
  StoreWf ∅ /\ StoreWf (addUser 3 ∅).
Proof. split; [exact empty_wf|exact (proj1 (store_ops_preserve_wf ∅ empty_wf) 3)]. Defined.

Lemma mergeSubscriptions_spec_witness :
  NoDup (map url [s2']) /\ nth_error [s1; s2] 1 = Some s2 /\
  nth_error (mergeSubscriptions [s1; s2] [s2']) 1 = Some s2'.
Proof.
  assert (Hnd : NoDup (map url [s2'])) by (repeat constructor; set_solver).
  split; [exact Hnd|split; [reflexivity|]].
  destruct (mergeSubscriptions_spec [s1; s2] [s2'] 1 s2 Hnd eq_refl) as [Hrep _].
  apply Hrep; [left; reflexivity|reflexivity].
Defined.

Lemma addSubscription_spec_witness :
  StoreWf ∅ /\ get 3 (match addSubscription 3 1 "A" ∅ with Ok kv => kv | Err _ => ∅ end) =
               Some (setSubscriptions (newUser 3) [newSubscription 1 "A"]).
Proof.
  split; [exact empty_wf|].
  pose proof (addSubscription_spec 3 1 "A" ∅ empty_wf) as H.
  destruct (addSubscription 3 1 "A" ∅) as [kv|m]; [|destruct H as [_ []]].
  destruct H as (_ & Hget & _). exact Hget.
Defined.
End StoreExamples.
