(* ===== verification/Fanout.v ===== *)
(** * Fan-out and merge-back: [updateUserSubscriptions] of [src/src/bot.ts]

    [updateUserSubscriptions(user, chatId?)] starts one async task per
    subscription ([Promise.allSettled(subscriptions.map(...))]); each runs
    [fetchSubscriptionUpdates] and, when there are new posts, sends each of
    them ([sendRichMessage]) and waits for all the sends to settle.  The
    fulfilled updates with posts are then merged back with
    [store.updateSubscriptions] and the user is written once.

    Two things of the JS semantics matter here and are modelled as such.

    - Aliasing.  [fetchSubscriptionUpdates] mutates the subscription object
      it is given, and that object is the one in [user.subscriptions]
      ([filter] copies the array, not the objects).  Subscription objects
      live in a heap ([gmap nat Subscription]); a user in memory holds
      references ([UserObj]); writing the user serialises the objects as they
      are at that moment ([derefUser]).

    - Interleaving.  A task suspends at [await fetch(...)], at
      [await resp.text()] and while its sends are pending; between these
      points it runs the code of [Updater.v]'s phases without interruption.
      [step] is the transition relation of a configuration of tasks sharing
      the feed cache and the heap: any task that is not finished may take its
      next step.  This includes every schedule the JS event loop can produce
      for the tasks of one user, and for the tasks of the users of one page
      of [fetchAll], which run concurrently too.

    The delivery outcomes are not part of the state: [allSettled] discards
    them, so a failed send changes nothing but the log. *)

From stdpp Require Import base list strings gmap.
From Stdlib Require Import ZArith.
From S2P Require Import Prelude Model Rss Updater Store.

Open Scope Z_scope.

Abbreviation Heap := (gmap nat Subscription).

(** A [User] as an object in memory: its subscriptions are references. *)
Record UserObj := mkUserObj {
  uoId : Z;
  uoSubs : list nat;
  uoDefaultRefreshRate : option Z;
  uoPostsToLoadOnNewSub : option Z
}.

(** The object at a reference; references of a run are always allocated. *)
Definition subAt (h : Heap) (l : nat) : Subscription :=
  match h !! l with Some s => s | None => newSubscription 0 "" end.

(** [JSON.stringify(user)] read back: the user with its objects' current
    contents. *)
Definition derefUser (h : Heap) (uo : UserObj) : User :=
  {| id := uoId uo; subscriptions := map (subAt h) (uoSubs uo);
     defaultRefreshRate := uoDefaultRefreshRate uo; postsToLoadOnNewSub := uoPostsToLoadOnNewSub uo |}.

(** An attempted delivery: [sendRichMessage(subscription.chatId,
    renderPost(post, update.feedTitle))]. *)
Record Delivery := mkDelivery {
  dChat : Z;
  dFeedTitle : option string;
  dPost : Post
}.

(** The state of one task, at its suspension points. *)
Inductive Task :=
| TStart (l : nat)
| TFetching (l : nat) (h : CondHeader)
| TReading (l : nat) (et : option string) (text : string)
| TSending (l : nat) (u : Update)
| TDone (l : nat) (r : result Update FetchError).

Definition taskLoc (t : Task) : nat :=
  match t with
  | TStart l | TFetching l _ | TReading l _ _ | TSending l _ | TDone l _ => l
  end.

Record Config := mkConfig {
  cfCache : gmap string CachedFeed.t;
  cfHeap : Heap;
  cfEvents : list NetEvent;
  cfSends : list Delivery;
  cfClock : Z;
  cfTasks : list Task
}.

Section Steps.
Context `{Platform} (net : Network).

Definition setTask (c : Config) (i : nat) (t : Task) : Config :=
  {| cfCache := cfCache c; cfHeap := cfHeap c; cfEvents := cfEvents c; cfSends := cfSends c;
     cfClock := cfClock c; cfTasks := <[i := t]> (cfTasks c) |}.

Definition logEv (c : Config) (e : NetEvent) : Config :=
  {| cfCache := cfCache c; cfHeap := cfHeap c; cfEvents := e :: cfEvents c; cfSends := cfSends c;
     cfClock := cfClock c; cfTasks := cfTasks c |}.

(** The end of [fetchSubscriptionUpdates] with a feed in hand, then the
    task's own code: mutate the object, issue every send in order when
    there are posts. *)
Definition finishWithFeed (c : Config) (i l : nat) (f : CachedFeed.t) : Config :=
  let upd := applyFeed f (subAt (cfHeap c) l) in
  let sends := map (fun p => mkDelivery (chatId (subscription upd)) (feedTitle upd) p) (posts upd) in
  {| cfCache := cfCache c; cfHeap := <[l := subscription upd]> (cfHeap c);
     cfEvents := cfEvents c; cfSends := cfSends c ++ sends; cfClock := cfClock c;
     cfTasks := <[i := match posts upd with [] => TDone l (Ok upd) | _ => TSending l upd end]> (cfTasks c) |}.

(** From the task's start to its first suspension. *)
Definition startStep (c : Config) (i l : nat) : Config :=
  let sub := subAt (cfHeap c) l in
  match startFetch (cfCache c) sub with
  | CacheHit f => finishWithFeed c i l f
  | CacheMiss h => setTask (logEv c (Request (url sub) h)) i (TFetching l h)
  end.

(** The response arrives. *)
Definition fetchedStep (c : Config) (i l : nat) (h : CondHeader) : Config :=
  let sub := subAt (cfHeap c) l in
  match onResponse (net (url sub) h) with
  | Err e => setTask c i (TDone l (Err e))
  | Ok NotModified => setTask c i (TDone l (Ok (notModifiedUpdate sub)))
  | Ok (GotBody et text) => setTask c i (TReading l et text)
  end.

(** The body has been read at time [now]: parse, cache, finish. *)
Definition readStep (c : Config) (i l : nat) (et : option string) (text : string) (now : Z) : Config :=
  let c1 := logEv {| cfCache := cfCache c; cfHeap := cfHeap c; cfEvents := cfEvents c;
                     cfSends := cfSends c; cfClock := now; cfTasks := cfTasks c |}
                  (Parse (url (subAt (cfHeap c) l))) in
  match onBody now et text with
  | Err e => setTask c1 i (TDone l (Err e))
  | Ok f => finishWithFeed {| cfCache := <[url (subAt (cfHeap c) l) := f]> (cfCache c1);
                              cfHeap := cfHeap c1; cfEvents := cfEvents c1; cfSends := cfSends c1;
                              cfClock := cfClock c1; cfTasks := cfTasks c1 |} i l f
  end.

Inductive step : Config -> Config -> Prop :=
| step_start c i l :
    cfTasks c !! i = Some (TStart l) -> step c (startStep c i l)
| step_fetched c i l h :
    cfTasks c !! i = Some (TFetching l h) -> step c (fetchedStep c i l h)
| step_read c i l et text now :
    cfTasks c !! i = Some (TReading l et text) -> cfClock c <= now ->
    step c (readStep c i l et text now)
| step_settled c i l u :
    cfTasks c !! i = Some (TSending l u) -> step c (setTask c i (TDone l (Ok u))).

Inductive star : Config -> Config -> Prop :=
| star_refl c : star c c
| star_step c1 c2 c3 : step c1 c2 -> star c2 c3 -> star c1 c3.
End Steps.

(** ** The user-level operation *)

(** [if (chatId) subscriptions = subscriptions.filter(sub => sub.chatId === chatId)] *)
Definition selectSubs (h : Heap) (uo : UserObj) (chat : option Z) : list nat :=
  match chat with
  | Some c => if js_truthy_num c
              then List.filter (fun l => Z.eqb (chatId (subAt h l)) c) (uoSubs uo)
              else uoSubs uo
  | None => uoSubs uo
  end.

(** The configuration right after [subscriptions.map(async ...)] was called:
    every task created, none started. *)
Definition initConfig (cache : gmap string CachedFeed.t) (h : Heap) (clock : Z)
    (uo : UserObj) (chat : option Z) : Config :=
  {| cfCache := cache; cfHeap := h; cfEvents := []; cfSends := []; cfClock := clock;
     cfTasks := map TStart (selectSubs h uo chat) |}.

(** The [reduce] keeping the fulfilled results, in task order, with the
    reference of the subscription object each carries. *)
Fixpoint fulfilled (ts : list Task) : list (nat * Update) :=
  match ts with
  | [] => []
  | TDone l (Ok u) :: ts' => (l, u) :: fulfilled ts'
  | _ :: ts' => fulfilled ts'
  end.

(** [updates.filter(update => update.posts.length > 0).map(update => update.subscription)] *)
Definition updatedRefs (ts : list Task) : list nat :=
  map fst (List.filter (fun lu => negb (Nat.eqb (length (posts lu.2)) 0)) (fulfilled ts)).

(** [store.updateSubscriptions(user, updatedSubscriptions)] on references:
    [find] compares the URLs the objects hold now. *)
Definition mergeRefs (h : Heap) (subs updated : list nat) : list nat :=
  map (fun l => match List.find (fun l' => String.eqb (url (subAt h l')) (url (subAt h l))) updated with
                | Some l' => l'
                | None => l
                end) subs.

(** The merge-back and the single write that end [updateUserSubscriptions],
    once every task has settled in configuration [c]. *)
Definition finishUserUpdate (c : Config) (uo : UserObj) (kv : KV) : UserObj * KV :=
  let uo' := {| uoId := uoId uo; uoSubs := mergeRefs (cfHeap c) (uoSubs uo) (updatedRefs (cfTasks c));
                uoDefaultRefreshRate := uoDefaultRefreshRate uo;
                uoPostsToLoadOnNewSub := uoPostsToLoadOnNewSub uo |} in
  (uo', set (derefUser (cfHeap c) uo') kv).

Definition taskDone (t : Task) : bool := match t with TDone _ _ => true | _ => false end.

Definition allDone (c : Config) : bool := forallb taskDone (cfTasks c).

(** Requests and parses about a URL so far ([Updater.eventAbout]). *)
Definition cfCount (isReq : bool) (u : string) (c : Config) : nat :=
  length (List.filter (eventAbout isReq u) (cfEvents c)).

(** ** How a step changes a configuration *)

(** How far a task is from settling. *)
Definition rank (t : Task) : nat :=
  match t with
  | TStart _ => 4 | TFetching _ _ => 3 | TReading _ _ _ => 2 | TSending _ _ => 1 | TDone _ _ => 0
  end%nat.

Definition measure (c : Config) : nat := list_sum (map rank (cfTasks c)).

(** A step moves one task forward, keeping its object reference, and
    changes no other task. *)
Definition MovesTask (c c' : Config) : Prop :=
  exists i t t', cfTasks c !! i = Some t /\ cfTasks c' = <[i := t']> (cfTasks c) /\
                 taskLoc t' = taskLoc t /\ (rank t' < rank t)%nat.

Section StepProps.
Context `{Platform} (net : Network).

Lemma finishWithFeed_tasks c i l f :
  exists t', cfTasks (finishWithFeed c i l f) = <[i := t']> (cfTasks c) /\
             taskLoc t' = l /\ (rank t' <= 1)%nat.
Proof.
  unfold finishWithFeed. cbn [cfTasks].
  eexists; split; [reflexivity|]. destruct (posts _); simpl; lia.
Qed.

Lemma moves_intro c c' i t t' :
  cfTasks c !! i = Some t -> cfTasks c' = <[i := t']> (cfTasks c) ->
  taskLoc t' = taskLoc t -> (rank t' < rank t)%nat -> MovesTask c c'.
Proof. intros. exists i, t, t'. done. Qed.

Lemma step_moves c c' : step net c c' -> MovesTask c c'.
Proof.
  intros Hs. destruct Hs as [c i l Hi|c i l h Hi|c i l et text now Hi Hnow|c i l u Hi].
  - unfold startStep. destruct (startFetch _ _) as [f|h].
    + destruct (finishWithFeed_tasks c i l f) as (t' & Ht & Hl & Hr).
      apply (moves_intro _ _ i (TStart l) t'); [done|done|done|simpl; lia].
    + apply (moves_intro _ _ i (TStart l) (TFetching l h)); [done|done|done|simpl; lia].
  - unfold fetchedStep. destruct (onResponse _) as [[|et text]|e].
    + apply (moves_intro _ _ i (TFetching l h) (TDone l (Ok (notModifiedUpdate (subAt (cfHeap c) l)))));
        [done|done|done|simpl; lia].
    + apply (moves_intro _ _ i (TFetching l h) (TReading l et text)); [done|done|done|simpl; lia].
    + apply (moves_intro _ _ i (TFetching l h) (TDone l (Err e))); [done|done|done|simpl; lia].
  - unfold readStep. destruct (onBody now et text) as [f|e].
    + match goal with |- MovesTask _ (finishWithFeed ?c1 _ _ _) =>
        destruct (finishWithFeed_tasks c1 i l f) as (t' & Ht & Hl & Hr) end.
      apply (moves_intro _ _ i (TReading l et text) t'); [done|done|done|simpl; lia].
    + apply (moves_intro _ _ i (TReading l et text) (TDone l (Err e))); [done|done|done|simpl; lia].
  - apply (moves_intro _ _ i (TSending l u) (TDone l (Ok u))); [done|done|done|simpl; lia].
Qed.

Lemma moves_measure c c' : MovesTask c c' -> (measure c' < measure c)%nat.
Proof.
  intros (i & t & t' & Hi & Ht & _ & Hr). unfold measure. rewrite Ht.
  pose proof (list_sum_map_insert rank (cfTasks c) i t t' Hi). lia.
Qed.

Lemma step_measure c c' : step net c c' -> (measure c' < measure c)%nat.
Proof. intros Hs. by apply moves_measure, step_moves. Qed.

(** Every step moves some task strictly closer to settling, so the
    tasks of [updateUserSubscriptions] cannot run forever: a run has at
    most four steps per subscription. *)
Theorem step_terminates c c' : step net c c' -> (measure c' < measure c)%nat.
Proof. apply step_measure. Qed.

Lemma step_progress c : allDone c = false -> exists c', step net c c'.
Proof.
  unfold allDone. intros Hnd. apply forallb_false_In in Hnd as (t & Hin & Ht).
  apply list_elem_of_In, list_elem_of_lookup in Hin as [i Hi].
  destruct t as [l|l h|l et text|l u|l r]; try discriminate.
  - eexists. by apply step_start.
  - eexists. by apply step_fetched.
  - eexists. apply (step_read net c i l et text (cfClock c)); [done|lia].
  - eexists. by apply step_settled.
Qed.

(** Whatever the network answers, every configuration can run to one in
    which all tasks have settled (fulfilled or rejected). *)
Theorem run_to_completion c : exists c', star net c c' /\ allDone c' = true.
Proof.
  remember (measure c) as n eqn:Hn. revert c Hn.
  induction n as [n IH] using (well_founded_induction lt_wf). intros c ->.
  destruct (allDone c) eqn:Hd; [exists c; split; [constructor|done]|].
  destruct (step_progress c Hd) as [c1 Hs].
  destruct (IH (measure c1) (step_measure c c1 Hs) c1 eq_refl) as (c2 & Hstar & Hdone).
  exists c2. split; [econstructor; eauto|done].
Qed.
End StepProps.

(** ** Frame: what no step changes *)

Lemma map_taskLoc_insert (ts : list Task) i t t' :
  ts !! i = Some t -> taskLoc t' = taskLoc t -> map taskLoc (<[i := t']> ts) = map taskLoc ts.
Proof.
  revert i. induction ts as [|x ts IH]; intros [|i] Hi Hl; simpl in *; try discriminate.
  - injection Hi as ->. by rewrite Hl.
  - by rewrite IH.
Qed.

Lemma NoDup_map_inj {A B} (f : A -> B) (l : list A) a b :
  NoDup (map f l) -> In a l -> In b l -> f a = f b -> a = b.
Proof.
  induction l as [|x l IH]; intros Hnd Ha Hb Hf; [done|].
  simpl in Hnd. apply NoDup_cons in Hnd as [Hx Hnd].
  destruct Ha as [<-|Ha], Hb as [<-|Hb]; [done| | |by apply IH].
  - exfalso. apply Hx, list_elem_of_In. rewrite Hf. by apply in_map.
  - exfalso. apply Hx, list_elem_of_In. rewrite <- Hf. by apply in_map.
Qed.

Definition SameUrls (c c' : Config) : Prop :=
  forall l, url (subAt (cfHeap c') l) = url (subAt (cfHeap c) l).

Section Frame.
Context `{Platform} (net : Network).

Lemma finishWithFeed_urls c i l f : SameUrls c (finishWithFeed c i l f).
Proof.
  intros l'. unfold finishWithFeed, subAt at 1. cbn [cfHeap]. rewrite lookup_insert.
  case_decide as Hl; [subst|done]. done.
Qed.

Lemma step_frame c c' :
  step net c c' -> SameUrls c c' /\ map taskLoc (cfTasks c') = map taskLoc (cfTasks c).
Proof.
  intros Hs. split.
  - destruct Hs as [c i l Hi|c i l h Hi|c i l et text now Hi Hnow|c i l u Hi].
    + unfold startStep. destruct (startFetch _ _); [apply finishWithFeed_urls|done].
    + unfold fetchedStep. by destruct (onResponse _) as [[|]|].
    + unfold readStep. destruct (onBody now et text); [|done].
      intros l'. rewrite finishWithFeed_urls. done.
    + done.
  - destruct (step_moves net c c' Hs) as (i & t & t' & Hi & -> & Hl & _).
    by apply (map_taskLoc_insert _ i t t').
Qed.

Lemma star_frame c c' :
  star net c c' -> SameUrls c c' /\ map taskLoc (cfTasks c') = map taskLoc (cfTasks c).
Proof.
  induction 1 as [c|c1 c2 c3 Hs _ [IHu IHl]]; [done|].
  destruct (step_frame c1 c2 Hs) as [Hu Hl]. split; [intros l; by rewrite IHu, Hu|congruence].
Qed.
Lemma finishWithFeed_heap c i l f l' : l' <> l -> cfHeap (finishWithFeed c i l f) !! l' = cfHeap c !! l'.
Proof. intros Hne. unfold finishWithFeed. cbn [cfHeap]. by rewrite lookup_insert_ne. Qed.

(** A step changes the heap only at the object of the task it moves. *)
Lemma step_heap_frame c c' l' :
  step net c c' -> ~ In l' (map taskLoc (cfTasks c)) -> cfHeap c' !! l' = cfHeap c !! l'.
Proof.
  intros Hs Hn.
  assert (Hloc : forall i t, cfTasks c !! i = Some t -> l' <> taskLoc t).
  { intros i t Hi Heq. apply Hn. rewrite Heq. apply in_map, list_elem_of_In. by eapply list_elem_of_lookup_2. }
  destruct Hs as [c i l Hi|c i l h Hi|c i l et text now Hi Hnow|c i l u Hi].
  - unfold startStep. destruct (startFetch _ _); [|done]. apply finishWithFeed_heap. exact (Hloc i _ Hi).
  - unfold fetchedStep. by destruct (onResponse _) as [[|]|].
  - unfold readStep. destruct (onBody now et text); [|done].
    rewrite finishWithFeed_heap; [done|exact (Hloc i _ Hi)].
  - done.
Qed.

Lemma star_heap_frame c c' l' :
  star net c c' -> ~ In l' (map taskLoc (cfTasks c)) -> cfHeap c' !! l' = cfHeap c !! l'.
Proof.
  induction 1 as [c|c1 c2 c3 Hs _ IH]; intros Hn; [done|].
  destruct (step_frame c1 c2 Hs) as [_ Hl].
  rewrite IH by (by rewrite Hl). by apply step_heap_frame.
Qed.
End Frame.

(** ** The feed cache across a run *)

(** A task suspended on its request or on the body: it missed the cache. *)
Definition awaiting (t : Task) : bool :=
  match t with TFetching _ _ | TReading _ _ _ => true | _ => false end.

(** The cache holds [f] at [u], and no task that missed the cache is
    fetching [u]. *)
Definition CacheKept (u : string) (f : CachedFeed.t) (c : Config) : Prop :=
  cfCache c !! u = Some f /\
  forall i t, cfTasks c !! i = Some t -> awaiting t = true -> url (subAt (cfHeap c) (taskLoc t)) <> u.

Section CacheKept.
Context `{Platform} (net : Network) (u : string) (f : CachedFeed.t).

Lemma cacheKept_intro c c' i t' :
  CacheKept u f c -> cfCache c' !! u = Some f -> SameUrls c c' -> cfTasks c' = <[i := t']> (cfTasks c) ->
  (awaiting t' = true -> url (subAt (cfHeap c) (taskLoc t')) <> u) -> CacheKept u f c'.
Proof.
  intros [_ Hinv] Hc Hsame Ht Hnew. split; [done|]. intros j t Hj Ha. rewrite Hsame. rewrite Ht in Hj.
  apply list_lookup_insert_Some in Hj as [(-> & -> & _)|(_ & Hj)]; [by apply Hnew|by apply (Hinv j t)].
Qed.

Lemma finishWithFeed_kept c i l f' : CacheKept u f c -> CacheKept u f (finishWithFeed c i l f').
Proof.
  intros Hk. eapply cacheKept_intro; [exact Hk|apply Hk|apply finishWithFeed_urls|reflexivity|].
  case_match; discriminate.
Qed.

(** No step removes or changes the cached feed of [u]: a task that hits
    the cache does not write it, and a task that missed it fetches
    another URL. *)
Lemma step_kept c c' : step net c c' -> CacheKept u f c -> CacheKept u f c'.
Proof.
  intros Hs Hk. destruct Hs as [c i l Hi|c i l h Hi|c i l et text now Hi Hnow|c i l t0 Hi].
  - unfold startStep. destruct (startFetch (cfCache c) (subAt (cfHeap c) l)) as [f0|h] eqn:E;
      [by apply finishWithFeed_kept|].
    eapply cacheKept_intro; [exact Hk|apply Hk|done|reflexivity|]. intros _. cbn [taskLoc]. intros Heq.
    unfold startFetch in E. rewrite Heq, (proj1 Hk) in E. discriminate.
  - pose proof (proj2 Hk i _ Hi eq_refl) as Hl. cbn [taskLoc] in Hl.
    unfold fetchedStep. destruct (onResponse _) as [[|et text]|e];
      (eapply cacheKept_intro; [exact Hk|apply Hk|done|reflexivity|]); cbn; by intros.
  - pose proof (proj2 Hk i _ Hi eq_refl) as Hl. cbn [taskLoc] in Hl.
    unfold readStep. destruct (onBody now et text) as [f'|e].
    + apply finishWithFeed_kept. split; [cbn; rewrite lookup_insert_ne by congruence; apply Hk|].
      intros j t Hj Ha. exact (proj2 Hk j t Hj Ha).
    + eapply (cacheKept_intro c); [exact Hk|apply Hk|done|reflexivity|discriminate].
  - eapply cacheKept_intro; [exact Hk|apply Hk|done|reflexivity|discriminate].
Qed.

Lemma star_kept c c' : star net c c' -> CacheKept u f c -> CacheKept u f c'.
Proof. induction 1 as [c|c1 c2 c3 Hs _ IH]; [done|]. intros Hk. by apply IH, (step_kept c1). Qed.
End CacheKept.

(** ** Merge-back *)

Lemma fulfilled_locs (ts : list Task) lu : In lu (fulfilled ts) -> In lu.1 (map taskLoc ts).
Proof.
  induction ts as [|t ts IH]; [done|]. simpl.
  destruct t as [| | | |l [u|e]]; simpl; try (intros; right; by apply IH).
  intros [<-|Hin]; [by left|right; by apply IH].
Qed.

Lemma updatedRefs_locs ts l : In l (updatedRefs ts) -> In l (map taskLoc ts).
Proof.
  unfold updatedRefs. intros (lu & <- & Hin)%in_map_iff.
  apply filter_In in Hin as [Hin _]. by apply fulfilled_locs.
Qed.

Lemma mergeRefs_id h (subs updated : list nat) :
  (forall l, In l updated -> In l subs) -> NoDup (map (fun l => url (subAt h l)) subs) ->
  mergeRefs h subs updated = subs.
Proof.
  intros Hsub Hnd. unfold mergeRefs. rewrite <- (map_id subs) at 2. apply map_ext_in.
  intros l Hl. destruct (List.find _ updated) as [l'|] eqn:Hf; [|done].
  apply find_some in Hf as [Hin Heq]. apply String.eqb_eq in Heq.
  apply (NoDup_map_inj (fun l => url (subAt h l)) subs); auto.
Qed.

Lemma find_subAt h (updated : list nat) u :
  option_map (subAt h) (List.find (fun l' => String.eqb (url (subAt h l')) u) updated) =
  List.find (hasUrl u) (map (subAt h) updated).
Proof. induction updated as [|l upd IH]; [done|]. simpl. unfold hasUrl. by destruct (String.eqb _ _). Qed.

Lemma initConfig_locs cache h clock uo chat :
  map taskLoc (cfTasks (initConfig cache h clock uo chat)) = selectSubs h uo chat.
Proof. cbn [initConfig cfTasks]. rewrite map_map. apply map_id. Qed.

Lemma selectSubs_incl h uo chat l : In l (selectSubs h uo chat) -> In l (uoSubs uo).
Proof.
  unfold selectSubs. destruct chat as [ch|]; [destruct (js_truthy_num ch)|]; [|done|done].
  intros Hl%filter_In. tauto.
Qed.

(** The merge-back of a run changes no reference when the user's objects
    have distinct URLs. *)
Lemma run_mergeRefs_id `{Platform} net cache h clock uo chat c :
  star net (initConfig cache h clock uo chat) c ->
  NoDup (map (fun l => url (subAt h l)) (uoSubs uo)) ->
  mergeRefs (cfHeap c) (uoSubs uo) (updatedRefs (cfTasks c)) = uoSubs uo.
Proof.
  intros Hrun Hnd. destruct (star_frame net _ _ Hrun) as [Hurl Hloc]. apply mergeRefs_id.
  - intros l Hl. apply updatedRefs_locs in Hl. rewrite Hloc, initConfig_locs in Hl.
    by apply selectSubs_incl in Hl.
  - erewrite map_ext; [exact Hnd|]. intros l. apply Hurl.
Qed.

(** The reference-level merge of [updateUserSubscriptions] writes what
    [UserStore.updateSubscriptions] of [Store.v] writes for the user and the
    subscription values at the time of the write: the heap model refines the
    value model of the store. *)
Theorem finishUserUpdate_refines c uo kv :
  (finishUserUpdate c uo kv).2 =
  updateSubscriptions (derefUser (cfHeap c) uo) (map (subAt (cfHeap c)) (updatedRefs (cfTasks c))) kv.
Proof.
  unfold finishUserUpdate, updateSubscriptions, derefUser, setSubscriptions. cbn.
  do 2 f_equal. unfold mergeRefs, mergeSubscriptions. rewrite !map_map. apply map_ext.
  intros l. unfold mergeSub. rewrite <- find_subAt.
  by destruct (List.find _ (updatedRefs (cfTasks c))).
Qed.

(** C7: because the tasks mutate the very objects the user holds, the
    merge-back changes no reference and the single write stores every
    subscription as it is at the end of the run: a successful fetch advances
    the stored watermark and validator even when it found no new post, which
    the [posts.length > 0] filter of the merge does not prevent.  This holds
    for every schedule of the tasks. *)
Theorem updateUser_writes_objects `{Platform} net cache h clock uo chat c kv :
  star net (initConfig cache h clock uo chat) c ->
  NoDup (map (fun l => url (subAt h l)) (uoSubs uo)) ->
  finishUserUpdate c uo kv = (uo, set (derefUser (cfHeap c) uo) kv).
Proof.
  intros Hrun Hnd. unfold finishUserUpdate. rewrite (run_mergeRefs_id net cache h clock uo chat c Hrun Hnd).
  by destruct uo.
Qed.

(** ** De-duplication under concurrency *)

(** What a task may still add to the log: one request until it has
    started, one parse until it has read its body. *)
Definition budget (b : bool) (t : Task) : nat :=
  match t with
  | TStart _ => 1
  | TFetching _ _ | TReading _ _ _ => if b then 0 else 1
  | _ => 0
  end%nat.

Definition weight (b : bool) (u : string) (h : Heap) (t : Task) : nat :=
  if String.eqb (url (subAt h (taskLoc t))) u then budget b t else 0%nat.

Definition pendingFor (b : bool) (u : string) (c : Config) : nat :=
  list_sum (map (weight b u (cfHeap c)) (cfTasks c)).

Lemma budget_settled b t : (rank t <= 1)%nat -> budget b t = 0%nat.
Proof. destruct t; simpl; lia. Qed.

(** One step, seen from the log: the moved task [t] becomes [t'] and the
    events it adds are paid for by its budget. *)
Definition PaidStep (c c' : Config) : Prop :=
  exists i t t' evs,
    cfTasks c !! i = Some t /\ cfTasks c' = <[i := t']> (cfTasks c) /\
    cfEvents c' = evs ++ cfEvents c /\ taskLoc t' = taskLoc t /\
    forall b u, (length (List.filter (eventAbout b u) evs) + weight b u (cfHeap c) t' <=
                 weight b u (cfHeap c) t)%nat.

Section Budget.
Context `{Platform} (net : Network).

Lemma paid_intro c c' i t t' evs :
  cfTasks c !! i = Some t -> cfTasks c' = <[i := t']> (cfTasks c) ->
  cfEvents c' = evs ++ cfEvents c -> taskLoc t' = taskLoc t ->
  (forall b u, (length (List.filter (eventAbout b u) evs) + weight b u (cfHeap c) t' <=
                weight b u (cfHeap c) t)%nat) ->
  PaidStep c c'.
Proof. intros. exists i, t, t', evs. done. Qed.

Lemma step_paid c c' : step net c c' -> PaidStep c c'.
Proof.
  intros Hs. destruct Hs as [c i l Hi|c i l h Hi|c i l et text now Hi Hnow|c i l u Hi].
  - unfold startStep. destruct (startFetch _ _) as [f|h].
    + destruct (finishWithFeed_tasks c i l f) as (t' & Ht & Hl & Hr).
      apply (paid_intro _ _ i (TStart l) t' []); [done|done|done|done|].
      intros b u. unfold weight. rewrite budget_settled, Hl by done. simpl. destruct (String.eqb _ _); lia.
    + apply (paid_intro _ _ i (TStart l) (TFetching l h) [Request (url (subAt (cfHeap c) l)) h]);
        [done|done|done|done|].
      intros b u. unfold weight. simpl. destruct (String.eqb _ _), b; simpl; lia.
  - unfold fetchedStep. destruct (onResponse _) as [[|et text]|e].
    + apply (paid_intro _ _ i (TFetching l h) (TDone l (Ok (notModifiedUpdate (subAt (cfHeap c) l)))) []);
        [done..|]. intros b u. unfold weight. simpl. destruct (String.eqb _ _), b; simpl; lia.
    + apply (paid_intro _ _ i (TFetching l h) (TReading l et text) []); [done..|].
      intros b u. unfold weight. simpl. destruct (String.eqb _ _), b; simpl; lia.
    + apply (paid_intro _ _ i (TFetching l h) (TDone l (Err e)) []); [done..|].
      intros b u. unfold weight. simpl. destruct (String.eqb _ _), b; simpl; lia.
  - unfold readStep. destruct (onBody now et text) as [f|e].
    + match goal with |- PaidStep _ (finishWithFeed ?c1 _ _ _) =>
        destruct (finishWithFeed_tasks c1 i l f) as (t' & Ht & Hl & Hr) end.
      apply (paid_intro _ _ i (TReading l et text) t' [Parse (url (subAt (cfHeap c) l))]);
        [done|done|done|done|].
      intros b u. unfold weight. rewrite budget_settled, Hl by done. simpl.
      destruct (String.eqb _ _), b; simpl; lia.
    + apply (paid_intro _ _ i (TReading l et text) (TDone l (Err e)) [Parse (url (subAt (cfHeap c) l))]);
        [done..|]. intros b u. unfold weight. simpl. destruct (String.eqb _ _), b; simpl; lia.
  - apply (paid_intro _ _ i (TSending l u) (TDone l (Ok u)) []); [done..|].
    intros b u'. unfold weight. simpl. destruct (String.eqb _ _), b; simpl; lia.
Qed.

Lemma step_budget b u c c' :
  step net c c' -> (cfCount b u c' + pendingFor b u c' <= cfCount b u c + pendingFor b u c)%nat.
Proof.
  intros Hs. destruct (step_frame net c c' Hs) as [Hurl _].
  destruct (step_paid c c' Hs) as (i & t & t' & evs & Hi & Ht & He & Hl & Hpay).
  unfold cfCount, pendingFor. rewrite He, Ht, List.filter_app, length_app.
  rewrite (map_ext (weight b u (cfHeap c')) (weight b u (cfHeap c)))
    by (intros x; unfold weight; by rewrite Hurl).
  pose proof (list_sum_map_insert (weight b u (cfHeap c)) (cfTasks c) i t t' Hi).
  specialize (Hpay b u). lia.
Qed.

Lemma star_budget b u c c' :
  star net c c' -> (cfCount b u c' + pendingFor b u c' <= cfCount b u c + pendingFor b u c)%nat.
Proof.
  induction 1 as [c|c1 c2 c3 Hs _ IH]; [done|].
  pose proof (step_budget b u c1 c2 Hs). lia.
Qed.
End Budget.

Lemma pendingFor_init b u cache h clock uo chat :
  pendingFor b u (initConfig cache h clock uo chat) =
  length (List.filter (fun l => String.eqb (url (subAt h l)) u) (selectSubs h uo chat)).
Proof.
  unfold pendingFor, initConfig. cbn [cfTasks cfHeap]. rewrite map_map.
  induction (selectSubs h uo chat) as [|l ls IH]; [done|]. simpl.
  unfold weight at 1. simpl. destruct (String.eqb _ _); simpl; lia.
Qed.

(** In every schedule of the tasks of [updateUserSubscriptions], a feed
    URL is requested at most once, and parsed at most once, per selected
    subscription that has it: the cache may fail to de-duplicate (see
    [FanoutExamples.concurrent_fetch_duplicates]) but nothing is fetched
    twice for the same task. *)
Theorem run_requests_bounded `{Platform} net b u cache h clock uo chat c :
  star net (initConfig cache h clock uo chat) c ->
  (cfCount b u c <= length (List.filter (fun l => String.eqb (url (subAt h l)) u) (selectSubs h uo chat)))%nat.
Proof.
  intros Hrun. pose proof (star_budget net b u _ _ Hrun) as Hb.
  rewrite pendingFor_init in Hb. unfold cfCount at 2 in Hb. simpl in Hb. lia.
Qed.

Module FanoutExamples.
Import TestPlatform.

(** Two subscriptions to feed [F], of two users of one page of [fetchAll]
    (or any two tasks), with an empty cache at time 10. *)
Definition twoSubs : Config :=
  {| cfCache := ∅; cfHeap := <[0%nat := subF 1 0]> (<[1%nat := subF 2 0]> ∅);
     cfEvents := []; cfSends := []; cfClock := 10; cfTasks := [TStart 0; TStart 1] |}.

(** C6: Finding: the cache check and the cache fill are separated by two
    [await]s, so when the second task starts before the first one's
    response has been parsed, both miss the cache: the feed is requested
    twice and parsed twice in one run, against the spec's "exactly one
    network retrieval and one parse" (section 8). *)
Theorem concurrent_fetch_duplicates :
  exists c, @star platform netF twoSubs c /\ allDone c = true /\
            cfCount true "F" c = 2%nat /\ cfCount false "F" c = 2%nat.
Proof.
  eexists. split.
  - eapply star_step; [apply (step_start _ _ 0 0); reflexivity|].
    eapply star_step; [apply (step_start _ _ 1 1); reflexivity|].
    eapply star_step; [apply (step_fetched _ _ 0 0 NoCondition); reflexivity|].
    eapply star_step; [apply (step_fetched _ _ 1 1 NoCondition); reflexivity|].
    eapply star_step; [apply (step_read _ _ 0 0 (Some "v1") "F-body" 11); [reflexivity|apply Z.leb_le; reflexivity]|].
    eapply star_step; [apply (step_read _ _ 1 1 (Some "v1") "F-body" 12); [reflexivity|apply Z.leb_le; reflexivity]|].
    eapply star_step; [eapply (step_settled _ _ 0 0); reflexivity|].
    eapply star_step; [eapply (step_settled _ _ 1 1); reflexivity|].
    apply star_refl.
  - vm_compute. repeat split.
Qed.

Lemma step_terminates_witness :
  @step platform netF twoSubs (@startStep platform twoSubs 0 0) /\
  (measure (@startStep platform twoSubs 0 0) < measure twoSubs)%nat.
Proof.
  assert (Hs : @step platform netF twoSubs (@startStep platform twoSubs 0 0))
    by (apply step_start; reflexivity).
  split; [exact Hs|exact (@step_terminates platform netF _ _ Hs)].
Defined.

(** One user with one subscription to [F], already past every item of the
    feed (watermark 20), updated at time 25; the body is read at 30. *)
Definition uo1 : UserObj := mkUserObj 1 [0%nat] None None.
Definition h1 : Heap := <[0%nat := subF 5 20]> ∅.
Definition c0 : Config := initConfig ∅ h1 25 uo1 None.
Definition c1 : Config :=
  @readStep platform (@fetchedStep netF (@startStep platform c0 0 0) 0 0 (IfModifiedSince 20))
    0 0 (Some "v1") "F-body" 30.

Lemma run_c1 : @star platform netF c0 c1.
Proof.
  eapply star_step; [apply (step_start _ _ 0 0); reflexivity|].
  eapply star_step; [apply (step_fetched _ _ 0 0 (IfModifiedSince 20)); reflexivity|].
  eapply star_step; [apply (step_read _ _ 0 0 (Some "v1") "F-body" 30);
                     [reflexivity|apply Z.leb_le; reflexivity]|].
  apply star_refl.
Qed.

Lemma updateUser_writes_objects_witness :
  NoDup (map (fun l => url (subAt h1 l)) (uoSubs uo1)) /\
  finishUserUpdate c1 uo1 ∅ = (uo1, set (derefUser (cfHeap c1) uo1) ∅).
Proof.
  assert (Hnd : NoDup (map (fun l => url (subAt h1 l)) (uoSubs uo1))) by (repeat constructor; set_solver).
  split; [exact Hnd|exact (@updateUser_writes_objects platform netF ∅ h1 25 uo1 None c1 ∅ run_c1 Hnd)].
Defined.

(** Finding: a run of [updateUserSubscriptions] whose only fetch
    finds no new post leaves the merge's [updatedSubscriptions] empty, yet
    the stored subscription has the new watermark and validator, written
    through the shared object. *)
Example zero_post_fetch_is_persisted :
  allDone c1 = true /\ updatedRefs (cfTasks c1) = [] /\
  get 1 (finishUserUpdate c1 uo1 ∅).2 =
    Some (setSubscriptions (newUser 1) [setFetched (subF 5 20) 30 (Some "v1")]).
Proof. vm_compute. repeat split. Qed.

Lemma run_requests_bounded_witness :
  (cfCount true "F" c1 <= 1)%nat.
Proof. exact (@run_requests_bounded platform netF true "F" ∅ h1 25 uo1 None c1 run_c1). Defined.
End FanoutExamples.
