(* ===== verification/Listing.v ===== *)
(** * Listing users: [UserStore.listIds] of [src/src/store.ts]

    [listIds(cursor)] asks the KV service for one page of the keys under
    the prefix ["user:"] and reads each user id back from its key with
    [parseInt(key.name.split(':')[1])].  This file holds the JS string
    functions that expression uses, [String.prototype.split] on one
    character and the global [parseInt] (whitespace, sign, the [0x] prefix,
    longest digit prefix, [NaN] as [None]), the interface [KVListing] of
    the KV service's [list] with the laws its documentation gives, and
    [listIds] itself.  The theorem of this file is the round trip between
    the key [`user:${id}`] written by [UserStore.set] and the id
    [listIds] reads back. *)

From stdpp Require Import base list strings pretty gmap.
From Stdlib Require Import ZArith Ascii.
From S2P Require Import Prelude Model Store.

Open Scope Z_scope.

(** ** JS string functions *)

(** [s.split(sep)] for a one-character separator: the pieces between the
    separators, [[""]] for the empty string. *)
Fixpoint split (sep : ascii) (s : string) : list string :=
  match s with
  | EmptyString => [EmptyString]
  | String c s' =>
      let rest := split sep s' in
      if Ascii.eqb c sep then EmptyString :: rest
      else match rest with
           | w :: ws => String c w :: ws
           | [] => [String c EmptyString]
           end
  end.

(** The white space [parseInt] skips (StrWhiteSpaceChar and
    LineTerminator) in the Latin-1 range: TAB, LF, VT, FF, CR, SP, NBSP. *)
Definition isJsSpace (c : ascii) : bool :=
  let n := nat_of_ascii c in
  ((9 <=? n) && (n <=? 13) || (n =? 32) || (n =? 160))%nat.

Fixpoint trimStart (s : string) : string :=
  match s with
  | String c s' => if isJsSpace c then trimStart s' else s
  | EmptyString => EmptyString
  end.

(** The value of a digit in radix 36: [0-9], then [a-z] or [A-Z]. *)
Definition digitOf (c : ascii) : option Z :=
  let n := Z.of_nat (nat_of_ascii c) in
  if (48 <=? n) && (n <=? 57) then Some (n - 48)
  else if (97 <=? n) && (n <=? 122) then Some (n - 87)
  else if (65 <=? n) && (n <=? 90) then Some (n - 55)
  else None.

Definition radixDigit (r : Z) (c : ascii) : option Z :=
  match digitOf c with
  | Some d => if d <? r then Some d else None
  | None => None
  end.

(** The value of the longest prefix of radix-[r] digits, accumulated onto
    [acc]. *)
Fixpoint digitsValue (r acc : Z) (s : string) : Z :=
  match s with
  | String c s' =>
      match radixDigit r c with
      | Some d => digitsValue r (acc * r + d) s'
      | None => acc
      end
  | EmptyString => acc
  end.

(** Steps 11 and 12 of [parseInt]: [NaN] when the digit prefix is empty,
    that is when the first character is not a digit. *)
Definition parseDigits (r : Z) (s : string) : option Z :=
  match s with
  | String c _ => match radixDigit r c with Some _ => Some (digitsValue r 0 s) | None => None end
  | EmptyString => None
  end.

(** Steps 3 and 4 of [parseInt]: the sign and the rest. *)
Definition signOf (s : string) : Z * string :=
  match s with
  | String c t => if Ascii.eqb c "-" then (-1, t) else if Ascii.eqb c "+" then (1, t) else (1, s)
  | EmptyString => (1, s)
  end.

(** Steps 10 to 13: a [0x] or [0X] prefix selects radix 16, else radix 10. *)
Definition parseUnsigned (s : string) : option Z :=
  match s with
  | String c0 (String cx t) =>
      if Ascii.eqb c0 "0" && (Ascii.eqb cx "x" || Ascii.eqb cx "X")
      then parseDigits 16 t else parseDigits 10 s
  | _ => parseDigits 10 s
  end.

(** [parseInt(s)] with no radix; [NaN] is [None], [-0] is [0].  Numbers
    are exact: the ids read are Telegram user ids, below 2^53. *)
Definition parseInt (s : string) : option Z :=
  let '(sign, s2) := signOf (trimStart s) in
  option_map (Z.mul sign) (parseUnsigned s2).

(** [key.name.split(':')[1]] then [parseInt]; a key without a colon gives
    [parseInt(undefined)], which is [NaN]. *)
Definition keyId (k : string) : option Z :=
  match nth_error (split ":"%char k) 1 with
  | Some w => parseInt w
  | None => None
  end.

(** ** Reading back the decimal form of [`${id}`] *)

(** A decimal digit, as [radixDigit 10] reads it. *)
Definition isDecDigit (c : ascii) : bool :=
  match radixDigit 10 c with Some _ => true | None => false end.

Fixpoint allDigits (s : string) : bool :=
  match s with
  | String c s' => isDecDigit c && allDigits s'
  | EmptyString => true
  end.

Lemma radixDigit_char d : (d < 10)%N -> radixDigit 10 (pretty_N_char d) = Some (Z.of_N d).
Proof.
  intros Hd.
  assert (d = 0 \/ d = 1 \/ d = 2 \/ d = 3 \/ d = 4 \/ d = 5 \/ d = 6 \/ d = 7 \/ d = 8 \/ d = 9)%N
    as Hc by lia.
  repeat destruct Hc as [->|Hc]; try reflexivity. subst. reflexivity.
Qed.

Lemma isDecDigit_char d : (d < 10)%N -> isDecDigit (pretty_N_char d) = true.
Proof. intros Hd. unfold isDecDigit. by rewrite radixDigit_char. Qed.

Lemma pretty_N_go_value x s : digitsValue 10 0 (pretty_N_go x s) = digitsValue 10 (Z.of_N x) s.
Proof.
  revert s. induction (N.lt_wf_0 x) as [x _ IH]; intros s.
  destruct (decide (x = 0)%N) as [->|Hx]; [by rewrite pretty_N_go_0|].
  rewrite pretty_N_go_step by lia. rewrite IH by (apply N.div_lt; lia).
  cbn [digitsValue]. rewrite radixDigit_char by (apply N.mod_lt; lia).
  f_equal. pose proof (N.div_mod x 10 ltac:(lia)). lia.
Qed.

Lemma pretty_N_go_digits x s : allDigits s = true -> allDigits (pretty_N_go x s) = true.
Proof.
  revert s. induction (N.lt_wf_0 x) as [x _ IH]; intros s Hs.
  destruct (decide (x = 0)%N) as [->|Hx]; [by rewrite pretty_N_go_0|].
  rewrite pretty_N_go_step by lia. apply IH; [apply N.div_lt; lia|].
  simpl. rewrite isDecDigit_char by (apply N.mod_lt; lia). done.
Qed.

Lemma pretty_N_go_nonempty x s : s <> EmptyString -> pretty_N_go x s <> EmptyString.
Proof.
  revert s. induction (N.lt_wf_0 x) as [x _ IH]; intros s Hs.
  destruct (decide (x = 0)%N) as [->|Hx]; [by rewrite pretty_N_go_0|].
  rewrite pretty_N_go_step by lia. apply IH; [apply N.div_lt; lia|done].
Qed.

(** The decimal form of a positive number: a non-empty string of digits. *)
Lemma pretty_pos_shape p :
  exists c t, pretty (Npos p) = String c t /\ isDecDigit c = true /\ allDigits t = true /\
              digitsValue 10 0 (String c t) = Z.pos p.
Proof.
  unfold pretty, pretty_N. rewrite decide_False by done.
  pose proof (pretty_N_go_value (Npos p) "") as Hv.
  pose proof (pretty_N_go_digits (Npos p) "" eq_refl) as Hd.
  assert (Hne : pretty_N_go (Npos p) "" <> EmptyString)
    by (rewrite pretty_N_go_step by lia; by apply pretty_N_go_nonempty).
  destruct (pretty_N_go (Npos p) "") as [|c t]; [by destruct Hne|].
  simpl in Hd. apply andb_prop in Hd as [Hc Ht]. exists c, t. done.
Qed.

Lemma digit_not_char c c' : isDecDigit c = true -> isDecDigit c' = false -> Ascii.eqb c c' = false.
Proof. intros H1 H2. destruct (Ascii.eqb c c') eqn:E; [apply Ascii.eqb_eq in E; congruence|done]. Qed.

Lemma digit_not_space c : isDecDigit c = true -> isJsSpace c = false.
Proof. destruct c as [[] [] [] [] [] [] [] []]; intros H; vm_compute in H; (discriminate || reflexivity). Qed.

Lemma parseUnsigned_pos p : parseUnsigned (pretty (Npos p)) = Some (Z.pos p).
Proof.
  destruct (pretty_pos_shape p) as (c & t & -> & Hc & Ht & Hv).
  assert (Hd : parseDigits 10 (String c t) = Some (Z.pos p)).
  { unfold parseDigits, isDecDigit in *. destruct (radixDigit 10 c); [by rewrite Hv|done]. }
  unfold parseUnsigned. destruct t as [|cx t]; [done|].
  simpl in Ht. apply andb_prop in Ht as [Hx _].
  by rewrite (digit_not_char cx "x"), (digit_not_char cx "X"), !andb_false_r.
Qed.

(** [parseInt] reads back the decimal form of every integer. *)
Lemma parseInt_pretty z : parseInt (pretty z) = Some z.
Proof.
  destruct z as [|p|p]; [reflexivity| |].
  - unfold parseInt. destruct (pretty_pos_shape p) as (c & t & Hs & Hc & _).
    change (pretty (Z.pos p)) with (pretty (Npos p)). rewrite Hs. cbn [trimStart].
    rewrite digit_not_space by done. unfold signOf.
    rewrite (digit_not_char c "-"), (digit_not_char c "+") by done.
    rewrite <- Hs, parseUnsigned_pos. done.
  - unfold parseInt. change (pretty (Z.neg p)) with (String "-" (pretty (Npos p))).
    simpl. rewrite parseUnsigned_pos. done.
Qed.

Lemma split_digits sep t : isDecDigit sep = false -> allDigits t = true -> split sep t = [t].
Proof.
  intros Hsep. induction t as [|c t IH]; [done|]. simpl. intros [Hc Ht]%andb_prop.
  rewrite IH, digit_not_char by done. done.
Qed.

Lemma split_other sep c s :
  Ascii.eqb c sep = false ->
  split sep (String c s) = match split sep s with w :: ws => String c w :: ws | [] => [String c EmptyString] end.
Proof. intros H. simpl. by rewrite H. Qed.

Lemma split_userKey z : split ":" (userKey z) = ["user"; pretty z].
Proof.
  unfold userKey. cbv [String.append]. cbn [split Ascii.eqb Bool.eqb].
  destruct z as [|p|p]; [reflexivity| |].
  - destruct (pretty_pos_shape p) as (c & t & Hs & Hc & Ht & _).
    change (pretty (Z.pos p)) with (pretty (Npos p)). rewrite Hs.
    rewrite (split_digits _ (String c t)) by (done || simpl; by rewrite Hc, Ht). done.
  - destruct (pretty_pos_shape p) as (c & t & Hs & Hc & Ht & _).
    change (pretty (Z.neg p)) with (String "-" (pretty (Npos p))). rewrite Hs.
    rewrite split_other by done.
    rewrite (split_digits _ (String c t)) by (done || simpl; by rewrite Hc, Ht). done.
Qed.

(** The id [listIds] reads from the key [`user:${id}`] that
    [UserStore.set] writes is that id, for every integer id: the key
    encoding of the store round-trips. *)
Theorem keyId_userKey z : keyId (userKey z) = Some z.
Proof. unfold keyId. rewrite split_userKey. apply parseInt_pretty. Qed.

(** ** The KV service's [list] and [listIds] *)

(** What [kv.list({ prefix, cursor })] returns: [keys] (their names),
    [list_complete] and [cursor]. *)
Record ListResult := mkListResult {
  lrKeys : list string;
  lrComplete : bool;
  lrCursor : string
}.

(** The KV service's listing, a collaborator of [store.ts]: one page of the
    keys under a prefix, from a cursor ([None] for the first page). *)
Class KVListing := kvList : KV -> string -> option string -> ListResult.

(** What the service documents of its listing, as laws: following the
    cursors from the first page lists every key under the prefix once
    ([kvRest] is what is left to list from a cursor); a page that is not
    the last has a non-empty cursor and brings the end closer ([kvPages]);
    the listing depends on the keys only, not on the values stored. *)
Class KVListingLaws `{KVListing} := {
  kvRest : KV -> string -> option string -> list string;
  kvPages : KV -> string -> option string -> nat;
  kvRest_start kv p : kvRest kv p None ≡ₚ List.filter (String.prefix p) (elements (dom kv));
  kvRest_page kv p c :
    kvRest kv p c = lrKeys (kvList kv p c) ++
      (if lrComplete (kvList kv p c) then [] else kvRest kv p (Some (lrCursor (kvList kv p c))));
  kvPages_next kv p c :
    lrComplete (kvList kv p c) = false -> (kvPages kv p (Some (lrCursor (kvList kv p c))) < kvPages kv p c)%nat;
  kvCursor_nonempty kv p c : lrComplete (kvList kv p c) = false -> lrCursor (kvList kv p c) <> EmptyString;
  kvList_dom kv1 kv2 p c : dom kv1 = dom kv2 -> kvList kv1 p c = kvList kv2 p c
}.

(** [interface IdList]; the ids are JS numbers, [NaN] being [None]. *)
Record IdList := mkIdList {
  ids : list (option Z);
  nextCursor : option string
}.

(** [UserStore.listIds(cursor)]. *)
Definition listIds `{KVListing} (kv : KV) (cursor : option string) : IdList :=
  let l := kvList kv "user:" cursor in
  {| ids := map (fun k => keyId k) (lrKeys l);
     nextCursor := if lrComplete l then None else Some (lrCursor l) |}.

(** ** The ids of a store with well-formed keys *)

(** Every record is under the key of its own id, as [UserStore.set] writes
    it (the first half of [Store.StoreWf]). *)
Definition KeysWf (kv : KV) : Prop := forall k u, kv !! k = Some u -> k = userKey (id u).

Lemma StoreWf_KeysWf kv : StoreWf kv -> KeysWf kv.
Proof. intros Hwf k u Hk. by apply Hwf. Qed.

Lemma KeysWf_set kv u : KeysWf kv -> KeysWf (set u kv).
Proof.
  intros Hwf k v. unfold set. rewrite lookup_insert.
  case_decide as Hk; [intros [= <-]; done|apply Hwf].
Qed.

Lemma KeysWf_keyId kv k : KeysWf kv -> k ∈ dom kv -> exists u, kv !! k = Some u /\ keyId k = Some (id u).
Proof.
  intros Hwf [u Hu]%elem_of_dom. exists u. split; [done|].
  rewrite (Hwf k u Hu). apply keyId_userKey.
Qed.

Lemma prefix_append (s t : string) : String.prefix s (String.append s t) = true.
Proof.
  induction s as [|a s IH]; [by destruct t|]. simpl.
  destruct (ascii_dec a a); [done|congruence].
Qed.

Lemma userKey_prefix z : String.prefix "user:" (userKey z) = true.
Proof. apply prefix_append. Qed.

Lemma omap_keyId_map_to_list (l : list (string * User)) :
  (forall k u, In (k, u) l -> k = userKey (id u)) ->
  omap keyId l.*1 = map (fun ku => id ku.2) l.
Proof.
  induction l as [|[k u] l IH]; intros Hl; [done|]. cbn [fmap list_fmap omap list_omap map fst snd].
  rewrite (Hl k u (or_introl eq_refl)), keyId_userKey, IH; [done|].
  intros k' u' Hin. apply Hl. by right.
Qed.

(** The ids read from all the keys under ["user:"] of a store with
    well-formed keys are the ids of its users, each once. *)
Lemma listed_ids_users kv :
  KeysWf kv ->
  omap keyId (List.filter (String.prefix "user:") (elements (dom kv))) ≡ₚ
  map (fun ku => id ku.2) (map_to_list kv).
Proof.
  intros Hwf. rewrite filter_all_true.
  2:{ intros k Hk%list_elem_of_In%elem_of_elements. apply elem_of_dom in Hk as [u Hu].
      rewrite (Hwf k u Hu). apply userKey_prefix. }
  rewrite (elements_proper _ _ (dom_alt kv)), elements_list_to_set by apply NoDup_fst_map_to_list.
  rewrite omap_keyId_map_to_list; [done|].
  intros k u Hin%list_elem_of_In%elem_of_map_to_list. by apply Hwf.
Qed.

(** A listing that meets the laws: the keys in the order of [elements],
    pages of [n] keys, the cursor being the decimal offset of the next
    page. *)
Module PagedKV.
Definition listedKeys (kv : KV) (p : string) : list string :=
  List.filter (String.prefix p) (elements (dom kv)).

Definition pageOffset (c : option string) : nat :=
  match c ≫= parseInt with Some z => Z.to_nat z | None => 0%nat end.

Definition paged (n : positive) : KVListing := fun kv p c =>
  let ks := listedKeys kv p in
  let o := pageOffset c in
  {| lrKeys := take (Pos.to_nat n) (drop o ks);
     lrComplete := (length ks <=? o + Pos.to_nat n)%nat;
     lrCursor := pretty (Z.of_nat (o + Pos.to_nat n)) |}.

Lemma pageOffset_pretty k : pageOffset (Some (pretty (Z.of_nat k))) = k.
Proof. unfold pageOffset. simpl. rewrite parseInt_pretty. simpl. lia. Qed.

Lemma pretty_Z_nonempty (z : Z) : pretty z <> EmptyString.
Proof.
  destruct z as [|p|p]; [done| |done].
  destruct (pretty_pos_shape p) as (c & t & Hs & _). change (pretty (Z.pos p)) with (pretty (Npos p)).
  by rewrite Hs.
Qed.

#[export] Instance paged_laws n : @KVListingLaws (paged n).
Proof.
  refine {| kvRest kv p c := drop (pageOffset c) (listedKeys kv p);
            kvPages kv p c := (length (listedKeys kv p) - pageOffset c)%nat |}.
  - intros kv p. done.
  - intros kv p c. unfold kvList, paged. cbn [lrKeys lrComplete lrCursor].
    destruct (Nat.leb_spec (length (listedKeys kv p)) (pageOffset c + Pos.to_nat n)).
    + rewrite app_nil_r, take_ge; [done|]. rewrite length_drop. lia.
    + rewrite pageOffset_pretty, <- drop_drop. symmetry. apply take_drop.
  - intros kv p c. unfold kvList, paged. cbn [lrComplete lrCursor]. rewrite pageOffset_pretty.
    intros H%Nat.leb_gt. lia.
  - intros kv p c _. apply pretty_Z_nonempty.
  - intros kv1 kv2 p c Hd. unfold kvList, paged, listedKeys. by rewrite Hd.
Qed.
End PagedKV.

(** C21: on a store whose records are under their own keys, the ids
    [listIds] returns for a page are exactly the ids of the users stored
    under the keys of that page, in the listing's order. *)
Theorem listIds_reads_ids `{KVListing} kv cur :
  KeysWf kv -> (forall k, In k (lrKeys (kvList kv "user:" cur)) -> k ∈ dom kv) ->
  ids (listIds kv cur) = map (fun k => option_map id (kv !! k)) (lrKeys (kvList kv "user:" cur)).
Proof.
  intros Hwf Hin. unfold listIds. cbn [ids]. apply map_ext_in. intros k Hk.
  destruct (KeysWf_keyId kv k Hwf (Hin k Hk)) as (u & Hu & ->). by rewrite Hu.
Qed.

Module ListingExamples.
(** Users 42 and 7, listed one per page. *)
Definition kv2 : KV := set (newUser 7) (set (newUser 42) ∅).

Lemma kv2_wf : KeysWf kv2.
Proof. apply KeysWf_set, KeysWf_set. intros k u. by rewrite lookup_empty. Qed.

Lemma kv2_first_page : lrKeys (PagedKV.paged 1 kv2 "user:" None) = ["user:7"].
Proof. vm_compute. reflexivity. Qed.

Lemma listIds_reads_ids_witness :
  ids (@listIds (PagedKV.paged 1) kv2 None) =
  map (fun k => option_map id (kv2 !! k)) (lrKeys (PagedKV.paged 1 kv2 "user:" None)) /\
  ids (@listIds (PagedKV.paged 1) kv2 None) = [Some 7].
Proof.
  split.
  - apply (@listIds_reads_ids (PagedKV.paged 1) kv2 None kv2_wf).
    intros k Hk. change (In k (lrKeys (PagedKV.paged 1 kv2 "user:" None))) in Hk.
    rewrite kv2_first_page in Hk. destruct Hk as [<-|[]].
    apply elem_of_dom. exists (newUser 7). vm_compute. reflexivity.
  - vm_compute. reflexivity.
Defined.
End ListingExamples.
