(* ===== verification/Sweep.v ===== *)
(** * The all-users sweep: [Bot.fetchAll] of [src/src/bot.ts]

    [fetchAll] pages through the user ids with [store.listIds(cursor)]
    until the cursor is falsy ([do { ... } while (cursor)]).  For each page
    it calls, for every id, [store.get(id)] and then
    [updateUserSubscriptions(user)], all at once, and waits for all of them
    ([Promise.allSettled]): a missing user is logged and skipped, a failed
    update is logged.  Pages run one after another; the users of a page run
    concurrently, so the tasks of all of them interleave and share the feed
    cache.

    A page is a configuration [Page]: the KV store, one [Fanout.Config]
    holding the tasks of all the page's users (and the shared cache, heap
    and logs), and the state of each user's promise ([UserRun]).  [pstep]
    is any step of a task ([Fanout.step]), the arrival of a user's record
    (the user's objects are allocated and its tasks created), or the end of
    a user's update once its tasks have settled (merge-back and write,
    [Fanout.finishUserUpdate]).  [fetchAllFrom] chains the pages.  The
    written ids are logged ([pgWrites]) to state that every user is written
    once per run. *)

From stdpp Require Import base list strings gmap.
From Stdlib Require Import ZArith.
From S2P Require Import Prelude Model Rss Updater Store Fanout Listing.

Open Scope Z_scope.

(** The state of the promise of [idList.ids.map(async (id) => ...)] for
    one id. *)
Inductive UserRun :=
| UGet (n : option Z)                   (** [await this.store.get(id)] pending *)
| URunning (uo : UserObj) (idx : list nat)  (** its tasks are at [idx] in the page's task list *)
| UMissing (n : option Z)               (** [User ${id} not found.] logged *)
| UWritten (i : Z).                     (** merged back and written *)

Record Page := mkPage {
  pgKv : KV;
  pgCore : Config;
  pgUsers : list UserRun;
  pgNext : nat;
  pgWrites : list Z
}.

(** What persists from one page to the next. *)
Record World := mkWorld {
  wKv : KV;
  wCache : gmap string CachedFeed.t;
  wEvents : list NetEvent;
  wSends : list Delivery;
  wClock : Z;
  wWrites : list Z
}.

(** [this.store.get(id)] for a JS number: [NaN] reads the key ["user:NaN"]. *)
Definition getById (n : option Z) (kv : KV) : option User :=
  match n with Some z => get z kv | None => kv !! "user:NaN" end.

(** [JSON.parse] builds fresh objects: the subscriptions of the record are
    allocated at [next], [next + 1], ... *)
Fixpoint allocSubs (next : nat) (subs : list Subscription) (h : Heap) : Heap :=
  match subs with
  | [] => h
  | s :: subs' => <[next := s]> (allocSubs (S next) subs' h)
  end.

Definition setCore (p : Page) (c : Config) : Page :=
  {| pgKv := pgKv p; pgCore := c; pgUsers := pgUsers p; pgNext := pgNext p; pgWrites := pgWrites p |}.

(** The record of user [i] of the page has arrived: unknown, it is logged;
    known, its objects are allocated and [updateUserSubscriptions(user)]
    creates its tasks (no [chatId], so every subscription). *)
Definition getStep (p : Page) (i : nat) (n : option Z) : Page :=
  match getById n (pgKv p) with
  | None =>
      {| pgKv := pgKv p; pgCore := pgCore p; pgUsers := <[i := UMissing n]> (pgUsers p);
         pgNext := pgNext p; pgWrites := pgWrites p |}
  | Some u =>
      let k := length (subscriptions u) in
      let c := pgCore p in
      let h := allocSubs (pgNext p) (subscriptions u) (cfHeap c) in
      let uo := mkUserObj (id u) (seq (pgNext p) k) (defaultRefreshRate u) (postsToLoadOnNewSub u) in
      let c' := {| cfCache := cfCache c; cfHeap := h; cfEvents := cfEvents c; cfSends := cfSends c;
                   cfClock := cfClock c; cfTasks := cfTasks c ++ map TStart (selectSubs h uo None) |} in
      {| pgKv := pgKv p; pgCore := c';
         pgUsers := <[i := URunning uo (seq (length (cfTasks c)) k)]> (pgUsers p);
         pgNext := pgNext p + k; pgWrites := pgWrites p |}
  end.

(** The settled tasks of one user, in order. *)
Definition userTasks (c : Config) (idx : list nat) : list Task := omap (fun j => cfTasks c !! j) idx.

Definition userSettled (c : Config) (idx : list nat) : bool :=
  forallb (fun j => match cfTasks c !! j with Some t => taskDone t | None => false end) idx.

(** The end of [updateUserSubscriptions(user)] for user [i]: the merge-back
    over its own tasks' results and the single write. *)
Definition finishStep (p : Page) (i : nat) (uo : UserObj) (idx : list nat) : Page :=
  let c := pgCore p in
  let cu := {| cfCache := cfCache c; cfHeap := cfHeap c; cfEvents := cfEvents c; cfSends := cfSends c;
               cfClock := cfClock c; cfTasks := userTasks c idx |} in
  {| pgKv := (finishUserUpdate cu uo (pgKv p)).2; pgCore := c;
     pgUsers := <[i := UWritten (uoId uo)]> (pgUsers p);
     pgNext := pgNext p; pgWrites := pgWrites p ++ [uoId uo] |}.

Section Page.
Context `{Platform} (net : Network).

Inductive pstep : Page -> Page -> Prop :=
| pstep_task p c' : step net (pgCore p) c' -> pstep p (setCore p c')
| pstep_get p i n : pgUsers p !! i = Some (UGet n) -> pstep p (getStep p i n)
| pstep_finish p i uo idx :
    pgUsers p !! i = Some (URunning uo idx) -> userSettled (pgCore p) idx = true ->
    pstep p (finishStep p i uo idx).

Inductive pstar : Page -> Page -> Prop :=
| pstar_refl p : pstar p p
| pstar_step p1 p2 p3 : pstep p1 p2 -> pstar p2 p3 -> pstar p1 p3.
End Page.

Definition userEnded (r : UserRun) : bool :=
  match r with UMissing _ | UWritten _ => true | _ => false end.

(** [Promise.allSettled] of the page has resolved. *)
Definition pageDone (p : Page) : bool := forallb userEnded (pgUsers p).

Definition pageInit (w : World) (ns : list (option Z)) : Page :=
  {| pgKv := wKv w;
     pgCore := {| cfCache := wCache w; cfHeap := ∅; cfEvents := wEvents w; cfSends := wSends w;
                  cfClock := wClock w; cfTasks := [] |};
     pgUsers := map UGet ns; pgNext := 0; pgWrites := wWrites w |}.

Definition pageWorld (p : Page) : World :=
  {| wKv := pgKv p; wCache := cfCache (pgCore p); wEvents := cfEvents (pgCore p);
     wSends := cfSends (pgCore p); wClock := cfClock (pgCore p); wWrites := pgWrites p |}.

Section Sweep.
Context `{Platform} `{KVListing} (net : Network).

(** The loop of [fetchAll] from a cursor: list a page, run it until every
    user has settled, go on while the cursor is truthy ([while (cursor)]:
    [null] and [""] end the loop). *)
Inductive fetchAllFrom : option string -> World -> World -> Prop :=
| fa_last cur w p' :
    pstar net (pageInit w (ids (listIds (wKv w) cur))) p' -> pageDone p' = true ->
    js_truthy_str (nextCursor (listIds (wKv w) cur)) = false ->
    fetchAllFrom cur w (pageWorld p')
| fa_next cur w p' c w' :
    pstar net (pageInit w (ids (listIds (wKv w) cur))) p' -> pageDone p' = true ->
    nextCursor (listIds (wKv w) cur) = Some c -> js_truthy_str (Some c) = true ->
    fetchAllFrom (Some c) (pageWorld p') w' ->
    fetchAllFrom cur w w'.

(** [fetchAll()]: [let cursor = undefined]. *)
Definition fetchAll (w w' : World) : Prop := fetchAllFrom None w w'.
End Sweep.

(** ** The objects of a user read from the store *)

Lemma allocSubs_lookup n subs h i :
  (i < length subs)%nat -> allocSubs n subs h !! (n + i)%nat = subs !! i.
Proof.
  revert n i. induction subs as [|s subs IH]; intros n i Hi; simpl in *; [lia|].
  rewrite lookup_insert. case_decide as Hn.
  - assert (i = 0%nat) as -> by lia. done.
  - destruct i as [|i]; [lia|]. replace (n + S i)%nat with (S n + i)%nat by lia. apply IH. lia.
Qed.

(** Reading the objects back through their references gives the record's
    subscriptions. *)
Lemma allocSubs_seq n subs h : map (subAt (allocSubs n subs h)) (seq n (length subs)) = subs.
Proof.
  revert n. induction subs as [|s subs IH]; intros n; [done|]. cbn [length seq map allocSubs].
  unfold subAt at 1. rewrite lookup_insert, decide_True by done. f_equal.
  rewrite <- (IH (S n)) at 3. apply map_ext_in. intros l Hl%in_seq.
  unfold subAt. by rewrite lookup_insert_ne by lia.
Qed.

(** Allocation never touches an object below [next]. *)
Lemma allocSubs_low n subs h l : (l < n)%nat -> allocSubs n subs h !! l = h !! l.
Proof.
  revert n. induction subs as [|s subs IH]; intros n Hl; [done|]. cbn [allocSubs].
  rewrite lookup_insert_ne by lia. apply IH. lia.
Qed.

(** ** The feed cache across a run *)

(** The cache keeps [f] at [u] and the page's tasks hold objects below the
    allocation pointer. *)
Definition PageKept (u : string) (f : CachedFeed.t) (p : Page) : Prop :=
  CacheKept u f (pgCore p) /\ forall l, In l (map taskLoc (cfTasks (pgCore p))) -> (l < pgNext p)%nat.

Section PageKept.
Context `{Platform} (net : Network) (u : string) (f : CachedFeed.t).

Lemma getStep_kept p i n : PageKept u f p -> PageKept u f (getStep p i n).
Proof.
  intros [[Hc Hinv] Hlow]. unfold getStep. destruct (getById n (pgKv p)) as [usr|]; [|done].
  cbn [pgCore pgNext cfCache cfTasks cfHeap]. unfold selectSubs. cbn [uoSubs].
  split; [split; [done|]|].
  - intros j t Hj Ha. apply lookup_app_Some in Hj as [Hj|[_ Hj]].
    + assert (Hl : (taskLoc t < pgNext p)%nat).
      { apply Hlow, in_map, list_elem_of_In. by eapply list_elem_of_lookup_2. }
      unfold subAt. cbn [pgCore cfHeap]. rewrite allocSubs_low by done. exact (Hinv j t Hj Ha).
    + apply list_lookup_fmap_Some in Hj as (l & -> & _). discriminate.
  - intros l. cbn [pgCore cfTasks pgNext]. rewrite map_app, map_map. cbn [taskLoc]. rewrite map_id. intros [Hl|Hl%in_seq]%in_app_or; [|lia].
    specialize (Hlow l Hl). lia.
Qed.

Lemma pstep_kept p p' : pstep net p p' -> PageKept u f p -> PageKept u f p'.
Proof.
  intros Hs Hk. destruct Hs as [p c' Hs|p i n _|p i uo idx _ _]; [|by apply getStep_kept|done].
  destruct Hk as [Hk Hlow]. destruct (step_frame net _ _ Hs) as [_ Hl]. split.
  - exact (step_kept net u f _ _ Hs Hk).
  - cbn [pgCore pgNext setCore]. rewrite Hl. exact Hlow.
Qed.

Lemma pstar_kept p p' : pstar net p p' -> PageKept u f p -> PageKept u f p'.
Proof. induction 1 as [p|p1 p2 p3 Hs _ IH]; [done|]. intros Hk. by apply IH, (pstep_kept p1). Qed.

Lemma pageInit_kept w ns : wCache w !! u = Some f -> PageKept u f (pageInit w ns).
Proof. intros Hw. split; [split; [done|]|]; intros ? ?; cbn; [by rewrite lookup_nil|done]. Qed.
End PageKept.

Lemma fetchAllFrom_kept `{Platform} `{KVListing} net u f cur w w' :
  fetchAllFrom net cur w w' -> wCache w !! u = Some f -> wCache w' !! u = Some f.
Proof.
  induction 1 as [cur w p' Hrun _ _|cur w p' c w' Hrun _ _ _ _ IH]; intros Hw.
  - exact (proj1 (proj1 (pstar_kept net u f _ _ Hrun (pageInit_kept u f w _ Hw)))).
  - apply IH. exact (proj1 (proj1 (pstar_kept net u f _ _ Hrun (pageInit_kept u f w _ Hw)))).
Qed.

(** ** Every user is written once per run *)

(** The ids a page will still write: pending lookups and running users. *)
Definition runIds (r : UserRun) : list Z :=
  match r with UGet (Some z) => [z] | URunning uo _ => [uoId uo] | _ => [] end.

Definition pendingIds (rs : list UserRun) : list Z := flat_map runIds rs.

(** A user of a page whose key is among the keys [D] of the store. *)
Definition runOk (D : gset string) (r : UserRun) : Prop :=
  match r with
  | UGet n => exists z, n = Some z /\ userKey z ∈ D
  | URunning uo _ => userKey (uoId uo) ∈ D
  | UMissing _ => False
  | UWritten _ => True
  end.

(** The invariant of a page: the keys stay [D], every user is found, and
    the ids written and still to write are [W]. *)
Definition PageInv (D : gset string) (W : list Z) (p : Page) : Prop :=
  KeysWf (pgKv p) /\ dom (pgKv p) = D /\ Forall (runOk D) (pgUsers p) /\
  pgWrites p ++ pendingIds (pgUsers p) ≡ₚ W.

Lemma get_found kv z : KeysWf kv -> userKey z ∈ dom kv -> exists u, get z kv = Some u /\ id u = z.
Proof.
  intros Hwf [u Hu]%elem_of_dom. exists u. split; [done|].
  apply userKey_inj. symmetry. by apply Hwf.
Qed.

Lemma finishUserUpdate_kv c uo kv :
  exists u, (finishUserUpdate c uo kv).2 = set u kv /\ id u = uoId uo.
Proof. eexists. split; reflexivity. Qed.

Lemma set_dom u kv : userKey (id u) ∈ dom kv -> dom (set u kv) = dom kv.
Proof. intros Hk. unfold set. rewrite dom_insert_L. apply subseteq_union_1_L. by apply singleton_subseteq_l. Qed.

Lemma pendingIds_insert rs i r r' :
  rs !! i = Some r -> pendingIds (<[i := r']> rs) ++ runIds r ≡ₚ pendingIds rs ++ runIds r'.
Proof. apply flat_map_insert. Qed.

Section PageInvariant.
Context `{Platform} (net : Network) (D : gset string) (W : list Z).

Lemma getStep_inv p i n : pgUsers p !! i = Some (UGet n) -> PageInv D W p -> PageInv D W (getStep p i n).
Proof.
  intros Hi (Hwf & Hdom & Hok & Hw).
  destruct (Forall_lookup_1 _ _ _ _ Hok Hi) as (z & -> & Hz).
  destruct (get_found (pgKv p) z Hwf ltac:(by rewrite Hdom)) as (u & Hu & <-).
  unfold getStep. cbn [getById]. rewrite Hu. cbn [pgKv pgUsers pgWrites].
  split; [done|split; [done|split]].
  - by apply Forall_insert.
  - pose proof (pendingIds_insert _ _ _ (URunning (mkUserObj (id u) (seq (pgNext p) (length (subscriptions u)))
      (defaultRefreshRate u) (postsToLoadOnNewSub u)) (seq (length (cfTasks (pgCore p))) (length (subscriptions u)))) Hi) as Hp.
    simpl in Hp. apply Permutation_app_inv_r in Hp. by rewrite Hp.
Qed.

Lemma finishStep_inv p i uo idx :
  pgUsers p !! i = Some (URunning uo idx) -> PageInv D W p -> PageInv D W (finishStep p i uo idx).
Proof.
  intros Hi (Hwf & Hdom & Hok & Hw). pose proof (Forall_lookup_1 _ _ _ _ Hok Hi) as Hk. simpl in Hk.
  unfold finishStep. cbn [pgKv pgUsers pgWrites].
  match goal with |- context [finishUserUpdate ?c uo (pgKv p)] =>
    destruct (finishUserUpdate_kv c uo (pgKv p)) as (u & -> & Hid) end.
  split; [by apply KeysWf_set|split; [cbn; rewrite set_dom; [done|by rewrite Hid, Hdom]|split]].
  - by apply Forall_insert.
  - cbn. pose proof (pendingIds_insert _ _ _ (UWritten (uoId uo)) Hi) as Hp. simpl in Hp.
    rewrite app_nil_r in Hp. rewrite <- Hw, <- app_assoc, <- Hp. solve_Permutation.
Qed.

Lemma pstep_inv p p' : pstep net p p' -> PageInv D W p -> PageInv D W p'.
Proof.
  intros [p0 c' _|p0 i n Hi|p0 i uo idx Hi _].
  - by destruct p0.
  - by apply getStep_inv.
  - by apply finishStep_inv.
Qed.

Lemma pstar_inv p p' : pstar net p p' -> PageInv D W p -> PageInv D W p'.
Proof. induction 1; eauto using pstep_inv. Qed.
End PageInvariant.

Lemma pageDone_writes D W p : PageInv D W p -> pageDone p = true -> pgWrites p ≡ₚ W.
Proof.
  intros (_ & _ & Hok & Hw) Hd. rewrite <- Hw. unfold pageDone in Hd.
  enough (pendingIds (pgUsers p) = []) as -> by by rewrite app_nil_r.
  induction (pgUsers p) as [|r rs IH]; [done|].
  simpl in Hd. apply andb_prop in Hd as [Hr Hd]. inversion Hok as [|? ? Hr' Hok']; subst.
  destruct r; try discriminate; [done|]. apply IH; done.
Qed.

Lemma pageInit_inv w ks :
  KeysWf (wKv w) -> (forall k, In k ks -> k ∈ dom (wKv w)) ->
  PageInv (dom (wKv w)) (wWrites w ++ omap keyId ks) (pageInit w (map keyId ks)).
Proof.
  intros Hwf Hks. unfold PageInv, pageInit. cbn [pgKv pgUsers pgWrites].
  split; [done|split; [done|split]].
  - apply Forall_forall. intros r (n & <- & (k & <- & Hk)%in_map_iff)%list_elem_of_In%in_map_iff.
    destruct (KeysWf_keyId _ k Hwf (Hks k Hk)) as (u & Hu & ->). exists (id u). split; [done|].
    rewrite <- (Hwf k u Hu). by apply Hks.
  - enough (pendingIds (map UGet (map keyId ks)) = omap keyId ks) as -> by done.
    clear Hks. induction ks as [|k ks IH]; [done|]. simpl. by destruct (keyId k); rewrite IH.
Qed.

Section SweepProps.
Context `{Platform} `{KVListingLaws} (net : Network).

Lemma listIds_dom kv kv0 cur : dom kv = dom kv0 -> listIds kv cur = listIds kv0 cur.
Proof. intros Hd. unfold listIds. by rewrite (kvList_dom kv kv0). Qed.

Lemma cursor_last kv c :
  js_truthy_str (nextCursor (listIds kv c)) = false -> kvRest kv "user:" c = lrKeys (kvList kv "user:" c).
Proof.
  unfold listIds. cbn [nextCursor]. rewrite kvRest_page.
  destruct (lrComplete _) eqn:E; [by rewrite app_nil_r|]. intros Ht. exfalso.
  apply (kvCursor_nonempty kv "user:" c E). simpl in Ht.
  apply negb_false_iff, String.eqb_eq in Ht. done.
Qed.

Lemma cursor_next kv c c' :
  nextCursor (listIds kv c) = Some c' ->
  kvRest kv "user:" c = lrKeys (kvList kv "user:" c) ++ kvRest kv "user:" (Some c').
Proof.
  unfold listIds. cbn [nextCursor]. rewrite kvRest_page.
  destruct (lrComplete _); [done|]. by intros [= ->].
Qed.

(** One page, run to its end: its users' ids are written, the keys and
    their well-formedness are kept. *)
Lemma page_writes w ks p' :
  KeysWf (wKv w) -> (forall k, In k ks -> k ∈ dom (wKv w)) ->
  pstar net (pageInit w (map keyId ks)) p' -> pageDone p' = true ->
  pgWrites p' ≡ₚ wWrites w ++ omap keyId ks /\ KeysWf (pgKv p') /\ dom (pgKv p') = dom (wKv w).
Proof.
  intros Hwf Hks Hrun Hdone.
  pose proof (pstar_inv net _ _ _ _ Hrun (pageInit_inv w ks Hwf Hks)) as Hinv.
  split; [by eapply pageDone_writes|]. destruct Hinv as (? & ? & _). done.
Qed.

Lemma sweep_writes kv0 cur w w' :
  fetchAllFrom net cur w w' -> KeysWf (wKv w) -> dom (wKv w) = dom kv0 ->
  (forall k, In k (kvRest kv0 "user:" cur) -> k ∈ dom kv0) ->
  wWrites w' ≡ₚ wWrites w ++ omap keyId (kvRest kv0 "user:" cur) /\
  KeysWf (wKv w') /\ dom (wKv w') = dom kv0.
Proof.
  induction 1 as [cur w p' Hrun Hdone Hlast|cur w p' c w' Hrun Hdone Hnext Htr _ IH];
    intros Hwf Hdom Hrest; rewrite (listIds_dom _ kv0) in * by done.
  - rewrite (cursor_last kv0 cur Hlast) in *.
    destruct (page_writes w _ p' Hwf ltac:(intros k Hk; rewrite Hdom; by apply Hrest) Hrun Hdone)
      as (Hw & Hwf' & Hdom'). unfold pageWorld. cbn [wWrites wKv]. rewrite Hw, Hdom'. done.
  - rewrite (cursor_next kv0 cur c Hnext) in *.
    destruct (page_writes w _ p' Hwf ltac:(intros k Hk; rewrite Hdom; apply Hrest, in_or_app; by left) Hrun Hdone)
      as (Hw & Hwf' & Hdom').
    destruct IH as (IHw & ? & ?); [exact Hwf'|exact (eq_trans Hdom' Hdom)|
                                   intros k Hk; apply Hrest, in_or_app; by right|].
    split; [|done]. rewrite IHw. unfold pageWorld. cbn [wWrites]. rewrite Hw, omap_app, app_assoc. done.
Qed.
End SweepProps.

(** C16: with a KV listing that meets its laws, every run of [fetchAll] on
    a store whose records are under their own keys writes every user of
    the store exactly once, and nothing else: the ids written during the run
    are, up to order, the ids of the users present when it started.  This
    holds for every interleaving of the tasks and users of each page. *)
Theorem fetchAll_writes_each_user_once `{Platform} `{KVListingLaws} net w w' :
  KeysWf (wKv w) -> fetchAll net w w' ->
  wWrites w' ≡ₚ wWrites w ++ map (fun ku => id ku.2) (map_to_list (wKv w)).
Proof.
  intros Hwf Hrun.
  assert (Hrest : forall k, In k (kvRest (wKv w) "user:" None) -> k ∈ dom (wKv w)).
  { intros k Hk. apply list_elem_of_In in Hk. rewrite kvRest_start in Hk.
    apply list_elem_of_In, filter_In in Hk as [Hk _]. by apply elem_of_elements, list_elem_of_In. }
  destruct (sweep_writes net (wKv w) None w w' Hrun Hwf eq_refl Hrest) as (Hw & _).
  rewrite Hw, kvRest_start, listed_ids_users by done. done.
Qed.

(** ** Every run of [fetchAll] can end *)

(** How far the users of a page are from settling. *)
Definition userWeight (r : UserRun) : nat :=
  match r with UGet _ => 2 | URunning _ _ => 1 | _ => 0 end%nat.

Definition pageMeasure (p : Page) : nat := list_sum (map userWeight (pgUsers p)).

(** The task indices a running user holds are indices of the task list. *)
Definition IdxOk (p : Page) : Prop :=
  forall i uo idx j, pgUsers p !! i = Some (URunning uo idx) -> In j idx ->
  (j < length (cfTasks (pgCore p)))%nat.

Lemma users_insert_running (rs : list UserRun) i r i' uo idx :
  <[i := r]> rs !! i' = Some (URunning uo idx) ->
  (i = i' /\ r = URunning uo idx) \/ rs !! i' = Some (URunning uo idx).
Proof. intros [(-> & -> & _)|(_ & H)]%list_lookup_insert_Some; [by left|by right]. Qed.

Lemma getStep_idx p i n : IdxOk p -> IdxOk (getStep p i n).
Proof.
  intros Hok i' uo idx j. unfold getStep. destruct (getById n (pgKv p)) as [u|].
  - cbn [pgUsers pgCore cfTasks]. rewrite length_app, length_map. unfold selectSubs. cbn [uoSubs].
    rewrite length_seq. intros [[_ [= _ <-]]|Hi]%users_insert_running Hj.
    + apply in_seq in Hj. lia.
    + specialize (Hok i' uo idx j Hi Hj). lia.
  - cbn [pgUsers pgCore]. intros [[_ [=]]|Hi]%users_insert_running. by apply (Hok i' uo idx j).
Qed.

Lemma finishStep_idx p i uo idx : IdxOk p -> IdxOk (finishStep p i uo idx).
Proof.
  intros Hok i' uo' idx' j. unfold finishStep. cbn [pgUsers pgCore].
  intros [[_ [=]]|Hi]%users_insert_running. by apply (Hok i' uo' idx' j).
Qed.

Lemma pageMeasure_insert (rs : list UserRun) i r r' :
  rs !! i = Some r -> (userWeight r' < userWeight r)%nat ->
  (list_sum (map userWeight (<[i := r']> rs)) < list_sum (map userWeight rs))%nat.
Proof. intros Hi Hw. pose proof (list_sum_map_insert userWeight rs i r r' Hi). lia. Qed.

Lemma getStep_measure p i n :
  pgUsers p !! i = Some (UGet n) -> (pageMeasure (getStep p i n) < pageMeasure p)%nat.
Proof.
  intros Hi. unfold pageMeasure, getStep. destruct (getById n (pgKv p));
    cbn [pgUsers]; eapply pageMeasure_insert; eauto; simpl; lia.
Qed.

Lemma finishStep_measure p i uo idx :
  pgUsers p !! i = Some (URunning uo idx) -> (pageMeasure (finishStep p i uo idx) < pageMeasure p)%nat.
Proof. intros Hi. unfold pageMeasure, finishStep. cbn [pgUsers]. eapply pageMeasure_insert; eauto. Qed.

Lemma userSettled_allDone c idx :
  allDone c = true -> (forall j, In j idx -> (j < length (cfTasks c))%nat) -> userSettled c idx = true.
Proof.
  unfold userSettled, allDone. intros Hd Hj. apply forallb_forall. intros j Hin.
  destruct (lookup_lt_is_Some_2 (cfTasks c) j (Hj j Hin)) as [t Ht]. rewrite Ht.
  apply (proj1 (forallb_forall _ _) Hd t). apply list_elem_of_In. by eapply list_elem_of_lookup_2.
Qed.

Section Liveness.
Context `{Platform} (net : Network).

Lemma step_length c c' : step net c c' -> length (cfTasks c') = length (cfTasks c).
Proof. intros Hs. destruct (step_moves net c c' Hs) as (i & t & t' & _ & -> & _). apply length_insert. Qed.

(** Whatever the network answers, the users of a page can all settle: run
    the tasks until none can move, then look a user up or end one. *)
Lemma page_completes p : IdxOk p -> exists p', pstar net p p' /\ pageDone p' = true.
Proof.
  remember (pageMeasure p) as n eqn:Hn. revert p Hn.
  induction n as [n IHn] using (well_founded_induction lt_wf). intros p Hn.
  remember (measure (pgCore p)) as m eqn:Hm. revert p Hn Hm.
  induction m as [m IHm] using (well_founded_induction lt_wf). intros p Hn Hm Hidx.
  destruct (allDone (pgCore p)) eqn:Hd.
  - destruct (pageDone p) eqn:Hpd; [exists p; split; [constructor|done]|].
    apply forallb_false_In in Hpd as (r & Hin & Hr).
    apply list_elem_of_In, list_elem_of_lookup in Hin as [i Hi].
    destruct r as [n0|uo idx| |]; try discriminate.
    + destruct (IHn _ (eq_ind_r (fun x => _ < x)%nat (getStep_measure p i n0 Hi) Hn) (getStep p i n0) eq_refl
                  (getStep_idx p i n0 Hidx)) as (p' & Hrun & Hdone).
      exists p'. split; [|done]. eapply pstar_step; [by apply pstep_get|done].
    + destruct (IHn _ (eq_ind_r (fun x => _ < x)%nat (finishStep_measure p i uo idx Hi) Hn)
                  (finishStep p i uo idx) eq_refl (finishStep_idx p i uo idx Hidx)) as (p' & Hrun & Hdone).
      exists p'. split; [|done]. eapply pstar_step; [|done].
      apply pstep_finish; [done|]. apply userSettled_allDone; [done|]. intros j. by apply (Hidx i uo idx j).
  - destruct (step_progress net (pgCore p) Hd) as [c' Hs].
    assert (Hidx' : IdxOk (setCore p c')).
    { intros i uo idx j Hi Hj. change (j < length (cfTasks c'))%nat. rewrite (step_length _ _ Hs).
      by apply (Hidx i uo idx j). }
    destruct (IHm _ (eq_ind_r (fun x => _ < x)%nat (step_measure net _ _ Hs) Hm) (setCore p c') Hn eq_refl Hidx')
      as (p' & Hrun & Hdone).
    exists p'. split; [|done]. eapply pstar_step; [by apply pstep_task|done].
Qed.
End Liveness.

Lemma pageInit_idx w ns : IdxOk (pageInit w ns).
Proof.
  intros i uo idx j. cbn [pageInit pgUsers]. rewrite list_lookup_fmap.
  by destruct (ns !! i).
Qed.

Section SweepLiveness.
Context `{Platform} `{KVListingLaws} (net : Network).

Lemma sweep_completes kv0 cur w :
  KeysWf (wKv w) -> dom (wKv w) = dom kv0 ->
  (forall k, In k (kvRest kv0 "user:" cur) -> k ∈ dom kv0) ->
  exists w', fetchAllFrom net cur w w'.
Proof.
  remember (kvPages kv0 "user:" cur) as n eqn:Hn. revert cur w Hn.
  induction n as [n IH] using (well_founded_induction lt_wf). intros cur w Hn Hwf Hdom Hrest.
  assert (Hks : forall k, In k (lrKeys (kvList kv0 "user:" cur)) -> k ∈ dom (wKv w)).
  { intros k Hk. rewrite Hdom. apply Hrest. rewrite kvRest_page. apply in_or_app. by left. }
  destruct (page_completes net (pageInit w (ids (listIds (wKv w) cur))) (pageInit_idx _ _)) as (p' & Hrun & Hdone).
  pose proof Hrun as Hrun'. rewrite (listIds_dom _ kv0) in Hrun' by done.
  destruct (page_writes net w _ p' Hwf Hks Hrun' Hdone) as (_ & Hwf' & Hdom').
  destruct (lrComplete (kvList kv0 "user:" cur)) eqn:E.
  - exists (pageWorld p'). apply fa_last; [done|done|]. rewrite (listIds_dom _ kv0) by done.
    unfold listIds. cbn [nextCursor]. by rewrite E.
  - assert (Hc : nextCursor (listIds (wKv w) cur) = Some (lrCursor (kvList kv0 "user:" cur))).
    { rewrite (listIds_dom _ kv0) by done. unfold listIds. cbn [nextCursor]. by rewrite E. }
    destruct (IH (kvPages kv0 "user:" (Some (lrCursor (kvList kv0 "user:" cur))))
                 (eq_ind_r (fun x => _ < x)%nat (kvPages_next kv0 "user:" cur E) Hn) _ (pageWorld p') eq_refl
                 Hwf' (eq_trans Hdom' Hdom)) as [w' Hw'].
    { intros k Hk. apply Hrest. rewrite (cursor_next kv0 cur _ ltac:(by rewrite <- (listIds_dom (wKv w))) ).
      apply in_or_app. by right. }
    exists w'. eapply fa_next; [exact Hrun|done|exact Hc| |exact Hw'].
    simpl. apply negb_true_iff, String.eqb_neq. by apply kvCursor_nonempty.
Qed.
End SweepLiveness.

(** C17: with a KV listing that meets its laws, [fetchAll] on a store whose
    records are under their own keys always has a complete run, whatever
    the feeds answer: the cursor loop reaches its last page and every page
    reaches the end of its [Promise.allSettled]. *)
Theorem fetchAll_completes `{Platform} `{KVListingLaws} net w :
  KeysWf (wKv w) -> exists w', fetchAll net w w'.
Proof.
  intros Hwf. apply (sweep_completes net (wKv w) None w Hwf eq_refl).
  intros k Hk. apply list_elem_of_In in Hk. rewrite kvRest_start in Hk.
  apply list_elem_of_In, filter_In in Hk as [Hk _]. by apply elem_of_elements, list_elem_of_In.
Qed.

Module SweepExamples.
Import TestPlatform.

(** Users 7 (one subscription to [F], never fetched) and 42 (none), listed
    one per page, at time 10. *)
Definition kvA : KV := set (setSubscriptions (newUser 7) [subF 7 0]) (set (newUser 42) ∅).

Definition w0 : World :=
  {| wKv := kvA; wCache := ∅; wEvents := []; wSends := []; wClock := 10; wWrites := [] |}.

Lemma kvA_wf : KeysWf kvA.
Proof. apply KeysWf_set, KeysWf_set. intros k u. by rewrite lookup_empty. Qed.

(** The pages of the run below, one per step. *)
Definition runningOf (p : Page) (i : nat) : UserObj * list nat :=
  match pgUsers p !! i with Some (URunning uo idx) => (uo, idx) | _ => (mkUserObj 0 [] None None, []) end.

Definition sendingOf (c : Config) (i : nat) : Update :=
  match cfTasks c !! i with Some (TSending _ u) => u | _ => mkUpdate (newSubscription 0 "") None [] end.

Definition pg0 : Page := pageInit w0 (ids (@listIds (PagedKV.paged 1) kvA None)).
Definition pg1 : Page := getStep pg0 0 (Some 7).
Definition pg2 : Page := setCore pg1 (@startStep platform (pgCore pg1) 0 0).
Definition pg3 : Page := setCore pg2 (@fetchedStep netF (pgCore pg2) 0 0 NoCondition).
Definition pg4 : Page := setCore pg3 (@readStep platform (pgCore pg3) 0 0 (Some "v1") "F-body" 11).
Definition pg5 : Page := setCore pg4 (setTask (pgCore pg4) 0 (TDone 0 (Ok (sendingOf (pgCore pg4) 0)))).
Definition pg6 : Page := finishStep pg5 0 (runningOf pg5 0).1 (runningOf pg5 0).2.

Definition ph0 : Page := pageInit (pageWorld pg6) (ids (@listIds (PagedKV.paged 1) (pgKv pg6) (Some "1"))).
Definition ph1 : Page := getStep ph0 0 (Some 42).
Definition ph2 : Page := finishStep ph1 0 (runningOf ph1 0).1 (runningOf ph1 0).2.

Lemma page1_run : @pstar platform netF pg0 pg6.
Proof.
  eapply pstar_step; [apply (pstep_get _ pg0 0 (Some 7)); vm_compute; reflexivity|].
  eapply pstar_step; [apply (pstep_task _ pg1), (step_start _ _ 0 0); vm_compute; reflexivity|].
  eapply pstar_step; [apply (pstep_task _ pg2), (step_fetched _ _ 0 0 NoCondition); vm_compute; reflexivity|].
  eapply pstar_step; [apply (pstep_task _ pg3), (step_read _ _ 0 0 (Some "v1") "F-body" 11);
                      [vm_compute; reflexivity|apply Z.leb_le; vm_compute; reflexivity]|].
  eapply pstar_step; [apply (pstep_task _ pg4), (step_settled _ _ 0 0); vm_compute; reflexivity|].
  eapply pstar_step; [apply (pstep_finish _ pg5 0); vm_compute; reflexivity|].
  apply pstar_refl.
Qed.

Lemma page2_run : @pstar platform netF ph0 ph2.
Proof.
  eapply pstar_step; [apply (pstep_get _ ph0 0 (Some 42)); vm_compute; reflexivity|].
  eapply pstar_step; [apply (pstep_finish _ ph1 0); vm_compute; reflexivity|].
  apply pstar_refl.
Qed.

Lemma w0_run : @fetchAll platform (PagedKV.paged 1) netF w0 (pageWorld ph2).
Proof.
  unfold fetchAll. apply (fa_next _ _ _ pg6 "1").
  - exact page1_run.
  - vm_compute. reflexivity.
  - vm_compute. reflexivity.
  - reflexivity.
  - apply fa_last; [exact page2_run|vm_compute; reflexivity..].
Qed.

Lemma fetchAll_writes_each_user_once_witness :
  KeysWf (wKv w0) /\
  wWrites (pageWorld ph2) ≡ₚ wWrites w0 ++ map (fun ku => id ku.2) (map_to_list (wKv w0)).
Proof.
  split; [exact kvA_wf|].
  exact (@fetchAll_writes_each_user_once platform (PagedKV.paged 1) (PagedKV.paged_laws 1) netF w0 (pageWorld ph2) kvA_wf w0_run).
Defined.

Lemma fetchAll_completes_witness :
  KeysWf (wKv w0) /\ exists w', @fetchAll platform (PagedKV.paged 1) netDown w0 w'.
Proof.
  split; [exact kvA_wf|].
  exact (@fetchAll_completes platform (PagedKV.paged 1) (PagedKV.paged_laws 1) netDown w0 kvA_wf).
Defined.

(** The sweep on two pages: user 7's first fetch of [F] at time 11
    sends the 5 newest posts of the feed to chat 7 and stores the new
    watermark and validator; user 42, with no subscription, is written
    unchanged; the feed was requested and parsed once. *)
Example sweep_scenario :
  wWrites (pageWorld ph2) = [7; 42] /\
  map dChat (wSends (pageWorld ph2)) = [7; 7; 7; 7; 7] /\
  map (fun d => pubDate (dPost d)) (wSends (pageWorld ph2)) = [10; 9; 8; 7; 6] /\
  get 7 (wKv (pageWorld ph2)) = Some (setSubscriptions (newUser 7) [setFetched (subF 7 0) 11 (Some "v1")]) /\
  get 42 (wKv (pageWorld ph2)) = Some (newUser 42) /\
  wEvents (pageWorld ph2) = [Parse "F"; Request "F" NoCondition].
Proof. vm_compute. repeat split. Qed.
End SweepExamples.
