(* ===== verification/Bot.v ===== *)
(** * The command layer: [Command], [Bot.exec] and its handlers ([src/src/bot.ts])

    A Telegram message goes through [new Command(text)], which matches
    [/^\/(\w+)(?:\s+(.+))?$/] and maps the first capture to a
    [CommandType], and [Bot.exec], which dispatches on the type inside a
    [try] whose [catch] replies ["Error: ${e}"] to the chat.

    The regular expression is matched the way a backtracking engine does:
    [starMatch] and [plusMatch] try the longest run first and hand the rest
    of the input to the continuation (the rest of the pattern), falling
    back to shorter runs.  Characters are Latin-1 code units ([ascii]).

    The handlers are written in a state-and-error monad [M] (stdpp's
    [MRet]/[MBind] and [x ← m; k] notation): the state [BotState] holds the
    KV store, the Telegram API calls made, and the fan-out's cache, logs
    and clock; an [Exn] is a thrown exception, which keeps the effects made
    before it, as in JS.  The Telegram API calls are outputs that resolve;
    [fetch(url)] is the [Network] of [Updater.v] with no condition header,
    [None] being a rejected fetch.  The [/fetch] command ends in
    [updateUserSubscriptions(user, chatId)], whose tasks interleave: [exec]
    is the relation [execR], which runs them with [Fanout.step]. *)

From stdpp Require Import base list strings gmap.
From Stdlib Require Import ZArith Ascii.
From S2P Require Import Prelude Model Rss Updater Store Fanout Listing Sweep.

Open Scope Z_scope.

(** ** [Command] *)

(** [enum CommandType] *)
Inductive CommandType := SUBSCRIBE | UNSUBSCRIBE | UNSUBSCRIBE_ALL | LIST | HELP | FETCH | UNKNOWN.

(** The string values of the enum. *)
Definition commandString (t : CommandType) : string :=
  match t with
  | SUBSCRIBE => "sub" | UNSUBSCRIBE => "unsub" | UNSUBSCRIBE_ALL => "unsub_all"
  | LIST => "list" | HELP => "help" | FETCH => "fetch" | UNKNOWN => "unknown"
  end.

(** [parseCommandType]: the [switch] on the string values; ["unknown"] is
    not a case and falls to the default. *)
Definition parseCommandType (s : string) : CommandType :=
  if String.eqb s "sub" then SUBSCRIBE
  else if String.eqb s "unsub" then UNSUBSCRIBE
  else if String.eqb s "unsub_all" then UNSUBSCRIBE_ALL
  else if String.eqb s "list" then LIST
  else if String.eqb s "help" then HELP
  else if String.eqb s "fetch" then FETCH
  else UNKNOWN.

(** [\w]: [[A-Za-z0-9_]]. *)
Definition isWordChar (c : ascii) : bool :=
  let n := nat_of_ascii c in
  ((48 <=? n) && (n <=? 57) || (65 <=? n) && (n <=? 90) || (97 <=? n) && (n <=? 122) || (n =? 95))%nat.

(** The line terminators [.] does not match: LF and CR. *)
Definition isLineTerminator (c : ascii) : bool :=
  let n := nat_of_ascii c in ((n =? 10) || (n =? 13))%nat.

(** [p*], greedy: the longest run of [p] first, then shorter ones; [k]
    receives the run and the rest of the input. *)
Fixpoint starMatch {R} (p : ascii -> bool) (s : string) (k : string -> string -> option R) : option R :=
  match s with
  | String c s' =>
      if p c then
        match starMatch p s' (fun m rest => k (String c m) rest) with
        | Some r => Some r
        | None => k EmptyString s
        end
      else k EmptyString s
  | EmptyString => k EmptyString EmptyString
  end.

(** [p+], greedy. *)
Definition plusMatch {R} (p : ascii -> bool) (s : string) (k : string -> string -> option R) : option R :=
  match s with
  | String c s' => if p c then starMatch p s' (fun m rest => k (String c m) rest) else None
  | EmptyString => None
  end.

(** [/^\/(\w+)(?:\s+(.+))?$/.exec(text)]: the captures [(\w+)] and
    [(.+)] ([None] when the optional group did not take part), or [None]
    for no match.  The optional group is tried first; [\s] is the white
    space of [Listing.isJsSpace]. *)
Definition execCommandRegex (s : string) : option (string * option string) :=
  match s with
  | String c t =>
      if Ascii.eqb c "/" then
        plusMatch isWordChar t (fun w rest =>
          match plusMatch isJsSpace rest (fun _ rest2 =>
                  plusMatch (fun c => negb (isLineTerminator c)) rest2 (fun u rest3 =>
                    match rest3 with EmptyString => Some (w, Some u) | _ => None end)) with
          | Some r => Some r
          | None => match rest with EmptyString => Some (w, None) | _ => None end
          end)
      else None
  | EmptyString => None
  end.

Record Command := mkCommand {
  cmdType : CommandType;
  cmdUrl : option string
}.

(** [new Command(messageText)] *)
Definition newCommand (messageText : string) : Command :=
  match execCommandRegex messageText with
  | Some (w, u) => {| cmdType := parseCommandType w; cmdUrl := u |}
  | None => {| cmdType := UNKNOWN; cmdUrl := None |}
  end.

(** [commandList]: command, description, parameters. *)
Definition commandList : list (CommandType * string * option string) :=
  [(SUBSCRIBE, "Subscribe to a feed", Some "<url>");
   (UNSUBSCRIBE, "Unsubscribe from a feed", Some "<url>");
   (UNSUBSCRIBE_ALL, "Unsubscribe from all feeds in the chat", None);
   (LIST, "List all subscribed feeds", None);
   (HELP, "Show help", None)].

(** The [helpMessage] built by [help]. *)
Definition helpText : string :=
  foldl (fun acc '(c, d, p) =>
           acc +:+ "/" +:+ commandString c +:+
           (match p with Some p => " " +:+ p | None => "" end) +:+ " - " +:+ d +:+ "
")
        "Available commands:
" commandList.

(** ** Messages, effects and errors *)

(** The fields of a Telegram [Message] the bot reads: [chat.id],
    [from.id] and [text]; a missing object is [None]. *)
Record Message := mkMessage {
  msgChat : option Z;
  msgFrom : option Z;
  msgText : option string
}.

(** The Telegram API calls: [sendMessage(chatId, text)] and
    [registerCommands(commandList, chatId)]. *)
Inductive ApiCall :=
| SendMessage (chat : Z) (text : string)
| RegisterCommands (chat : Z).

(** What a handler can throw: [new Error(m)], the [TypeError] of reading
    [msg.chat.id] when [msg.chat] is undefined, a rejected [fetch(url)]. *)
Inductive Exn :=
| JsError (m : string)
| ReadOfUndefined
| FetchFailed.

(** [`${e}`]: an [Error]'s [toString] is ["Error: " + message]; the texts
    of the engine's own errors are those of V8 and no theorem depends on
    them. *)
Definition errorString (e : Exn) : string :=
  match e with
  | JsError m => "Error: " +:+ m
  | ReadOfUndefined => "TypeError: Cannot read properties of undefined (reading 'id')"
  | FetchFailed => "TypeError: fetch failed"
  end.

Record BotState := mkBotState {
  bsKv : KV;
  bsApi : list ApiCall;
  bsCache : gmap string CachedFeed.t;
  bsEvents : list NetEvent;
  bsSends : list Delivery;
  bsClock : Z
}.

(** A handler: the state changes it made, and its value or the exception
    it threw. *)
Definition M (A : Type) : Type := BotState -> result A Exn * BotState.

#[export] Instance M_ret : MRet M := fun A a st => (Ok a, st).
#[export] Instance M_bind : MBind M := fun A B k m st =>
  match m st with
  | (Ok a, st') => k a st'
  | (Err e, st') => (Err e, st')
  end.

Definition throw {A} (e : Exn) : M A := fun st => (Err e, st).

(** [try { m } catch (e) { h(e) }] *)
Definition tryCatch {A} (m : M A) (h : Exn -> M A) : M A := fun st =>
  match m st with
  | (Ok a, st') => (Ok a, st')
  | (Err e, st') => h e st'
  end.

Definition api (c : ApiCall) (st : BotState) : BotState :=
  {| bsKv := bsKv st; bsApi := bsApi st ++ [c]; bsCache := bsCache st; bsEvents := bsEvents st;
     bsSends := bsSends st; bsClock := bsClock st |}.

Definition setKv (kv : KV) (st : BotState) : BotState :=
  {| bsKv := kv; bsApi := bsApi st; bsCache := bsCache st; bsEvents := bsEvents st;
     bsSends := bsSends st; bsClock := bsClock st |}.

Definition sendMessage (chat : Z) (text : string) : M unit := fun st => (Ok tt, api (SendMessage chat text) st).

Definition registerCommands (chat : Z) : M unit := fun st => (Ok tt, api (RegisterCommands chat) st).

(** A [UserStore] method that writes, throwing its [Error]. *)
Definition storeWrite (f : KV -> result KV string) : M unit := fun st =>
  match f (bsKv st) with
  | Ok kv => (Ok tt, setKv kv st)
  | Err m => (Err (JsError m), st)
  end.

Definition storeRead {A} (f : KV -> result A string) : M A := fun st =>
  match f (bsKv st) with
  | Ok a => (Ok a, st)
  | Err m => (Err (JsError m), st)
  end.

(** [msg.chat.id] *)
Definition chatOf (msg : Message) : M Z :=
  match msgChat msg with Some c => mret c | None => throw ReadOfUndefined end.

(** [if (!msg?.chat || !msg?.from) throw new Error('Invalid message.')],
    then [chatId] and [userId]. *)
Definition checkMessage (msg : Message) : M (Z * Z) :=
  match msgChat msg, msgFrom msg with
  | Some c, Some u => mret (c, u)
  | _, _ => throw (JsError "Invalid message.")
  end.

(** [`${feed.title}`]: a string, an array of objects, or [undefined]. *)
Definition templateOf (v : option JsVal) : string :=
  match v with
  | Some (JStr s) => s
  | Some (JItems l) => String.concat "," (map (fun _ => "[object Object]") l)
  | None => "undefined"
  end.

(** [if (feed)]: [parseRSS] returns an object or throws, and every object is
    truthy. *)
Definition objectTruthy (o : Channel) : bool := true.

(** What a handler leaves to do after its synchronous part: nothing, or
    the fan-out of [updateUserSubscriptions(user, chatId)]. *)
Inductive Next :=
| Stop
| RunUpdate (u : User) (chat : Z).

(** ** The handlers *)

Section Handlers.
Context `{Platform} (net : Network).

(** [await fetch(url).then(resp => resp.text())]: the body whatever the
    status. *)
Definition fetchText (u : string) : M string := fun st =>
  match net u NoCondition with
  | Some r => (Ok (body r), st)
  | None => (Err FetchFailed, st)
  end.

Definition parseFeed (text : string) : M Channel :=
  match parseRSS (parseFromString text) with
  | Ok ch => mret ch
  | Err m => throw (JsError m)
  end.

(** [Bot.subscribe(msg, url)] *)
Definition subscribe (msg : Message) (u : string) : M unit :=
  '(chat, uid) ← checkMessage msg;
  if negb (js_truthy_str (Some u)) then throw (JsError "Please provide a valid RSS feed URL.") else
  text ← fetchText u;
  feed ← parseFeed text;
  if objectTruthy feed
  then storeWrite (addSubscription uid chat u);; sendMessage chat ("Subscribed to: " +:+ templateOf (js_get "title" feed))
  else sendMessage chat "Invalid RSS feed.".
End Handlers.

(** [Bot.unsubscribe(msg, url)] *)
Definition unsubscribe (msg : Message) (u : string) : M unit :=
  '(chat, uid) ← checkMessage msg;
  if negb (js_truthy_str (Some u)) then throw (JsError "Please provide a valid RSS feed URL.") else
  storeWrite (deleteSubscription uid u);;
  sendMessage chat ("Unsubscribed from: " +:+ u).

(** [Bot.unsubscribeAll(msg)] *)
Definition unsubscribeAll (msg : Message) : M unit :=
  '(chat, uid) ← checkMessage msg;
  storeWrite (fun kv => Ok (deleteAllSubscriptionsInChat uid chat kv));;
  sendMessage chat "Unsubscribed from all feeds.".

(** [Bot.list(msg)] *)
Definition list (msg : Message) : M unit :=
  '(chat, uid) ← checkMessage msg;
  subs ← storeRead (getChatSubscriptions uid chat);
  if (0 <? length subs)%nat
  then sendMessage chat ("Subscribed feeds:
- " +:+ String.concat "
- " (map url subs))
  else sendMessage chat "You are not subscribed to any feeds in this chat yet.".

(** [Bot.help(msg)] *)
Definition help (msg : Message) : M unit :=
  chat ← chatOf msg;
  registerCommands chat;;
  sendMessage chat helpText.

(** [Bot.start(msg)]: no [CommandType] leads to it. *)
Definition start (msg : Message) : M unit :=
  '(chat, uid) ← checkMessage msg;
  storeWrite (fun kv => Ok (addUser uid kv));;
  registerCommands chat;;
  sendMessage chat "Welcome to the RSS Subscription Bot! Use /help for a list of commands.".

(** [Bot.fetch(msg)] up to [updateUserSubscriptions(user, chatId)]. *)
Definition fetch (msg : Message) : M Next :=
  '(chat, uid) ← checkMessage msg;
  u ← storeRead (fun kv => match get uid kv with Some u => Ok u | None => Err "User not found." end);
  mret (RunUpdate u chat).

(** The [if (!command.url)] branch of [exec]. *)
Definition noUrl (msg : Message) : M Next :=
  chat ← chatOf msg;
  sendMessage chat "Please provide a valid RSS feed URL.";;
  mret Stop.

Section Exec.
Context `{Platform} (net : Network).

(** The [switch] of [exec]. *)
Definition dispatch (msg : Message) (cmd : Command) : M Next :=
  match cmdType cmd with
  | SUBSCRIBE =>
      match cmdUrl cmd with
      | Some u => if js_truthy_str (Some u) then subscribe net msg u;; mret Stop else noUrl msg
      | None => noUrl msg
      end
  | UNSUBSCRIBE =>
      match cmdUrl cmd with
      | Some u => if js_truthy_str (Some u) then unsubscribe msg u;; mret Stop else noUrl msg
      | None => noUrl msg
      end
  | UNSUBSCRIBE_ALL => unsubscribeAll msg;; mret Stop
  | LIST => list msg;; mret Stop
  | HELP => help msg;; mret Stop
  | FETCH => fetch msg
  | UNKNOWN => help msg;; mret Stop
  end.

(** [msg.text || ''] *)
Definition userInput (msg : Message) : string :=
  match msgText msg with Some t => if js_truthy_str (Some t) then t else "" | None => "" end.

(** [Bot.exec(msg)] up to the fan-out of [/fetch]; the [catch] reads
    [msg.chat.id] again. *)
Definition execM (msg : Message) : M Next :=
  tryCatch (dispatch msg (newCommand (userInput msg)))
           (fun e => chat ← chatOf msg;
                     sendMessage chat ("Error: " +:+ errorString e);;
                     mret Stop).

(** The user object [store.get] returns, its subscriptions allocated at
    [0 .. n-1]. *)
Definition userObjOf (u : User) : UserObj :=
  mkUserObj (id u) (seq 0 (length (subscriptions u))) (defaultRefreshRate u) (postsToLoadOnNewSub u).

(** [updateUserSubscriptions(user, chatId)] starts, with the run's cache
    and clock. *)
Definition userInit (st : BotState) (u : User) (chat : Z) : Config :=
  initConfig (bsCache st) (allocSubs 0 (subscriptions u) ∅) (bsClock st) (userObjOf u) (Some chat).

(** ... and ends once its tasks have settled. *)
Definition userFinish (st : BotState) (u : User) (c : Config) : BotState :=
  {| bsKv := (finishUserUpdate c (userObjOf u) (bsKv st)).2; bsApi := bsApi st; bsCache := cfCache c;
     bsEvents := cfEvents c ++ bsEvents st; bsSends := bsSends st ++ cfSends c; bsClock := cfClock c |}.

(** [await bot.exec(msg)]: resolved, or rejected with the exception that
    escaped the [catch]. *)
Inductive execR : BotState -> Message -> result unit Exn * BotState -> Prop :=
| exec_done st msg st' : execM msg st = (Ok Stop, st') -> execR st msg (Ok tt, st')
| exec_throws st msg e st' : execM msg st = (Err e, st') -> execR st msg (Err e, st')
| exec_fetch st msg u chat st' c :
    execM msg st = (Ok (RunUpdate u chat), st') -> star net (userInit st' u chat) c -> allDone c = true ->
    execR st msg (Ok tt, userFinish st' u c).
End Exec.

(** ** The command syntax *)

(** A greedy run of [p] over [w] followed by a character that is not [p]
    hands [w] to the continuation first. *)
Lemma starMatch_longest {R} p (w rest : string) (k : string -> string -> option R) r :
  strForall p w = true -> startsWith p rest = false -> k w rest = Some r ->
  starMatch p (w +:+ rest) k = Some r.
Proof.
  revert k. induction w as [|c w IH]; intros k Hw Hrest Hk; simpl in Hw.
  - destruct rest as [|c rest]; simpl in *; [done|]. by rewrite Hrest.
  - apply andb_prop in Hw as [Hc Hw]. rewrite string_append_cons. simpl. rewrite Hc.
    by rewrite (IH (fun m rest' => k (String c m) rest')).
Qed.

Lemma plusMatch_longest {R} p (w rest : string) (k : string -> string -> option R) r :
  w <> EmptyString -> strForall p w = true -> startsWith p rest = false -> k w rest = Some r ->
  plusMatch p (w +:+ rest) k = Some r.
Proof.
  destruct w as [|c w]; [done|]. intros _ Hw Hrest Hk. simpl in Hw. apply andb_prop in Hw as [Hc Hw].
  rewrite string_append_cons. simpl. rewrite Hc. by apply starMatch_longest.
Qed.

(** What a successful [p*] or [p+] consumed: a run of [p], then the rest
    the continuation accepted. *)
Lemma starMatch_some {R} p s (k : string -> string -> option R) r :
  starMatch p s k = Some r -> exists m rest, s = m +:+ rest /\ strForall p m = true /\ k m rest = Some r.
Proof.
  revert k. induction s as [|c s IH]; intros k H; cbn [starMatch] in H; [by exists "", ""|].
  destruct (p c) eqn:Hc; [|by exists "", (String c s)].
  destruct (starMatch p s _) as [r'|] eqn:E; [|by exists "", (String c s)].
  injection H as <-. apply IH in E as (m & rest & -> & Hm & Hk).
  exists (String c m), rest. cbn [strForall]. by rewrite Hc, Hm.
Qed.

Lemma plusMatch_some {R} p s (k : string -> string -> option R) r :
  plusMatch p s k = Some r ->
  exists m rest, s = m +:+ rest /\ m <> EmptyString /\ strForall p m = true /\ k m rest = Some r.
Proof.
  destruct s as [|c s]; [discriminate|]. cbn [plusMatch]. destruct (p c) eqn:Hc; [|discriminate].
  intros (m & rest & -> & Hm & Hk)%starMatch_some. exists (String c m), rest. cbn [strForall]. by rewrite Hc, Hm.
Qed.

(** A match of the command syntax: a slash, the word, then the end or
    white space. *)
Lemma execCommandRegex_shape s w u :
  execCommandRegex s = Some (w, u) ->
  exists t r, s = String "/" t /\ t = w +:+ r /\ w <> EmptyString /\ strForall isWordChar w = true /\
              (r = EmptyString \/ startsWith isJsSpace r = true).
Proof.
  destruct s as [|c t]; [discriminate|]. unfold execCommandRegex.
  destruct (Ascii.eqb c "/") eqn:Ec; [apply Ascii.eqb_eq in Ec as ->|discriminate].
  intros (w' & r & -> & Hne & Hw & Hk)%plusMatch_some.
  destruct (plusMatch isJsSpace r _) as [res|] eqn:E.
  - injection Hk as ->. apply plusMatch_some in E as (m & r2 & -> & Hm & Hsp & Hk2).
    apply plusMatch_some in Hk2 as (v & r3 & _ & _ & _ & Hk3). destruct r3; [|discriminate].
    injection Hk3 as -> _. exists (w +:+ m +:+ r2), (m +:+ r2). do 4 (split; [done|]). right.
    destruct m as [|c m]; [done|]. cbn [strForall] in Hsp. apply andb_prop in Hsp as [Hc _]. done.
  - destruct r; [|discriminate]. injection Hk as -> _. exists (w +:+ ""), "". do 4 (split; [done|]). by left.
Qed.

Lemma wordChar_not_space c : isWordChar c = true -> isJsSpace c = false.
Proof. destruct c as [[] [] [] [] [] [] [] []]; intros H; vm_compute in H; (discriminate || reflexivity). Qed.

(** A text with no white space that starts the input is a prefix of the
    command word matched. *)
Lemma word_covers pre t w r :
  strForall (fun c => negb (isJsSpace c)) pre = true -> pre +:+ t = w +:+ r ->
  (r = EmptyString \/ startsWith isJsSpace r = true) -> exists w', w = pre +:+ w'.
Proof.
  revert w. induction pre as [|c pre IH]; intros w Hpre Heq Hr; [by exists w|].
  cbn [strForall] in Hpre. apply andb_prop in Hpre as [Hc Hpre]. apply negb_true_iff in Hc.
  destruct w as [|c' w].
  - change ("" +:+ ?x) with x in Heq. subst r. rewrite string_append_cons in Hr.
    destruct Hr as [Hr|Hr]; [discriminate|]. cbn in Hr. congruence.
  - rewrite !string_append_cons in Heq. injection Heq as -> Heq.
    destruct (IH w Hpre Heq Hr) as [w' ->]. by exists w'.
Qed.

(** A word followed by [@] never matches: the word cannot take the [@],
    and the [@] is not white space. *)
Lemma word_at_no_match w t w' r :
  strForall isWordChar w = true -> strForall isWordChar w' = true -> w +:+ String "@" t = w' +:+ r ->
  (r = EmptyString \/ startsWith isJsSpace r = true) -> False.
Proof.
  revert w'. induction w as [|c w IH]; intros w' Hw Hw' Heq Hr.
  - destruct w' as [|c' w'].
    + change ("" +:+ ?x) with x in Heq. subst r. destruct Hr as [Hr|Hr]; discriminate.
    + rewrite string_append_cons in Heq. injection Heq as <- _. discriminate Hw'.
  - cbn [strForall] in Hw. apply andb_prop in Hw as [Hc Hw]. destruct w' as [|c' w'].
    + change ("" +:+ ?x) with x in Heq. subst r. destruct Hr as [Hr|Hr]; [discriminate|].
      rewrite string_append_cons in Hr. cbn in Hr. by rewrite wordChar_not_space in Hr.
    + rewrite !string_append_cons in Heq. injection Heq as <- Heq. cbn [strForall] in Hw'.
      apply andb_prop in Hw' as [_ Hw']. exact (IH w' Hw Hw' Heq Hr).
Qed.

(** Every text starting with [/start] is an [UNKNOWN] command. *)
Lemma newCommand_start t : cmdType (newCommand ("/start" +:+ t)) = UNKNOWN.
Proof.
  unfold newCommand. destruct (execCommandRegex _) as [[w u]|] eqn:E; [|done]. cbn [cmdType].
  apply execCommandRegex_shape in E as (t' & r & Hs & -> & _ & _ & Hr).
  change ("/start" +:+ t) with (String "/" ("start" +:+ t)) in Hs. injection Hs as Hs.
  destruct (word_covers "start" t w r eq_refl Hs Hr) as [w' ->]. reflexivity.
Qed.

(** Every command addressed to a bot in a group, [/word@bot ...], is an
    [UNKNOWN] command. *)
Lemma newCommand_mention w t : strForall isWordChar w = true -> cmdType (newCommand ("/" +:+ w +:+ "@" +:+ t)) = UNKNOWN.
Proof.
  intros Hw. unfold newCommand. destruct (execCommandRegex _) as [[w' u]|] eqn:E; [|done]. exfalso.
  apply execCommandRegex_shape in E as (t' & r & Hs & -> & _ & Hw' & Hr).
  change ("/" +:+ w +:+ "@" +:+ t) with (String "/" (w +:+ String "@" t)) in Hs. injection Hs as Hs.
  exact (word_at_no_match w t w' r Hw Hw' Hs Hr).
Qed.

(** An argument the command syntax carries unchanged: not empty, not
    starting with white space, on one line. *)
Definition validArg (u : string) : bool :=
  negb (String.eqb u "") && negb (startsWith isJsSpace u) && strForall (fun c => negb (isLineTerminator c)) u.

(** The text of a command as a user types it: [/<command>] or
    [/<command> <argument>]. *)
Definition printCommand (t : CommandType) (u : option string) : string :=
  "/" +:+ commandString t +:+ match u with Some a => " " +:+ a | None => "" end.

Lemma execCommandRegex_print w u :
  w <> EmptyString -> strForall isWordChar w = true ->
  match u with Some a => validArg a = true | None => True end ->
  execCommandRegex ("/" +:+ w +:+ match u with Some a => " " +:+ a | None => "" end) = Some (w, u).
Proof.
  intros Hw Hword Hu.
  change ("/" +:+ ?x) with (String "/" x). cbn [execCommandRegex Ascii.eqb Bool.eqb].
  apply plusMatch_longest; [done|done| |].
  - destruct u; [done|done].
  - destruct u as [a|]; [|done].
    apply andb_prop in Hu as [Hu Hlt]. apply andb_prop in Hu as [Hne Hsp].
    apply negb_true_iff in Hne, Hsp. apply String.eqb_neq in Hne.
    assert (Hg : plusMatch isJsSpace (" " +:+ a) (fun _ rest2 =>
              plusMatch (fun c => negb (isLineTerminator c)) rest2 (fun u rest3 =>
                match rest3 with EmptyString => Some (w, Some u) | _ => None end)) = Some (w, Some a)).
    { change (" " +:+ a) with (String " " a). cbn [plusMatch]. simpl.
      apply (starMatch_longest _ "" a); [done|done|].
      rewrite <- (string_app_nil_r a) at 1. apply plusMatch_longest; done. }
    rewrite Hg. done.
Qed.

Lemma commandString_word t : strForall isWordChar (commandString t) = true.
Proof. by destruct t. Qed.

Lemma parseCommandType_string t : t <> UNKNOWN -> parseCommandType (commandString t) = t.
Proof. by destruct t. Qed.

(** C29: parsing the text of a command gives back the command and its
    argument: [new Command] inverts [printCommand] for every known command
    and every argument that is not empty, does not start with white space
    and holds on one line. *)
Theorem newCommand_printCommand t u :
  t <> UNKNOWN -> match u with Some a => validArg a = true | None => True end ->
  newCommand (printCommand t u) = {| cmdType := t; cmdUrl := u |}.
Proof.
  intros Ht Hu. unfold newCommand, printCommand.
  rewrite execCommandRegex_print; [|by destruct t|apply commandString_word|done].
  by rewrite parseCommandType_string.
Qed.

(** ** Errors *)

Section Errors.
Context `{Platform} (net : Network).

(** Every handler throws before it writes the store: when [dispatch]
    throws, the store is as it was. *)
Lemma dispatch_err_kv msg cmd st e st' :
  dispatch net msg cmd st = (Err e, st') -> bsKv st' = bsKv st.
Proof.
  intros Hd. destruct msg as [[chat|] [uid|] text], cmd as [[] [u|]];
    cbv [dispatch subscribe unsubscribe unsubscribeAll list help fetch noUrl checkMessage chatOf
         mbind M_bind mret M_ret throw storeWrite storeRead sendMessage registerCommands fetchText parseFeed
         objectTruthy msgChat msgFrom cmdType cmdUrl] in Hd;
    repeat case_match; simplify_eq/=; done.
Qed.

(** C23: [exec] catches what its handlers throw: for a message with a
    chat, [exec] always resolves, and when the command's handler threw
    [e] the store is unchanged and the one thing added is the reply
    ["Error: ${e}"] to the chat. *)
Theorem exec_catches_errors msg chat st :
  msgChat msg = Some chat ->
  (exists n st', execM net msg st = (Ok n, st')) /\
  (forall e st1, dispatch net msg (newCommand (userInput msg)) st = (Err e, st1) ->
     execM net msg st = (Ok Stop, api (SendMessage chat ("Error: " +:+ errorString e)) st1) /\
     bsKv st1 = bsKv st).
Proof.
  intros Hc. unfold execM, tryCatch. destruct (dispatch _ _ _ st) as [[n|e] st1] eqn:Hd.
  - split; [by exists n, st1|]. intros e st2 [=].
  - unfold mbind, M_bind, chatOf. rewrite Hc. split; [by eexists _, _|].
    intros e' st2 [= <- <-]. split; [done|]. by eapply dispatch_err_kv.
Qed.

(** C30: Finding: there is no [/start] command.  Every message starting
    with ["/start"] (the first message of every Telegram user, whatever
    follows it) and every command addressed to a bot in a group
    (["/sub@telerss_bot <url>"], any [/word@...]) is [UNKNOWN] and is
    answered with the help text after a [registerCommands] call, with the
    store untouched: [Bot.start], which would register the user, is never
    called. *)
Theorem start_answered_with_help msg chat st :
  msgChat msg = Some chat ->
  ((exists t, userInput msg = "/start" +:+ t) \/
   (exists w t, strForall isWordChar w = true /\ userInput msg = "/" +:+ w +:+ "@" +:+ t)) ->
  execM net msg st = (Ok Stop, api (SendMessage chat helpText) (api (RegisterCommands chat) st)).
Proof.
  intros Hc Hin.
  assert (Hu : cmdType (newCommand (userInput msg)) = UNKNOWN)
    by (destruct Hin as [[t ->]|(w & t & Hw & ->)]; [apply newCommand_start|by apply newCommand_mention]).
  unfold execM. destruct (newCommand (userInput msg)) as [ty u]. cbn [cmdType] in Hu. subst ty.
  cbv [tryCatch dispatch cmdType help mbind M_bind mret M_ret chatOf registerCommands sendMessage].
  rewrite Hc. reflexivity.
Qed.

(** C24: what [/sub <url>] does: a rejected fetch, a document [parseRSS]
    rejects and a URL the user already has are each answered
    ["Error: ..."] with the store unchanged; otherwise the subscription is
    added and the reply names the feed's title ("undefined" when it has
    none).  The reply "Invalid RSS feed." of [subscribe] is never sent:
    [parseRSS] throws instead of returning a falsy value. *)
Theorem subscribe_command_spec msg chat uid u st :
  msgChat msg = Some chat -> msgFrom msg = Some uid ->
  newCommand (userInput msg) = {| cmdType := SUBSCRIBE; cmdUrl := Some u |} -> u <> EmptyString ->
  execM net msg st =
    (Ok Stop,
     match net u NoCondition with
     | None => api (SendMessage chat ("Error: " +:+ errorString FetchFailed)) st
     | Some r =>
         match parseRSS (parseFromString (body r)) with
         | Err m => api (SendMessage chat ("Error: " +:+ errorString (JsError m))) st
         | Ok feed =>
             match addSubscription uid chat u (bsKv st) with
             | Ok kv => api (SendMessage chat ("Subscribed to: " +:+ templateOf (js_get "title" feed))) (setKv kv st)
             | Err m => api (SendMessage chat ("Error: " +:+ errorString (JsError m))) st
             end
         end
     end).
Proof.
  intros Hc Hf Hcmd Hu. unfold execM. rewrite Hcmd.
  assert (Ht : js_truthy_str (Some u) = true) by (apply negb_true_iff, String.eqb_neq; done).
  cbv [dispatch cmdType cmdUrl]. rewrite Ht.
  cbv [subscribe checkMessage tryCatch mbind M_bind mret M_ret chatOf throw fetchText parseFeed storeWrite
       sendMessage objectTruthy]. rewrite Hc, Hf, Ht. simpl.
  destruct (net u NoCondition) as [r|]; [|done].
  destruct (parseRSS _) as [feed|m]; [|done].
  by destruct (addSubscription uid chat u (bsKv st)).
Qed.

(** C25: what [/unsub <url>] does: when the user has a subscription to the
    URL, in any chat, every subscription of the user to that URL is
    removed, whichever chat it was made in, and the reply confirms it;
    otherwise the reply is "Error: Error: You are not subscribed to this
    feed." and the store is unchanged.  [/list] shows only the chat's
    subscriptions, yet [/unsub] reaches those of the other chats too. *)
Theorem unsubscribe_command_spec msg chat uid u st :
  StoreWf (bsKv st) -> msgChat msg = Some chat -> msgFrom msg = Some uid ->
  newCommand (userInput msg) = {| cmdType := UNSUBSCRIBE; cmdUrl := Some u |} -> u <> EmptyString ->
  execM net msg st =
    (Ok Stop,
     let user := getOrNew uid (bsKv st) in
     if existsb (hasUrl u) (subscriptions user)
     then api (SendMessage chat ("Unsubscribed from: " +:+ u))
              (setKv (<[userKey uid := setSubscriptions user
                                         (List.filter (fun s => negb (String.eqb (url s) u)) (subscriptions user))]>
                        (bsKv st)) st)
     else api (SendMessage chat "Error: Error: You are not subscribed to this feed.") st).
Proof.
  intros Hwf Hc Hf Hcmd Hu. unfold execM. rewrite Hcmd.
  assert (Ht : js_truthy_str (Some u) = true) by (apply negb_true_iff, String.eqb_neq; done).
  cbv [dispatch cmdType cmdUrl]. rewrite Ht.
  cbv [unsubscribe checkMessage tryCatch mbind M_bind mret M_ret chatOf throw storeWrite sendMessage].
  rewrite Hc, Hf, Ht. simpl. unfold deleteSubscription.
  destruct (getOrNew_wf uid _ Hwf) as [Hid _].
  destruct (existsb _ _); [|done]. cbn [negb]. unfold set.
  change (id (setSubscriptions ?x ?l)) with (id x). by rewrite Hid.
Qed.
End Errors.

(** ** [/fetch] *)

Section FetchCommand.
Context `{Platform} (net : Network).

(** C22: [/fetch] from a chat updates that chat's subscriptions only: in
    every schedule of its tasks, a subscription of the user to another chat
    is written back exactly as it was, at the same position, provided the
    user's URLs are distinct (as [addSubscription] keeps them) and the chat
    id is not [0], which [if (chatId)] would take for "every chat". *)
Theorem fetch_updates_only_its_chat st u chat c i s :
  UniqueUrls u -> chat <> 0 -> star net (userInit st u chat) c ->
  subscriptions u !! i = Some s -> chatId s <> chat ->
  exists u', get (id u) (bsKv (userFinish st u c)) = Some u' /\
             length (subscriptions u') = length (subscriptions u) /\ subscriptions u' !! i = Some s.
Proof.
  intros Hu Hchat Hrun Hi Hs.
  set (h0 := allocSubs 0 (subscriptions u) ∅).
  assert (Hnd : NoDup (map (fun l => url (subAt h0 l)) (uoSubs (userObjOf u)))).
  { cbn [userObjOf uoSubs]. rewrite <- (map_map (subAt h0) url). unfold h0. by rewrite allocSubs_seq. }
  assert (Hlt : (i < length (subscriptions u))%nat) by (apply lookup_lt_is_Some_1; by eexists).
  assert (Hh0 : subAt h0 i = s).
  { unfold subAt, h0. rewrite (allocSubs_lookup 0 _ _ i Hlt), Hi. done. }
  assert (Hnot : ~ In i (map taskLoc (cfTasks (userInit st u chat)))).
  { unfold userInit. rewrite initConfig_locs. unfold selectSubs.
    replace (js_truthy_num chat) with true by (symmetry; by apply negb_true_iff, Z.eqb_neq).
    intros [_ Hc]%filter_In. apply Hs. rewrite <- Hh0. by apply Z.eqb_eq. }
  exists (derefUser (cfHeap c) (userObjOf u)).
  unfold userFinish, finishUserUpdate. cbn [bsKv]. rewrite (run_mergeRefs_id net _ _ _ _ _ c Hrun Hnd).
  cbn [snd]. split; [|split].
  - unfold get, set. rewrite lookup_insert, decide_True; reflexivity.
  - cbn [derefUser subscriptions userObjOf uoSubs]. by rewrite length_map, length_seq.
  - cbn [derefUser subscriptions userObjOf uoSubs]. rewrite lookup_map_seq by done.
    rewrite <- Hh0. unfold subAt. rewrite Nat.add_0_l. by rewrite (star_heap_frame net _ _ i Hrun Hnot).
Qed.
End FetchCommand.

Module BotExamples.
Import TestPlatform.

Definition st0 : BotState := mkBotState ∅ [] ∅ [] [] 0.

Lemma newCommand_printCommand_witness :
  SUBSCRIBE <> UNKNOWN /\ validArg "http://example.com/rss" = true /\
  newCommand "/sub http://example.com/rss" = {| cmdType := SUBSCRIBE; cmdUrl := Some "http://example.com/rss" |}.
Proof.
  split; [discriminate|split; [reflexivity|]].
  exact (newCommand_printCommand SUBSCRIBE (Some "http://example.com/rss") ltac:(discriminate) eq_refl).
Defined.

(** [/unsub F] from a user with no record. *)
Definition msgUnsub : Message := mkMessage (Some 5) (Some 9) (Some "/unsub F").

Lemma dispatch_unsub_throws :
  @dispatch platform netF msgUnsub (newCommand (userInput msgUnsub)) st0 =
  (Err (JsError "You are not subscribed to this feed."), st0).
Proof. vm_compute. reflexivity. Qed.

Lemma exec_catches_errors_witness :
  msgChat msgUnsub = Some 5 /\
  @execM platform netF msgUnsub st0 =
    (Ok Stop, api (SendMessage 5 "Error: Error: You are not subscribed to this feed.") st0).
Proof.
  split; [reflexivity|].
  destruct (@exec_catches_errors platform netF msgUnsub 5 st0 eq_refl) as [_ H].
  exact (proj1 (H _ _ dispatch_unsub_throws)).
Defined.

(** A server answering every request with a document that is not RSS. *)
Definition netJunk : Network := fun _ _ => Some (mkResponse 200 None "junk").

Definition msgSub : Message := mkMessage (Some 5) (Some 9) (Some "/sub G").

Lemma subscribe_command_spec_witness :
  newCommand (userInput msgSub) = {| cmdType := SUBSCRIBE; cmdUrl := Some "G" |} /\
  @execM platform netJunk msgSub st0 =
    (Ok Stop, api (SendMessage 5 "Error: Error: Invalid RSS feed: missing <rss> element") st0).
Proof.
  assert (Hcmd : newCommand (userInput msgSub) = {| cmdType := SUBSCRIBE; cmdUrl := Some "G" |})
    by reflexivity.
  split; [exact Hcmd|].
  exact (@subscribe_command_spec platform netJunk msgSub 5 9 "G" st0 eq_refl eq_refl Hcmd ltac:(discriminate)).
Defined.

(** User 9 follows [G] in chat 6 only and sends [/unsub G] in chat 5,
    where [/list] shows nothing: the subscription of chat 6 is removed. *)
Definition uG : User := setSubscriptions (newUser 9) [newSubscription 6 "G"].

Definition stG : BotState := setKv (set uG ∅) st0.

Definition msgUnsubG : Message := mkMessage (Some 5) (Some 9) (Some "/unsub G").

Lemma unsubscribe_command_spec_witness :
  StoreWf (bsKv stG) /\
  newCommand (userInput msgUnsubG) = {| cmdType := UNSUBSCRIBE; cmdUrl := Some "G" |} /\
  get 9 (bsKv (snd (@execM platform netF msgUnsubG stG))) = Some (newUser 9) /\
  @execM platform netF msgUnsubG stG =
    (Ok Stop,
     let user := getOrNew 9 (bsKv stG) in
     if existsb (hasUrl "G") (subscriptions user)
     then api (SendMessage 5 ("Unsubscribed from: " +:+ "G"))
              (setKv (<[userKey 9 := setSubscriptions user
                                       (List.filter (fun s => negb (String.eqb (url s) "G")) (subscriptions user))]>
                        (bsKv stG)) stG)
     else api (SendMessage 5 "Error: Error: You are not subscribed to this feed.") stG).
Proof.
  assert (Hwf : StoreWf (bsKv stG)).
  { apply set_wf; [apply StoreExamples.empty_wf|]. unfold UniqueUrls; simpl. repeat constructor; set_solver. }
  assert (Hcmd : newCommand (userInput msgUnsubG) = {| cmdType := UNSUBSCRIBE; cmdUrl := Some "G" |})
    by reflexivity.
  split; [exact Hwf|split; [exact Hcmd|split; [vm_compute; reflexivity|]]].
  exact (@unsubscribe_command_spec platform netF msgUnsubG 5 9 "G" stG Hwf eq_refl eq_refl Hcmd ltac:(discriminate)).
Defined.

(** User 9 follows [F] in chat 5 and [G] in chat 6 and sends [/fetch] in
    chat 5; the body of [F] is read at time 1. *)
Definition uF : User := setSubscriptions (newUser 9) [subF 5 0; newSubscription 6 "G"].

Definition cf0 : Config := userInit st0 uF 5.
Definition cf1 : Config := @startStep platform cf0 0 0.
Definition cf2 : Config := @fetchedStep netF cf1 0 0 NoCondition.
Definition cf3 : Config := @readStep platform cf2 0 0 (Some "v1") "F-body" 1.
Definition cf4 : Config := setTask cf3 0 (TDone 0 (Ok (SweepExamples.sendingOf cf3 0))).

Lemma fetch_run : @star platform netF cf0 cf4.
Proof.
  eapply star_step; [apply (step_start _ cf0 0 0); vm_compute; reflexivity|].
  eapply star_step; [apply (step_fetched _ cf1 0 0 NoCondition); vm_compute; reflexivity|].
  eapply star_step; [apply (step_read _ cf2 0 0 (Some "v1") "F-body" 1);
                     [vm_compute; reflexivity|apply Z.leb_le; vm_compute; reflexivity]|].
  eapply star_step; [apply (step_settled _ cf3 0 0); vm_compute; reflexivity|].
  apply star_refl.
Qed.

Lemma fetch_updates_only_its_chat_witness :
  UniqueUrls uF /\
  (exists u', get (id uF) (bsKv (userFinish st0 uF cf4)) = Some u' /\
              length (subscriptions u') = length (subscriptions uF) /\
              subscriptions u' !! 1%nat = Some (newSubscription 6 "G")) /\
  get 9 (bsKv (userFinish st0 uF cf4)) =
    Some (setSubscriptions (newUser 9) [setFetched (subF 5 0) 1 (Some "v1"); newSubscription 6 "G"]).
Proof.
  assert (Hu : UniqueUrls uF) by (unfold UniqueUrls; simpl; repeat constructor; set_solver).
  split; [exact Hu|split; [|vm_compute; reflexivity]].
  exact (@fetch_updates_only_its_chat platform netF st0 uF 5 cf4 1 (newSubscription 6 "G")
           Hu ltac:(discriminate) fetch_run eq_refl ltac:(discriminate)).
Defined.
(** A [/sub] addressed to the bot in a group gets the help text. *)
Lemma start_answered_with_help_witness :
  @execM platform netF (mkMessage (Some 5) (Some 9) (Some "/sub@telerss_bot http://example.com/rss")) st0 =
    (Ok Stop, api (SendMessage 5 helpText) (api (RegisterCommands 5) st0)).
Proof.
  apply (@start_answered_with_help platform netF _ 5 st0); [reflexivity|].
  right. exists "sub", "telerss_bot http://example.com/rss". split; reflexivity.
Defined.

End BotExamples.
