(* ===== verification/Telegram.v ===== *)
(** * The Telegram API client: [src/src/telegram.ts]

    [TelegramApi] turns each call into one HTTP request.  [sendMessage]
    writes the chat id and the text into the query string of a GET URL,
    without encoding them; [sendRichMessage] and [registerCommands] POST a
    body built by [JSON.stringify].

    The file holds the requests as the code builds them ([sendMessageUrl],
    [requestOf]) and, as a specification of the other side, how they are
    read: the part of the WHATWG URL parser that [fetch] applies to the
    URL ([urlQuery]: C0 controls and spaces trimmed at both ends, tabs and
    newlines removed, the fragment cut at the first [#], the query after
    the first [?]) and the [application/x-www-form-urlencoded] parser that
    reads the query ([formParams]: pieces split at [&], [+] read as a
    space, [%XY] decoded).  The URL parser also percent-encodes spaces,
    quotes and angle brackets of the query, which the form parser decodes
    again; that pair is the identity on the text and is left out. *)

From stdpp Require Import base list strings pretty.
From Stdlib Require Import ZArith Ascii.
From S2P Require Import Prelude Listing Bot.

Open Scope Z_scope.

(** ** The requests the client sends *)

(** [`https://api.telegram.org/bot${this.token}/${method}`] *)
Definition apiUrl (token method : string) : string :=
  "https://api.telegram.org/bot" +:+ token +:+ "/" +:+ method.

(** [`${b}`] for a boolean. *)
Definition boolString (b : bool) : string := if b then "true" else "false".

(** [TelegramApi.sendMessage(chatId, text, parseMode, disablePreview,
    silentMode = false)]: the URL it fetches. *)
Definition sendMessageUrl (token : string) (chatId : Z) (text : string) (parseMode : option string)
    (disablePreview : option bool) (silentMode : bool) : string :=
  let url := apiUrl token "sendMessage" +:+ "?chat_id=" +:+ pretty chatId +:+ "&text=" +:+ text in
  let url := match parseMode with
             | Some m => if String.eqb m "MarkdownV2" || String.eqb m "HTML"
                         then url +:+ "&parse_mode=" +:+ m else url
             | None => url
             end in
  let url := match disablePreview with
             | Some b => url +:+ "&disable_web_page_preview=" +:+ boolString b
             | None => url
             end in
  if silentMode then url +:+ "&disable_notification=" +:+ boolString silentMode else url.

Inductive HttpRequest :=
| HttpGet (url : string)
| HttpPost (url : string) (body : string).

(** ** How a URL's query is read *)

(** [indexOf(sep)]: the text before and after the first [sep]. *)
Fixpoint breakAt (sep : ascii) (s : string) : option (string * string)%type :=
  match s with
  | EmptyString => None
  | String c s' =>
      if Ascii.eqb c sep then Some (EmptyString, s')
      else match breakAt sep s' with Some (a, b) => Some (String c a, b) | None => None end
  end.

Definition isC0OrSpace (c : ascii) : bool := (nat_of_ascii c <=? 32)%nat.

Definition isTabOrNewline (c : ascii) : bool :=
  let n := nat_of_ascii c in ((n =? 9) || (n =? 10) || (n =? 13))%nat.

Fixpoint trimStartC0 (s : string) : string :=
  match s with
  | String c s' => if isC0OrSpace c then trimStartC0 s' else s
  | EmptyString => EmptyString
  end.

Fixpoint trimEndC0 (s : string) : string :=
  match s with
  | String c s' =>
      let t := trimEndC0 s' in
      if isC0OrSpace c && String.eqb t "" then EmptyString else String c t
  | EmptyString => EmptyString
  end.

Fixpoint removeChars (p : ascii -> bool) (s : string) : string :=
  match s with
  | String c s' => if p c then removeChars p s' else String c (removeChars p s')
  | EmptyString => EmptyString
  end.

(** The query of a URL, as the WHATWG URL parser finds it. *)
Definition urlQuery (u : string) : option string :=
  let u := removeChars isTabOrNewline (trimEndC0 (trimStartC0 u)) in
  let beforeFragment := match breakAt "#" u with Some (b, _) => b | None => u end in
  option_map snd (breakAt "?" beforeFragment).

Definition hexVal (c : ascii) : option nat :=
  let n := nat_of_ascii c in
  if ((48 <=? n) && (n <=? 57))%nat then Some (n - 48)%nat
  else if ((65 <=? n) && (n <=? 70))%nat then Some (n - 55)%nat
  else if ((97 <=? n) && (n <=? 102))%nat then Some (n - 87)%nat
  else None.

(** Percent-decoding: [%XY] with two hex digits is the byte [0xXY]; any
    other [%] stays. *)
Fixpoint percentDecode (s : string) : string :=
  match s with
  | EmptyString => EmptyString
  | String c s' =>
      match s' with
      | String a (String b r) =>
          if Ascii.eqb c "%" then
            match hexVal a, hexVal b with
            | Some x, Some y => String (ascii_of_nat (16 * x + y)) (percentDecode r)
            | _, _ => String c (percentDecode s')
            end
          else String c (percentDecode s')
      | _ => String c (percentDecode s')
      end
  end.

(** Every [+] read as a space. *)
Fixpoint plusToSpace (s : string) : string :=
  match s with
  | String c s' => String (if Ascii.eqb c "+" then " " else c) (plusToSpace s')
  | EmptyString => EmptyString
  end.

Definition formDecode (s : string) : string := percentDecode (plusToSpace s).

(** One [name=value] piece; an empty piece is skipped. *)
Definition formPiece (piece : string) : option (string * string)%type :=
  if String.eqb piece "" then None
  else match breakAt "=" piece with
       | Some (n, v) => Some (formDecode n, formDecode v)
       | None => Some (formDecode piece, "")
       end.

(** The [application/x-www-form-urlencoded] parser. *)
Definition formParams (q : string) : Datatypes.list (string * string)%type := omap formPiece (Listing.split "&" q).

(** ** Reading back a query *)

(** [s] holds none of the characters [cs]. *)
Definition avoids (cs : Datatypes.list ascii) (s : string) : bool :=
  strForall (fun c => negb (existsb (Ascii.eqb c) cs)) s.

(** The characters the query syntax gives a meaning: the separators [&]
    and [#], the encodings [+] and [%], and tab, line feed and carriage
    return, which the URL parser removes. *)
Definition querySyntax : Datatypes.list ascii := ["&"; "#"; "+"; "%"; "009"; "010"; "013"]%char.

Lemma avoids_cons cs c s : avoids cs (String c s) = negb (existsb (Ascii.eqb c) cs) && avoids cs s.
Proof. done. Qed.

Lemma avoids_app cs a b : avoids cs (a +:+ b) = avoids cs a && avoids cs b.
Proof. induction a as [|c a IH]; [done|]. rewrite string_append_cons, !avoids_cons, IH. apply andb_assoc. Qed.

Lemma avoids_sub cs cs' s : (forall c, existsb (Ascii.eqb c) cs' = true -> existsb (Ascii.eqb c) cs = true) ->
  avoids cs s = true -> avoids cs' s = true.
Proof.
  intros Hsub. induction s as [|c s IH]; [done|]. rewrite !avoids_cons.
  intros [Hc Hs]%andb_prop. rewrite IH by done. destruct (existsb (Ascii.eqb c) cs') eqn:E; [|done].
  rewrite Hsub in Hc by done. discriminate.
Qed.

(** Discharges [avoids cs' s] from [avoids cs s] for concrete lists with
    [cs'] included in [cs], by deciding the inclusion on every byte. *)
Ltac avoids_from H :=
  revert H; apply avoids_sub; intros [[] [] [] [] [] [] [] []] Hc; vm_compute in Hc |- *;
  (reflexivity || discriminate Hc).

Lemma breakAt_app sep a b : avoids [sep] a = true -> breakAt sep (a +:+ String sep b) = Some (a, b).
Proof.
  induction a as [|c a IH]; [intros _; change ("" +:+ ?x) with x; cbn [breakAt]; by rewrite Ascii.eqb_refl|].
  rewrite string_append_cons, avoids_cons. cbn [existsb breakAt]. rewrite orb_false_r. intros [Hc Ha]%andb_prop.
  apply negb_true_iff in Hc. rewrite Hc, IH by done. done.
Qed.

Lemma breakAt_none sep s : avoids [sep] s = true -> breakAt sep s = None.
Proof.
  induction s as [|c s IH]; [done|]. rewrite avoids_cons. cbn [existsb breakAt]. rewrite orb_false_r.
  intros [Hc Hs]%andb_prop. apply negb_true_iff in Hc. by rewrite Hc, IH.
Qed.

Lemma removeChars_app p a b : removeChars p (a +:+ b) = removeChars p a +:+ removeChars p b.
Proof. induction a as [|c a IH]; [done|]. rewrite string_append_cons. cbn [removeChars]. by destruct (p c); rewrite IH. Qed.

Lemma removeChars_keep p s : strForall (fun c => negb (p c)) s = true -> removeChars p s = s.
Proof.
  induction s as [|c s IH]; [done|]. cbn [strForall removeChars]. intros [Hc Hs]%andb_prop.
  apply negb_true_iff in Hc. by rewrite Hc, IH.
Qed.

Lemma removeChars_avoids p cs s : avoids cs s = true -> avoids cs (removeChars p s) = true.
Proof.
  induction s as [|c s IH]; [done|]. rewrite avoids_cons. intros [Hc Hs]%andb_prop.
  cbn [removeChars]. destruct (p c); [by apply IH|]. rewrite avoids_cons, Hc. by apply IH.
Qed.

(** A text without tab or newline is kept by the URL parser. *)
Lemma removeChars_querySyntax s : avoids querySyntax s = true -> removeChars isTabOrNewline s = s.
Proof.
  intros Hs. apply removeChars_keep. induction s as [|c s IH]; [done|].
  rewrite avoids_cons in Hs. apply andb_prop in Hs as [Hc Hs]. cbn [strForall]. rewrite IH by done.
  destruct c as [[] [] [] [] [] [] [] []]; vm_compute in Hc |- *; congruence.
Qed.

Lemma trimEnd_cons c s :
  trimEndC0 s = s -> (isC0OrSpace c = false \/ s <> EmptyString) -> trimEndC0 (String c s) = String c s.
Proof.
  intros Hs Hc. cbn [trimEndC0]. rewrite Hs. destruct Hc as [->|Hne]; [done|].
  destruct (String.eqb_spec s ""); [done|]. by rewrite andb_false_r.
Qed.

Lemma trimEnd_app a b : trimEndC0 a = a -> trimEndC0 b = b -> trimEndC0 (a +:+ b) = a +:+ b.
Proof.
  induction a as [|c a IH]; [done|]. intros Ha Hb. rewrite string_append_cons.
  assert (Ha' : trimEndC0 a = a).
  { cbn [trimEndC0] in Ha. destruct (isC0OrSpace c && String.eqb (trimEndC0 a) ""); [discriminate|congruence]. }
  apply trimEnd_cons; [by apply IH|].
  destruct (isC0OrSpace c) eqn:Hc; [right|by left].
  intros Hab. destruct a; [|discriminate]. cbn [trimEndC0] in Ha. by rewrite Hc in Ha.
Qed.

Lemma trimEnd_app_r a b : trimEndC0 b = b -> b <> EmptyString -> trimEndC0 (a +:+ b) = a +:+ b.
Proof.
  intros Hb Hne. induction a as [|c a IH]; [done|]. rewrite string_append_cons.
  apply trimEnd_cons; [done|right]. by destruct a.
Qed.

(** A URL [A?Q] whose [A] holds no [?] or [#] and starts with a visible
    character has the query [Q], when [Q] holds no [#], tab or newline and
    does not end with a blank. *)
Lemma urlQuery_app A Q :
  startsWith (fun c => negb (isC0OrSpace c)) A = true -> avoids ["?"; "#"]%char A = true ->
  avoids ["#"; "009"; "010"; "013"]%char Q = true -> trimEndC0 Q = Q ->
  urlQuery (A +:+ String "?" Q) = Some Q.
Proof.
  intros Hs HA HQ Htr. destruct A as [|a A']; [discriminate|]. unfold urlQuery.
  rewrite string_append_cons. cbn [startsWith] in Hs. cbn [trimStartC0]. apply negb_true_iff in Hs. rewrite Hs.
  rewrite <- string_append_cons, trimEnd_app_r by ((apply trimEnd_cons; [done|by left]) || discriminate).
  rewrite removeChars_app.
  change (removeChars isTabOrNewline (String "?" Q)) with (String "?" (removeChars isTabOrNewline Q)).
  rewrite (removeChars_keep _ Q).
  2:{ clear -HQ. induction Q as [|c Q IH]; [done|]. rewrite avoids_cons in HQ. apply andb_prop in HQ as [Hc HQ].
      cbn [strForall]. rewrite IH by done. destruct c as [[] [] [] [] [] [] [] []]; vm_compute in Hc |- *; congruence. }
  set (A := removeChars isTabOrNewline (String a A')).
  assert (HA2 : avoids ["?"; "#"]%char A = true) by (by apply removeChars_avoids).
  rewrite (breakAt_none "#").
  2:{ rewrite avoids_app, avoids_cons.
      assert (HA3 : avoids ["#"]%char A = true) by avoids_from HA2.
      assert (HQ3 : avoids ["#"]%char Q = true) by avoids_from HQ.
      by rewrite HA3, HQ3. }
  rewrite breakAt_app; [done|]. avoids_from HA2.
Qed.

Lemma split_avoid sep s : avoids [sep] s = true -> Listing.split sep s = [s].
Proof.
  induction s as [|c s IH]; [done|]. rewrite avoids_cons. cbn [existsb]. rewrite orb_false_r.
  intros [Hc Hs]%andb_prop. apply negb_true_iff in Hc. rewrite split_other, IH by done. done.
Qed.

Lemma split_sep_app sep a b : avoids [sep] a = true -> Listing.split sep (a +:+ String sep b) = a :: Listing.split sep b.
Proof.
  induction a as [|c a IH].
  - intros _. change ("" +:+ ?x) with x. cbn [Listing.split]. by rewrite Ascii.eqb_refl.
  - rewrite avoids_cons. cbn [existsb]. rewrite orb_false_r. intros [Hc Ha]%andb_prop.
    apply negb_true_iff in Hc. rewrite string_append_cons, split_other, IH by done. done.
Qed.

Lemma plusToSpace_keep s : avoids ["+"]%char s = true -> plusToSpace s = s.
Proof.
  induction s as [|c s IH]; [done|]. rewrite avoids_cons. cbn [existsb]. rewrite orb_false_r.
  intros [Hc Hs]%andb_prop. apply negb_true_iff in Hc. cbn [plusToSpace]. by rewrite Hc, IH.
Qed.

Lemma percentDecode_cons c s : Ascii.eqb c "%" = false -> percentDecode (String c s) = String c (percentDecode s).
Proof. intros Hc. destruct s as [|a [|b r]]; cbn [percentDecode]; rewrite ?Hc; reflexivity. Qed.

Lemma percentDecode_keep s : avoids ["%"]%char s = true -> percentDecode s = s.
Proof.
  induction s as [|c s IH]; [done|]. rewrite avoids_cons. cbn [existsb]. rewrite orb_false_r.
  intros [Hc Hs]%andb_prop. apply negb_true_iff in Hc. by rewrite percentDecode_cons, IH.
Qed.

Lemma formDecode_keep s : avoids ["+"; "%"]%char s = true -> formDecode s = s.
Proof.
  intros Hs. unfold formDecode. rewrite plusToSpace_keep by avoids_from Hs.
  apply percentDecode_keep. avoids_from Hs.
Qed.

(** A [name=value] piece is read as the pair. *)
Lemma formPiece_kv k v :
  avoids ["="; "+"; "%"]%char k = true -> avoids ["+"; "%"]%char v = true ->
  formPiece (k +:+ String "=" v) = Some (k, v).
Proof.
  intros Hk Hv. unfold formPiece. rewrite breakAt_app by avoids_from Hk.
  rewrite !formDecode_keep by (done || avoids_from Hk).
  destruct (String.eqb_spec (k +:+ String "=" v) ""); [by destruct k|done].
Qed.

Lemma formParams_amp R : formParams (String "&" R) = formParams R.
Proof. unfold formParams. change (String "&" R) with ("" +:+ String "&" R). by rewrite (split_sep_app "&" "" R). Qed.

Lemma digits_avoid s : allDigits s = true -> avoids querySyntax s = true.
Proof.
  induction s as [|c s IH]; [done|]. cbn [allDigits]. intros [Hc Hs]%andb_prop.
  rewrite avoids_cons, IH by done. rewrite andb_true_r.
  destruct c as [[] [] [] [] [] [] [] []]; vm_compute in Hc |- *; congruence.
Qed.

(** The decimal form of a chat id holds no character of the query syntax. *)
Lemma pretty_Z_avoids (z : Z) : avoids querySyntax (pretty z) = true.
Proof.
  destruct z as [|p|p]; [reflexivity| |].
  - change (pretty (Z.pos p)) with (pretty (Npos p)).
    destruct (pretty_pos_shape p) as (c & t & -> & Hc & Ht & _). apply digits_avoid. cbn. by rewrite Hc, Ht.
  - change (pretty (Z.neg p)) with (String "-" (pretty (Npos p))).
    destruct (pretty_pos_shape p) as (c & t & -> & Hc & Ht & _). rewrite avoids_cons.
    apply digits_avoid. cbn. by rewrite Hc, Ht.
Qed.

(** The query [chat_id=<id>&text=<text><R>] is read as the chat id and
    the text, then the parameters of [R], when the text holds no character
    of the query syntax and [R] is empty or starts with [&]. *)
Lemma formParams_query (z : Z) text R :
  avoids querySyntax text = true -> (R = EmptyString \/ exists R', R = String "&" R') ->
  formParams ("chat_id=" +:+ pretty z +:+ "&text=" +:+ text +:+ R) =
    [("chat_id", pretty z); ("text", text)] ++ formParams R.
Proof.
  intros Ht HR. pose proof (pretty_Z_avoids z) as Hz.
  assert (E : "chat_id=" +:+ pretty z +:+ "&text=" +:+ text +:+ R =
              ("chat_id" +:+ String "=" (pretty z)) +:+ String "&" (("text" +:+ String "=" text) +:+ R))
    by (rewrite !string_append_assoc; reflexivity).
  assert (Hz1 : avoids ["&"]%char (pretty z) = true) by avoids_from Hz.
  assert (Hz2 : avoids ["+"; "%"]%char (pretty z) = true) by avoids_from Hz.
  assert (Ht1 : avoids ["&"]%char text = true) by avoids_from Ht.
  assert (Ht2 : avoids ["+"; "%"]%char text = true) by avoids_from Ht.
  rewrite E. unfold formParams at 1.
  rewrite split_sep_app by (rewrite avoids_app, (avoids_cons _ "=" (pretty z)), Hz1; reflexivity).
  destruct HR as [->|[R' ->]].
  - rewrite string_app_nil_r, split_avoid by (rewrite avoids_app, (avoids_cons _ "=" text), Ht1; reflexivity).
    cbn [omap list_omap]. rewrite (formPiece_kv "chat_id"), (formPiece_kv "text") by (done || reflexivity). reflexivity.
  - rewrite split_sep_app by (rewrite avoids_app, (avoids_cons _ "=" text), Ht1; reflexivity).
    cbn [omap list_omap]. rewrite (formPiece_kv "chat_id"), (formPiece_kv "text") by (done || reflexivity).
    by rewrite formParams_amp.
Qed.

(** The optional parameters [sendMessage] appends after the text, as one
    string. *)
Definition urlSuffix (parseMode : option string) (disablePreview : option bool) (silentMode : bool) : string :=
  (match parseMode with
   | Some m => if String.eqb m "MarkdownV2" || String.eqb m "HTML" then "&parse_mode=" +:+ m else ""
   | None => ""
   end) +:+
  (match disablePreview with Some b => "&disable_web_page_preview=" +:+ boolString b | None => "" end) +:+
  (if silentMode then "&disable_notification=" +:+ boolString silentMode else "").

(** The parameters of the Bot API call [sendMessage] that the optional
    arguments stand for. *)
Definition optionalParams (parseMode : option string) (disablePreview : option bool) (silentMode : bool)
    : Datatypes.list (string * string)%type :=
  (match parseMode with
   | Some m => if String.eqb m "MarkdownV2" || String.eqb m "HTML" then [("parse_mode", m)] else []
   | None => []
   end) ++
  (match disablePreview with Some b => [("disable_web_page_preview", boolString b)] | None => [] end) ++
  (if silentMode then [("disable_notification", "true")] else []).

Lemma urlSuffix_facts pm dp sm :
  avoids ["#"; "009"; "010"; "013"]%char (urlSuffix pm dp sm) = true /\
  trimEndC0 (urlSuffix pm dp sm) = urlSuffix pm dp sm /\
  (urlSuffix pm dp sm = EmptyString \/ exists R, urlSuffix pm dp sm = String "&" R) /\
  formParams (urlSuffix pm dp sm) = optionalParams pm dp sm.
Proof.
  unfold urlSuffix, optionalParams.
  destruct pm as [m|];
    [destruct (String.eqb m "MarkdownV2") eqn:E1; [apply String.eqb_eq in E1; subst|];
     [|destruct (String.eqb m "HTML") eqn:E2; [apply String.eqb_eq in E2; subst|]]|];
    rewrite ?E1, ?E2; destruct dp as [[]|]; destruct sm;
    (split; [reflexivity|split; [reflexivity|split; [(left; reflexivity) || (right; eexists; reflexivity)|reflexivity]]]).
Qed.

(** C28: what Telegram reads from a [sendMessage] call: when the text
    holds none of [& # + %], no tab or newline, and does not end with a
    space or control character, and the token holds no [?] or [#], the
    query of the URL [fetch] requests is read as exactly the parameters
    the call stands for: the chat id, the text, then the optional ones. *)
Theorem sendMessage_delivers_params token (chatId : Z) text parseMode disablePreview silentMode :
  avoids ["?"; "#"]%char token = true -> avoids querySyntax text = true -> trimEndC0 text = text ->
  option_map formParams (urlQuery (sendMessageUrl token chatId text parseMode disablePreview silentMode)) =
    Some ([("chat_id", pretty chatId); ("text", text)] ++ optionalParams parseMode disablePreview silentMode).
Proof.
  intros Htok Ht Htr.
  destruct (urlSuffix_facts parseMode disablePreview silentMode) as (Ha & HtrR & Hshape & Hp).
  pose proof (pretty_Z_avoids chatId) as Hz.
  assert (Hz' : avoids ["#"; "009"; "010"; "013"]%char (pretty chatId) = true) by avoids_from Hz.
  assert (Ht' : avoids ["#"; "009"; "010"; "013"]%char text = true) by avoids_from Ht.
  assert (Hurl : sendMessageUrl token chatId text parseMode disablePreview silentMode =
                 ("https://api.telegram.org/bot" +:+ token +:+ "/sendMessage") +:+
                 String "?" ("chat_id=" +:+ pretty chatId +:+ "&text=" +:+ text +:+
                             urlSuffix parseMode disablePreview silentMode)).
  { unfold sendMessageUrl, urlSuffix, apiUrl.
    destruct parseMode as [m|]; [destruct (String.eqb m "MarkdownV2" || String.eqb m "HTML")|];
      destruct disablePreview as [b|]; destruct silentMode; rewrite ?string_app_nil_r, !string_append_assoc;
      reflexivity. }
  rewrite Hurl, urlQuery_app.
  - cbn [option_map]. by rewrite formParams_query, Hp.
  - reflexivity.
  - rewrite !avoids_app, Htok. reflexivity.
  - rewrite !avoids_app, Hz', Ht', Ha. reflexivity.
  - set (R := urlSuffix parseMode disablePreview silentMode).
    assert (E : "chat_id=" +:+ pretty chatId +:+ "&text=" +:+ text +:+ R =
                ("chat_id=" +:+ pretty chatId +:+ "&text") +:+ String "=" (text +:+ R))
      by (rewrite !string_append_assoc; reflexivity).
    rewrite E, trimEnd_app_r; [done| |discriminate].
    apply trimEnd_cons; [by apply trimEnd_app|by left].
Qed.

(** ** JSON bodies *)

(** The JSON values the client sends: strings, integers, arrays and
    objects (the fields of an object in insertion order). *)
#[warnings="-register-all"]
Inductive Json :=
| JStr (s : string)
| JNum (z : Z)
| JArr (l : Datatypes.list Json)
| JObj (l : Datatypes.list (string * Json)).

(** A nested induction principle: the property holds of the elements of
    an array and the values of an object. *)
Fixpoint Json_ind' (P : Json -> Prop) (HS : forall s, P (JStr s)) (HN : forall z, P (JNum z))
    (HA : forall l, Forall P l -> P (JArr l)) (HO : forall l, Forall (fun kv => P kv.2) l -> P (JObj l))
    (j : Json) {struct j} : P j :=
  match j with
  | JStr s => HS s
  | JNum z => HN z
  | JArr l => HA l ((fix go l : Forall P l :=
                       match l return Forall P l with [] => @List.Forall_nil _ P | x :: l' => @List.Forall_cons _ P x l' (Json_ind' P HS HN HA HO x) (go l') end) l)
  | JObj l => HO l ((fix go l : Forall (fun kv => P kv.2) l :=
                       match l return Forall (fun kv => P kv.2) l with
                       | [] => @List.Forall_nil _ (fun kv => P kv.2)
                       | kv :: l' => @List.Forall_cons _ (fun kv => P kv.2) kv l' (Json_ind' P HS HN HA HO kv.2) (go l')
                       end) l)
  end.

Definition quoteChar : ascii := "034".

Definition hexDigit (n : nat) : ascii := if (n <? 10)%nat then ascii_of_nat (48 + n) else ascii_of_nat (87 + n).

(** One code unit in [QuoteJSONString] (ECMA-262): the short escapes,
    [\u00XX] for the other control characters, itself otherwise. *)
Definition jsonEscapeChar (c : ascii) : string :=
  let n := nat_of_ascii c in
  if (n =? 8)%nat then "\b"
  else if (n =? 9)%nat then "\t"
  else if (n =? 10)%nat then "\n"
  else if (n =? 12)%nat then "\f"
  else if (n =? 13)%nat then "\r"
  else if (n =? 34)%nat then String "\" (String quoteChar EmptyString)
  else if (n =? 92)%nat then "\\"
  else if (n <? 32)%nat then "\u00" +:+ String (hexDigit (n / 16)) (String (hexDigit (n mod 16)) EmptyString)
  else String c EmptyString.

Fixpoint quoteBody (s : string) : string :=
  match s with
  | String c s' => jsonEscapeChar c +:+ quoteBody s'
  | EmptyString => EmptyString
  end.

Definition quoteJson (s : string) : string := String quoteChar (quoteBody s +:+ String quoteChar EmptyString).

(** [Array.prototype.join(',')] *)
Fixpoint commaSep (l : Datatypes.list string) : string :=
  match l with
  | [] => EmptyString
  | [x] => x
  | x :: l' => x +:+ String "," (commaSep l')
  end.

(** [JSON.stringify] on these values. *)
Fixpoint stringify (j : Json) : string :=
  match j with
  | JStr s => quoteJson s
  | JNum z => pretty z
  | JArr l => "[" +:+ commaSep (map stringify l) +:+ "]"
  | JObj l => "{" +:+ commaSep (map (fun kv => quoteJson kv.1 +:+ ":" +:+ stringify kv.2) l) +:+ "}"
  end.

(** The bodies of [registerCommands] and [sendRichMessage]: a
    [BotCommand] object has [command], [description] and, when set,
    [params]. *)
Definition commandJson (entry : CommandType * string * option string) : Json :=
  let '(c, d, p) := entry in
  JObj ([("command", JStr (commandString c)); ("description", JStr d)] ++
        match p with Some p => [("params", JStr p)] | None => [] end).

Definition registerCommandsBody (commands : Datatypes.list (CommandType * string * option string)) (chatId : Z) : Json :=
  JObj [("commands", JArr (map commandJson commands));
        ("scope", JObj [("type", JStr "chat_administrators"); ("chat_id", JNum chatId)])].

Definition sendRichMessageBody (chatId : Z) (text : string) : Json :=
  JObj [("chat_id", JNum chatId); ("text", JStr text); ("parse_mode", JStr "MarkdownV2")].

(** The request [TelegramApi] makes for each call of the bot. *)
Definition requestOf (token : string) (call : ApiCall) : HttpRequest :=
  match call with
  | SendMessage chat text => HttpGet (sendMessageUrl token chat text None None false)
  | RegisterCommands chat => HttpPost (apiUrl token "setMyCommands") (stringify (registerCommandsBody commandList chat))
  end.

(** [sendRichMessage(chatId, text)] *)
Definition sendRichMessageRequest (token : string) (chatId : Z) (text : string) : HttpRequest :=
  HttpPost (apiUrl token "sendMessage") (stringify (sendRichMessageBody chatId text)).

(** ** How a JSON body is read *)

(** The character a short escape [\e] stands for. *)
Definition unescape (e : ascii) : option ascii :=
  if Ascii.eqb e quoteChar then Some quoteChar
  else if Ascii.eqb e "\" then Some "\"%char
  else if Ascii.eqb e "/" then Some "/"%char
  else if Ascii.eqb e "b" then Some "008"%char
  else if Ascii.eqb e "f" then Some "012"%char
  else if Ascii.eqb e "n" then Some "010"%char
  else if Ascii.eqb e "r" then Some "013"%char
  else if Ascii.eqb e "t" then Some "009"%char
  else None.

Definition consFst (c : ascii) (o : option (string * string)%type) : option (string * string)%type :=
  option_map (fun tr => (String c tr.1, tr.2)) o.

(** The contents of a JSON string after its opening quote, up to the
    closing quote, and the text after it.  A raw control character is an
    error; a [\uXXXX] escape above [0xFF] is outside the 8-bit model and
    is an error too. *)
Fixpoint readStr (s : string) : option (string * string)%type :=
  match s with
  | EmptyString => None
  | String c s' =>
      if Ascii.eqb c quoteChar then Some (EmptyString, s')
      else if Ascii.eqb c "\" then
        match s' with
        | String e s'' =>
            if Ascii.eqb e "u" then
              match s'' with
              | String h1 (String h2 (String h3 (String h4 r))) =>
                  match hexVal h1, hexVal h2, hexVal h3, hexVal h4 with
                  | Some a, Some b, Some c', Some d =>
                      let n := (4096 * a + 256 * b + 16 * c' + d)%nat in
                      if (n <? 256)%nat then consFst (ascii_of_nat n) (readStr r) else None
                  | _, _, _, _ => None
                  end
              | _ => None
              end
            else match unescape e with Some d => consFst d (readStr s'') | None => None end
        | EmptyString => None
        end
      else if (nat_of_ascii c <? 32)%nat then None
      else consFst c (readStr s')
  end.

(** The longest run of decimal digits at the start. *)
Fixpoint spanDigits (s : string) : (string * string)%type :=
  match s with
  | String c s' => if isDecDigit c then let '(d, r) := spanDigits s' in (String c d, r) else (EmptyString, s)
  | EmptyString => (EmptyString, EmptyString)
  end.

(** An integer: an optional minus sign and digits.  Fractions and
    exponents, which [JSON.stringify] of an integer never writes, are
    not read. *)
Definition readNumber (s : string) : option (Json * string)%type :=
  let '(neg, s1) := match s with
                    | String c s' => if Ascii.eqb c "-" then (true, s') else (false, s)
                    | EmptyString => (false, s)
                    end in
  let '(ds, r) := spanDigits s1 in
  if String.eqb ds "" then None
  else Some (JNum ((if neg then -1 else 1) * digitsValue 10 0 ds), r).

(** A JSON value, the elements of an array after its [[] and the members
    of an object after its [{], each with the text after it.  The fuel
    decreases at every value, element and member. *)
Fixpoint readValue (fuel : nat) (s : string) {struct fuel} : option (Json * string)%type :=
  match fuel with
  | O => None
  | S f =>
      match s with
      | String c s' =>
          if Ascii.eqb c quoteChar then option_map (fun tr => (JStr tr.1, tr.2)) (readStr s')
          else if Ascii.eqb c "[" then
            match s' with
            | String d r => if Ascii.eqb d "]" then Some (JArr [], r)
                            else option_map (fun lr => (JArr lr.1, lr.2)) (readItems f s')
            | EmptyString => None
            end
          else if Ascii.eqb c "{" then
            match s' with
            | String d r => if Ascii.eqb d "}" then Some (JObj [], r)
                            else option_map (fun lr => (JObj lr.1, lr.2)) (readMembers f s')
            | EmptyString => None
            end
          else readNumber s
      | EmptyString => None
      end
  end
with readItems (fuel : nat) (s : string) {struct fuel} : option (Datatypes.list Json * string)%type :=
  match fuel with
  | O => None
  | S f =>
      match readValue f s with
      | Some (v, String c r) =>
          if Ascii.eqb c "," then option_map (fun lr => (v :: lr.1, lr.2)) (readItems f r)
          else if Ascii.eqb c "]" then Some ([v], r)
          else None
      | _ => None
      end
  end
with readMembers (fuel : nat) (s : string) {struct fuel} : option (Datatypes.list (string * Json) * string)%type :=
  match fuel with
  | O => None
  | S f =>
      match s with
      | String q s' =>
          if Ascii.eqb q quoteChar then
            match readStr s' with
            | Some (k, String colon r) =>
                if Ascii.eqb colon ":" then
                  match readValue f r with
                  | Some (v, String c r') =>
                      if Ascii.eqb c "," then option_map (fun lr => ((k, v) :: lr.1, lr.2)) (readMembers f r')
                      else if Ascii.eqb c "}" then Some ([(k, v)], r')
                      else None
                  | _ => None
                  end
                else None
            | _ => None
            end
          else None
      | EmptyString => None
      end
  end.

(** The receiver's [JSON.parse] of a whole body, with one unit of fuel
    per character. *)
Definition parseJson (s : string) : option Json :=
  match readValue (S (String.length s)) s with
  | Some (j, EmptyString) => Some j
  | _ => None
  end.

(** ** Reading back what [JSON.stringify] writes *)

(** Every code unit, escaped or not, is read back as itself. *)
Lemma readStr_escape c r : readStr (jsonEscapeChar c +:+ r) = consFst c (readStr r).
Proof. destruct c as [[] [] [] [] [] [] [] []]; reflexivity. Qed.

Lemma readStr_quote s rest : readStr (quoteBody s +:+ String quoteChar rest) = Some (s, rest).
Proof.
  induction s as [|c s IH]; [reflexivity|]. cbn [quoteBody].
  by rewrite string_append_assoc, readStr_escape, IH.
Qed.

Lemma readStr_quoteJson s rest : readStr (quoteBody s +:+ String quoteChar EmptyString +:+ rest) = Some (s, rest).
Proof. exact (readStr_quote s rest). Qed.

Lemma spanDigits_app d r :
  allDigits d = true -> startsWith isDecDigit r = false -> spanDigits (d +:+ r) = (d, r).
Proof.
  intros Hd Hr. induction d as [|c d IH].
  - destruct r as [|c r]; [done|]. cbn in Hr. change ("" +:+ ?x) with x. cbn [spanDigits]. by rewrite Hr.
  - cbn [allDigits] in Hd. apply andb_prop in Hd as [Hc Hd].
    rewrite string_append_cons. cbn [spanDigits]. by rewrite Hc, IH.
Qed.

(** The decimal form of an integer is read back, before any text that
    does not start with a digit. *)
Lemma readNumber_pretty (z : Z) r : startsWith isDecDigit r = false -> readNumber (pretty z +:+ r) = Some (JNum z, r).
Proof.
  intros Hr. destruct z as [|p|p].
  - change (pretty 0%Z) with ("0" +:+ EmptyString). rewrite string_append_assoc. unfold readNumber.
    change ("0" +:+ EmptyString +:+ r) with (String "0" r). cbn [Ascii.eqb Bool.eqb].
    change (String "0" r) with ("0" +:+ r). by rewrite spanDigits_app.
  - change (pretty (Z.pos p)) with (pretty (Npos p)).
    destruct (pretty_pos_shape p) as (c & t & Hs & Hc & Ht & Hv). rewrite Hs. unfold readNumber.
    rewrite string_append_cons, (digit_not_char c "-") by done. rewrite <- string_append_cons.
    rewrite spanDigits_app by (done || (cbn [allDigits]; by rewrite Hc, Ht)). cbn [String.eqb]. by rewrite Hv.
  - change (pretty (Z.neg p)) with (String "-" (pretty (Npos p))).
    destruct (pretty_pos_shape p) as (c & t & Hs & Hc & Ht & Hv). rewrite Hs. unfold readNumber.
    rewrite string_append_cons. cbn [Ascii.eqb Bool.eqb].
    rewrite spanDigits_app by (done || (cbn [allDigits]; by rewrite Hc, Ht)). cbn [String.eqb]. by rewrite Hv.
Qed.

(** The fuel a value needs: one unit per array or object, and one per
    element and member. *)
Fixpoint size (j : Json) : nat :=
  match j with
  | JStr _ | JNum _ => 0
  | JArr l => S (list_sum (map (fun x => S (size x)) l))
  | JObj l => S (list_sum (map (fun kv => S (size kv.2)) l))
  end.

(** What the reader needs of the text after a value: it does not go on
    with a digit. *)
Definition ends (rest : string) : bool := negb (startsWith isDecDigit rest).

Definition member (kv : string * Json) (write : Json -> string) : string :=
  quoteJson kv.1 +:+ ":" +:+ write kv.2.

Lemma commaSep_cons2 x y ys : commaSep (x :: y :: ys) = x +:+ String "," (commaSep (y :: ys)).
Proof. reflexivity. Qed.

Lemma pretty_head (z : Z) : exists c t, pretty z = String c t /\ (isDecDigit c || Ascii.eqb c "-") = true.
Proof.
  destruct z as [|p|p]; [by exists "0"%char, EmptyString| |].
  - change (pretty (Z.pos p)) with (pretty (Npos p)).
    destruct (pretty_pos_shape p) as (c & t & -> & Hc & _). exists c, t. by rewrite Hc.
  - by exists "-"%char, (pretty (Npos p)).
Qed.

(** A number is read by [readNumber]. *)
Lemma readValue_pretty f (z : Z) rest :
  ends rest = true -> readValue (S f) (pretty z +:+ rest) = Some (JNum z, rest).
Proof.
  intros Hr. rewrite <- readNumber_pretty by (unfold ends in Hr; by destruct (startsWith isDecDigit rest)).
  destruct (pretty_head z) as (c & t & -> & Hc). rewrite string_append_cons. cbn [readValue].
  assert (Hq : Ascii.eqb c quoteChar = false /\ Ascii.eqb c "[" = false /\ Ascii.eqb c "{" = false)
    by (destruct c as [[] [] [] [] [] [] [] []]; vm_compute in Hc |- *; (discriminate || auto)).
  destruct Hq as (-> & -> & ->). reflexivity.
Qed.

Lemma stringify_head j : exists c t, stringify j = String c t /\ Ascii.eqb c "]" = false.
Proof.
  destruct j as [s|z|l|l]; try by eexists _, _.
  destruct (pretty_head z) as (c & t & Hs & Hc). exists c, t. split; [done|].
  destruct c as [[] [] [] [] [] [] [] []]; vm_compute in Hc |- *; (discriminate || auto).
Qed.

Definition ReadsBack (j : Json) : Prop :=
  forall f rest, (size j < f)%nat -> ends rest = true -> readValue f (stringify j +:+ rest) = Some (j, rest).

Lemma readItems_stringify l f rest :
  Forall ReadsBack l -> l <> [] -> (list_sum (map (fun x => S (size x)) l) < f)%nat ->
  readItems f (commaSep (map stringify l) +:+ String "]" rest) = Some (l, rest).
Proof.
  revert f. induction l as [|x l IH]; intros f HF Hne Hf; [done|].
  apply Forall_cons in HF as [Hx HF]. destruct f as [|f]; [lia|]. cbn [map] in Hf |- *. simpl in Hf.
  cbn [readItems]. destruct l as [|y l].
  - change (commaSep [stringify x]) with (stringify x). rewrite Hx by (reflexivity || lia). reflexivity.
  - cbn [map]. rewrite commaSep_cons2, string_append_assoc, string_append_cons, Hx by (reflexivity || lia). cbn [Ascii.eqb Bool.eqb].
    rewrite IH by (done || lia). reflexivity.
Qed.

Lemma readMembers_stringify l f rest :
  Forall (fun kv => ReadsBack kv.2) l -> l <> [] -> (list_sum (map (fun kv => S (size kv.2)) l) < f)%nat ->
  readMembers f (commaSep (map (fun kv => quoteJson kv.1 +:+ ":" +:+ stringify kv.2) l) +:+ String "}" rest) =
    Some (l, rest).
Proof.
  revert f. induction l as [|[k v] l IH]; intros f HF Hne Hf; [done|].
  apply Forall_cons in HF as [Hv HF]. cbn [snd] in Hv. destruct f as [|f]; [lia|]. cbn [map fst snd] in Hf |- *. simpl in Hf.
  destruct l as [|kv l]; cbn [map]; [change (commaSep [?x]) with x|rewrite commaSep_cons2];
    unfold quoteJson; rewrite !string_append_assoc, string_append_cons;
    cbn [readMembers]; rewrite Ascii.eqb_refl, string_append_assoc, readStr_quoteJson; change (":" +:+ ?x) with (String ":" x);
    cbn [Ascii.eqb Bool.eqb].
  - rewrite Hv by (reflexivity || lia). reflexivity.
  - rewrite string_append_cons, Hv by (reflexivity || lia). cbn [Ascii.eqb Bool.eqb].
    rewrite IH by (done || lia). reflexivity.
Qed.

(** Every value reads back, given more fuel than its [size], before any
    text that does not go on with a digit. *)
Lemma readValue_stringify j : ReadsBack j.
Proof.
  induction j as [s|z|l IH|l IH] using Json_ind'; intros [|f] rest Hf Hr; try (cbn [size] in Hf; lia).
  - cbn [stringify]. unfold quoteJson. rewrite string_append_cons. cbn [readValue].
    rewrite Ascii.eqb_refl, string_append_assoc, readStr_quoteJson. reflexivity.
  - by apply readValue_pretty.
  - cbn [stringify size] in Hf |- *. rewrite !string_append_assoc. change ("[" +:+ ?x) with (String "[" x).
    cbn [readValue Ascii.eqb Bool.eqb]. change ("]" +:+ ?x) with (String "]" x).
    destruct l as [|x l']; [reflexivity|].
    destruct (stringify_head x) as (c & t & Hs & Hc).
    remember (commaSep (map stringify (x :: l')) +:+ String "]" rest) as S eqn:ES.
    assert (HS : exists T, S = String c T).
    { subst S. destruct l' as [|y l'']; cbn [map]; [change (commaSep [?a]) with a|rewrite commaSep_cons2];
        rewrite Hs; by eexists. }
    destruct HS as [T ->]. rewrite Hc, ES, readItems_stringify by (done || lia). reflexivity.
  - cbn [stringify size] in Hf |- *. rewrite !string_append_assoc. change ("{" +:+ ?x) with (String "{" x).
    cbn [readValue Ascii.eqb Bool.eqb]. change ("}" +:+ ?x) with (String "}" x).
    destruct l as [|[k v] l']; [reflexivity|].
    remember (commaSep (map (fun kv => quoteJson kv.1 +:+ ":" +:+ stringify kv.2) ((k, v) :: l')) +:+
              String "}" rest) as S eqn:ES.
    assert (HS : exists T, S = String quoteChar T).
    { subst S. destruct l' as [|y l'']; cbn [map]; [change (commaSep [?a]) with a|rewrite commaSep_cons2];
        by eexists. }
    destruct HS as [T ->]. cbn [Ascii.eqb Bool.eqb]. rewrite ES, readMembers_stringify by (done || lia).
    reflexivity.
Qed.

Lemma string_length_app (a b : string) : String.length (a +:+ b) = (String.length a + String.length b)%nat.
Proof. induction a as [|c a IH]; [done|]. rewrite string_append_cons. cbn [String.length]. by rewrite IH. Qed.

Lemma list_sum_map_le {A} (f g : A -> nat) l :
  Forall (fun x => f x <= g x)%nat l -> (list_sum (map f l) <= list_sum (map g l))%nat.
Proof. induction 1; simpl; lia. Qed.

Lemma commaSep_length l :
  (list_sum (map (fun s => S (String.length s)) l) <= S (String.length (commaSep l)))%nat.
Proof.
  induction l as [|x [|y l] IH]; [simpl; lia|simpl; lia|].
  rewrite commaSep_cons2, string_length_app. cbn [String.length]. simpl in IH |- *. lia.
Qed.

(** A value is at least as long as its [size], so one unit of fuel per
    character is enough. *)
Lemma size_le_length j : (size j <= String.length (stringify j))%nat.
Proof.
  induction j as [s|z|l IH|l IH] using Json_ind'; try (cbn [size]; lia).
  - cbn [size stringify]. rewrite !string_length_app. cbn [String.length].
    pose proof (commaSep_length (map stringify l)) as Hc. rewrite map_map in Hc.
    assert (Hl : (list_sum (map (fun x => S (size x)) l) <=
                  list_sum (map (fun x => S (String.length (stringify x))) l))%nat)
      by (apply list_sum_map_le; eapply Forall_impl; [exact IH|]; cbn; lia).
    lia.
  - cbn [size stringify]. rewrite !string_length_app. cbn [String.length].
    pose proof (commaSep_length (map (fun kv => quoteJson kv.1 +:+ ":" +:+ stringify kv.2) l)) as Hc.
    rewrite map_map in Hc.
    assert (Hl : (list_sum (map (fun kv => S (size kv.2)) l) <=
                  list_sum (map (fun kv => S (String.length (quoteJson kv.1 +:+ ":" +:+ stringify kv.2))) l))%nat).
    { apply list_sum_map_le. eapply Forall_impl; [exact IH|]. intros [k v]; cbn [snd fst].
      rewrite !string_length_app. cbn [String.length]. lia. }
    lia.
Qed.

(** [JSON.parse(JSON.stringify(v))] gives back [v]. *)
Lemma parseJson_stringify j : parseJson (stringify j) = Some j.
Proof.
  unfold parseJson. pose proof (size_le_length j) as Hs.
  pose proof (readValue_stringify j (S (String.length (stringify j))) EmptyString ltac:(lia) eq_refl) as H.
  rewrite string_app_nil_r in H. by rewrite H.
Qed.

(** The JSON bodies the client POSTs are read back exactly: a post
    sent with [sendRichMessage] arrives as the chat id, the rendered text
    with every character it holds, and the parse mode MarkdownV2, and
    [registerCommands] registers [commandList] for the administrators of
    the chat. *)
Theorem json_bodies_read_back token (chat : Z) text :
  (exists body, sendRichMessageRequest token chat text = HttpPost (apiUrl token "sendMessage") body /\
     parseJson body = Some (JObj [("chat_id", JNum chat); ("text", JStr text); ("parse_mode", JStr "MarkdownV2")])) /\
  (exists body, requestOf token (RegisterCommands chat) = HttpPost (apiUrl token "setMyCommands") body /\
     parseJson body =
       Some (JObj [("commands", JArr (map commandJson commandList));
                   ("scope", JObj [("type", JStr "chat_administrators"); ("chat_id", JNum chat)])])).
Proof. split; eexists; split; [reflexivity|apply parseJson_stringify|reflexivity|apply parseJson_stringify]. Qed.

(** ** What the Bot API accepts *)

(** The types of the Bot API's parameters: strings with a constraint,
    integers, arrays of at most [max] elements, and objects by their
    fields, each required or optional.  Fields the type does not name are
    ignored, as Telegram does. *)
#[warnings="-register-all"]
Inductive Schema :=
| SStr (ok : string -> bool)
| SInt
| SArr (max : nat) (item : Schema)
| SObj (fields : Datatypes.list (string * bool * Schema)).

Fixpoint fieldType (name : string) (fields : Datatypes.list (string * bool * Schema)) : option Schema :=
  match fields with
  | [] => None
  | (n, _, t) :: fs => if String.eqb n name then Some t else fieldType name fs
  end.

Fixpoint conforms (t : Schema) (j : Json) {struct j} : bool :=
  match t, j with
  | SStr ok, JStr s => ok s
  | SInt, JNum _ => true
  | SArr max item, JArr l => (length l <=? max)%nat && forallb (conforms item) l
  | SObj fields, JObj kvs =>
      forallb (fun kv => match fieldType kv.1 fields with Some ft => conforms ft kv.2 | None => true end) kvs &&
      forallb (fun f => negb f.1.2 || existsb (fun kv => String.eqb kv.1 f.1.1) kvs) fields
  | _, _ => false
  end.

Definition lengthIn (lo hi : nat) (s : string) : bool := (lo <=? String.length s)%nat && (String.length s <=? hi)%nat.

Definition isLowerAlpha (c : ascii) : bool := (97 <=? nat_of_ascii c)%nat && (nat_of_ascii c <=? 122)%nat.

(** [BotCommand]: [command] of 1 to 32 characters, lowercase English
    letters, digits and underscores; [description] of 1 to 256
    characters. *)
Definition botCommandType : Schema :=
  SObj [("command", true, SStr (fun s => lengthIn 1 32 s &&
                                       strForall (fun c => isLowerAlpha c || isDecDigit c || Ascii.eqb c "_") s));
        ("description", true, SStr (lengthIn 1 256))].

(** The parameters of [setMyCommands]: at most 100 commands and an
    optional scope, here [BotCommandScopeChatAdministrators]. *)
Definition setMyCommandsType : Schema :=
  SObj [("commands", true, SArr 100 botCommandType);
        ("scope", false, SObj [("type", true, SStr (String.eqb "chat_administrators")); ("chat_id", true, SInt)])].

(** The body of [registerCommands] has the type the Bot API gives
    [setMyCommands], for every chat: the bot's command names and
    descriptions meet Telegram's rules, so the commands can be
    registered. *)
Theorem registerCommands_well_typed (chat : Z) :
  conforms setMyCommandsType (registerCommandsBody commandList chat) = true.
Proof. vm_compute. reflexivity. Qed.

Module TelegramExamples.

Definition token0 : string := "123456:ABC-DEF".

Lemma sendMessage_delivers_params_witness :
  option_map formParams (urlQuery (sendMessageUrl token0 (-100) "Unsubscribed from: https://example.com/rss"
                                     (Some "MarkdownV2") (Some true) true)) =
    Some [("chat_id", "-100"); ("text", "Unsubscribed from: https://example.com/rss");
          ("parse_mode", "MarkdownV2"); ("disable_web_page_preview", "true"); ("disable_notification", "true")].
Proof.
  exact (sendMessage_delivers_params token0 (-100) "Unsubscribed from: https://example.com/rss"
           (Some "MarkdownV2") (Some true) true eq_refl eq_refl eq_refl).
Defined.

(** Finding: the help message reaches Telegram without its line breaks,
    which the URL parser removes. *)
Example help_reply_loses_newlines :
  helpText <> removeChars isTabOrNewline helpText /\
  option_map formParams (urlQuery (sendMessageUrl token0 5 helpText None None false)) =
    Some [("chat_id", "5"); ("text", removeChars isTabOrNewline helpText)].
Proof. split; [discriminate|vm_compute; reflexivity]. Qed.

(** Finding: a feed URL with [&] or [#] is cut in the replies that name
    it: the list of feeds ends at the [&], whose rest becomes a parameter
    of its own, and [#] cuts the text. *)
Example reply_url_mangled :
  option_map formParams (urlQuery (sendMessageUrl token0 5 "Subscribed feeds:
- https://example.com/rss?a=1&b=2" None None false)) =
    Some [("chat_id", "5"); ("text", "Subscribed feeds:- https://example.com/rss?a=1"); ("b", "2")] /\
  option_map formParams (urlQuery (sendMessageUrl token0 5 "Unsubscribed from: https://example.com/feed#top"
                                     None None false)) =
    Some [("chat_id", "5"); ("text", "Unsubscribed from: https://example.com/feed")].
Proof. vm_compute. repeat split. Qed.

(** The command type rejects a name with capitals or a hyphen, and a
    description that is empty. *)
Example botCommandType_rejects :
  conforms botCommandType (JObj [("command", JStr "Unsub-All"); ("description", JStr "Unsubscribe")]) = false /\
  conforms botCommandType (JObj [("command", JStr "list"); ("description", JStr "")]) = false /\
  conforms botCommandType (JObj [("command", JStr "list")]) = false.
Proof. vm_compute. repeat split. Qed.

End TelegramExamples.
