(* ===== verification/Worker.v ===== *)
(** * The Worker's entry points: [src/src/index.ts]

    [fetch(request, env)] is the Telegram webhook: a [POST] carries an
    [Update] as JSON; it is answered 400 without a message, 401 without the
    secret token header, and otherwise handed to [Bot.exec], 200 when that
    resolves and 500 when it rejects.  Anything but a [POST] gets
    "Hello world!".  [scheduled] runs [Bot.fetchAll] in a [try].

    A request is its method, its body as read by [request.json()] ([None]
    when the body is not JSON, which rejects and leaves the runtime to
    answer) and the value of its [X-Telegram-Bot-Api-Secret-Token]
    header.  [fetchR] relates the bot state before and after a request to
    the outcome, because [Bot.exec] is a relation ([Bot.execR]). *)

From stdpp Require Import base list strings gmap.
From Stdlib Require Import ZArith.
From S2P Require Import Prelude Model Rss Updater Store Fanout Listing Sweep Bot.

Open Scope Z_scope.

(** [interface Env]: the secrets the handlers read. *)
Record Env := mkEnv {
  telegramToken : string;
  secretToken : string
}.

(** The Telegram [Update] of the body: [payload.message]. *)
Record Payload := mkPayload {
  payloadMessage : option Message
}.

Record Request := mkRequest {
  reqMethod : string;
  reqBody : option (option Payload);
  reqSecret : option string
}.

Record HttpResponse := mkHttpResponse {
  hStatus : Z;
  hBody : string
}.

(** What the handler's promise settles to: a response, or the rejection of
    [request.json()], which escapes the handler. *)
Inductive Outcome :=
| Respond (r : HttpResponse)
| Uncaught.

(** [payload === null || !payload.message]: the message, when there is
    one. *)
Definition payloadOf (body : option Payload) : option Message :=
  match body with Some p => payloadMessage p | None => None end.

(** [request.headers.has(h) && request.headers.get(h) === env.SECRET_TOKEN] *)
Definition authorized (env : Env) (req : Request) : bool :=
  match reqSecret req with Some s => String.eqb s (secretToken env) | None => false end.

Section Handlers.
Context `{Platform} (net : Network) (env : Env).

(** [fetch(request, env, ctx)] *)
Inductive fetchR : BotState -> Request -> Outcome -> BotState -> Prop :=
| fetch_hello st req :
    reqMethod req <> "POST" -> fetchR st req (Respond (mkHttpResponse 200 "Hello world!")) st
| fetch_not_json st req :
    reqMethod req = "POST" -> reqBody req = None -> fetchR st req Uncaught st
| fetch_bad_request st req p :
    reqMethod req = "POST" -> reqBody req = Some p -> payloadOf p = None ->
    fetchR st req (Respond (mkHttpResponse 400 "Bad request")) st
| fetch_unauthorized st req p m :
    reqMethod req = "POST" -> reqBody req = Some p -> payloadOf p = Some m -> authorized env req = false ->
    fetchR st req (Respond (mkHttpResponse 401 "Unauthorized")) st
| fetch_ok st req p m st' :
    reqMethod req = "POST" -> reqBody req = Some p -> payloadOf p = Some m -> authorized env req = true ->
    execR net st m (Ok tt, st') -> fetchR st req (Respond (mkHttpResponse 200 "OK")) st'
| fetch_error st req p m e st' :
    reqMethod req = "POST" -> reqBody req = Some p -> payloadOf p = Some m -> authorized env req = true ->
    execR net st m (Err e, st') -> fetchR st req (Respond (mkHttpResponse 500 "Internal server error")) st'.
End Handlers.

(** [scheduled(event, env, ctx)]: [fetchAll] inside a [try] whose [catch]
    only logs; [fetchAll] does not throw in this model. *)
Inductive scheduledR `{Platform} `{KVListing} (net : Network) : World -> World -> Prop :=
| scheduled_run w w' : fetchAll net w w' -> scheduledR net w w'.

(** C13: Finding: the module-level [feedCache] of [updater.ts] is never
    cleared or refreshed.  In every scheduled run ([scheduled], then
    [fetchAll]), over any KV listing, in every interleaving of the tasks
    and whatever the feeds answer, a feed cached when the run starts is
    still cached, unchanged, when it ends.  So every later run of the same
    worker serves it without a request (C14), however old it is, and
    misses what the feed published since. *)
Theorem scheduled_keeps_feed_cache `{Platform} `{KVListing} net w w' u f :
  scheduledR net w w' -> wCache w !! u = Some f -> wCache w' !! u = Some f.
Proof. intros [w0 w1 Hrun]. exact (fetchAllFrom_kept net u f None w0 w1 Hrun). Qed.

(** C26: a request without the right [X-Telegram-Bot-Api-Secret-Token]
    changes nothing: [Bot.exec] is not reached, no store write and no
    Telegram call happen, and a [POST] is answered 400 or 401 (or not at
    all when its body is not JSON).  The 400 comes before the token check,
    so an unauthenticated caller learns whether its body is a valid
    update. *)
Theorem unauthenticated_request_no_effect `{Platform} net env st req out st' :
  fetchR net env st req out st' -> reqSecret req <> Some (secretToken env) ->
  st' = st /\
  (reqMethod req = "POST" -> out = Uncaught \/ exists r, out = Respond r /\ (hStatus r = 400 \/ hStatus r = 401)).
Proof.
  intros Hf Hauth. destruct Hf as [st req Hm|st req Hm Hb|st req p Hm Hb Hp|st req p m Hm Hb Hp Ha
                                  |st req p m st' Hm Hb Hp Ha _|st req p m e st' Hm Hb Hp Ha _];
    try (unfold authorized in Ha; destruct (reqSecret req) as [s|]; [apply String.eqb_eq in Ha|]; congruence).
  - split; [done|by intros].
  - split; [done|by left].
  - split; [done|right; eexists; split; [reflexivity|by left]].
  - split; [done|right; eexists; split; [reflexivity|by right]].
Qed.

Module WorkerExamples.
Import TestPlatform BotExamples.

Definition env0 : Env := mkEnv "token" "s3cret".

(** A [/sub G] update posted with a wrong secret. *)
Definition reqForged : Request :=
  mkRequest "POST" (Some (Some (mkPayload (Some msgSub)))) (Some "guess").

Lemma forged_request_401 : @fetchR platform netF env0 st0 reqForged (Respond (mkHttpResponse 401 "Unauthorized")) st0.
Proof. eapply fetch_unauthorized; reflexivity. Qed.

Lemma unauthenticated_request_no_effect_witness :
  reqSecret reqForged <> Some (secretToken env0) /\ st0 = st0 /\
  (reqMethod reqForged = "POST" -> Respond (mkHttpResponse 401 "Unauthorized") = Uncaught \/
     exists r, Respond (mkHttpResponse 401 "Unauthorized") = Respond r /\ (hStatus r = 400 \/ hStatus r = 401)).
Proof.
  assert (Hs : reqSecret reqForged <> Some (secretToken env0)) by discriminate.
  split; [exact Hs|].
  exact (@unauthenticated_request_no_effect platform netF env0 st0 reqForged _ st0 forged_request_401 Hs).
Defined.
(** A worker whose cache holds feed [F], running over an empty store. *)
Definition wCached : World := mkWorld ∅ (<["F" := feedF 5]> ∅) [] [] 0 [].

Lemma scheduled_keeps_feed_cache_witness :
  wCache (pageWorld (pageInit wCached [])) !! "F" = Some (feedF 5).
Proof.
  assert (Hl : ids (@listIds (PagedKV.paged 1) (wKv wCached) None) = []) by (vm_compute; reflexivity).
  pose proof (@fa_last platform (PagedKV.paged 1) netF None wCached (pageInit wCached [])) as Hfa.
  rewrite Hl in Hfa.
  apply (@scheduled_keeps_feed_cache platform (PagedKV.paged 1) netF wCached _ "F" (feedF 5));
    [constructor; apply Hfa; [apply pstar_refl|reflexivity|vm_compute; reflexivity]|reflexivity].
Defined.

End WorkerExamples.
