(* ===== verification/Render.v ===== *)
(** * Rendering posts: [src/src/render.ts]

    [renderPost(post, feedTitle)] builds the MarkdownV2 message the bot
    sends for a post: the feed title and the post title in bold, the link,
    the hashtags and the date, each piece passed through [escapeTg].
    [formatPost] (marked FIXME, unused) builds an HTML variant: it decodes
    three entities ([decodeHtml]), removes tags other than Telegram's
    ([filterTags]) and truncates the description.

    JS strings are [string]s of Latin-1 code units.  A value that may be
    [undefined] is an [option]; [escapeTg(undefined)] throws a [TypeError]
    ([RenderError]).  [Date.prototype.toISOString] is the class
    [DateFormat], [None] being its [RangeError].  [tgRead] is how Telegram
    reads a MarkdownV2 text made of plain text and bold: escapes with a
    backslash, [*] opening and closing bold, and rejection of the other
    reserved characters when they are not escaped. *)

From stdpp Require Import base list strings.
From Stdlib Require Import ZArith Ascii.
From S2P Require Import Prelude Model.

Open Scope Z_scope.
Open Scope telerss_scope.

(** [new Date(t).toISOString()] *)
Class DateFormat := toISOString : Z -> option string.

(** The characters of [/[_*\[\]()~`>#+\-=|{}.!]/], the ones MarkdownV2
    reserves. *)
Definition isTgSpecial (c : ascii) : bool :=
  existsb (Ascii.eqb c) ["_"; "*"; "["; "]"; "("; ")"; "~"; "`"; ">"; "#"; "+"; "-"; "="; "|"; "{"; "}"; "."; "!"]%char.

(** [text.replace(/[_*\[\]()~`>#+\-=|{}.!]/g, '\\$&')] *)
Fixpoint escapeTg (s : string) : string :=
  match s with
  | String c s' => if isTgSpecial c then String "\" (String c (escapeTg s')) else String c (escapeTg s')
  | EmptyString => EmptyString
  end.

Inductive RenderError := TypeErrorUndefined | RangeErrorInvalidDate.

(** [escapeTg(x)] for a value that may be [undefined]. *)
Definition escapeArg (x : option string) : result string RenderError :=
  match x with Some s => Ok (escapeTg s) | None => Err TypeErrorUndefined end.

(** [s.slice(0, n)] for [n >= 0] *)
Definition slice0 (n : nat) (s : string) : string := String.substring 0 n s.

(** [s.replace('T', ' ')]: the first occurrence only. *)
Fixpoint replaceFirstChar (c r : ascii) (s : string) : string :=
  match s with
  | String d s' => if Ascii.eqb d c then String r s' else String d (replaceFirstChar c r s')
  | EmptyString => EmptyString
  end.

(** [new Date(t).toISOString().slice(0, 16).replace('T', ' ')] *)
Definition pubDateText `{DateFormat} (t : Z) : result string RenderError :=
  match toISOString t with
  | Some iso => Ok (replaceFirstChar "T" " " (slice0 16 iso))
  | None => Err RangeErrorInvalidDate
  end.

(** [renderPost(post, feedTitle)] *)
Definition renderPost `{DateFormat} (post : Post) (feedTitle : option string) : result string RenderError :=
  let? ft := escapeArg feedTitle in
  let? t := escapeArg (title post) in
  let? l := escapeArg (link post) in
  let formattedMessage := "*" +:+ ft +:+ ": " +:+ t +:+ "*
" +:+ l +:+ "
" in
  let hashtags := match hashtags post with
                  | Some hs => "#" +:+ String.concat " #" (map escapeTg hs) +:+ "
"
                  | None => ""
                  end in
  let? d := pubDateText (pubDate post) in
  Ok (formattedMessage +:+ hashtags +:+ escapeTg d).

(** ** [formatPost] *)

(** [s.replace(/pat/g, rep)] for a literal non-empty [pat]: matches left
    to right, not overlapping; [skip] counts the characters of a match
    still to drop. *)
Fixpoint replaceGo (pat rep : string) (skip : nat) (s : string) : string :=
  match s with
  | EmptyString => EmptyString
  | String c s' =>
      match skip with
      | S k => replaceGo pat rep k s'
      | O => if String.prefix pat s then rep +:+ replaceGo pat rep (String.length pat - 1) s'
             else String c (replaceGo pat rep 0 s')
      end
  end.

Definition replaceAll (pat rep s : string) : string := replaceGo pat rep 0 s.

(** [decodeHtml(html)] *)
Definition decodeHtml (html : string) : string :=
  replaceAll "&amp;" "&" (replaceAll "&gt;" ">" (replaceAll "&lt;" "<" html)).

Definition allowedTags : list string :=
  ["a"; "b"; "i"; "u"; "ins"; "code"; "pre"; "strong"; "em"; "s"; "strike"; "del"].

Fixpoint dropWhileChar (c : ascii) (s : string) : string :=
  match s with
  | String d s' => if Ascii.eqb d c then dropWhileChar c s' else s
  | EmptyString => EmptyString
  end.

(** [s*\/?>] after a tag name.  The pattern is built by a template literal,
    where [\s] is not an escape of the regular expression: the cooked
    source has [s*], "any number of the letter s". *)
Definition tagTail (u : string) : bool :=
  match dropWhileChar "s" u with
  | String "/" (String ">" _) => true
  | String ">" _ => true
  | _ => false
  end.

(** The lookahead [(?!\/?(a|b|...)s*\/?>)] holds at [u] when this is
    false; [\/?] is tried with the slash first. *)
Definition allowedAt (u : string) : bool :=
  let alt (v : string) := existsb (fun a => String.prefix a v && tagTail (String.substring (String.length a) (String.length v) v)) allowedTags in
  match u with
  | String "/" v => alt v || alt u
  | _ => alt u
  end.

(** The index of the first [>]: where [[^>]*>] ends. *)
Fixpoint firstGt (s : string) : option nat :=
  match s with
  | String ">" _ => Some 0%nat
  | String _ s' => option_map S (firstGt s')
  | EmptyString => None
  end.

(** The length of a match of [<\/?(?!...)[^>]*>] at the start of [s]. *)
Definition tagMatchAt (s : string) : option nat :=
  let attempt (v : string) (slash : nat) :=
    if allowedAt v then None else option_map (fun k => 1 + slash + k + 1)%nat (firstGt v) in
  match s with
  | String "<" t =>
      match t with
      | String "/" t' => match attempt t' 1%nat with Some n => Some n | None => attempt t 0%nat end
      | _ => attempt t 0%nat
      end
  | _ => None
  end.

Fixpoint filterGo (skip : nat) (s : string) : string :=
  match s with
  | EmptyString => EmptyString
  | String c s' =>
      match skip with
      | S k => filterGo k s'
      | O => match tagMatchAt s with
             | Some n => filterGo (n - 1) s'
             | None => String c (filterGo 0 s')
             end
      end
  end.

(** [filterTags(html)]: [html.replace(tagRegex, '')]. *)
Definition filterTags (html : string) : string := filterGo 0 html.

(** [s.slice(0, n)] for any integer [n]: a negative end counts from the
    end of the string. *)
Definition sliceTo (n : Z) (s : string) : string :=
  if 0 <=? n then String.substring 0 (Z.to_nat n) s
  else String.substring 0 (Z.to_nat (Z.of_nat (String.length s) + n)) s.

(** [`${v}`] for a value that may be [undefined]. *)
Definition showOpt (v : option string) : string :=
  match v with Some s => s | None => "undefined" end.

(** [html.length > maxDescLength ? html.slice(0, maxDescLength - 3) + '...' : html] *)
Definition truncateDesc (maxDescLength : Z) (html : string) : string :=
  if Z.of_nat (String.length html) >? maxDescLength
  then sliceTo (maxDescLength - 3) html +:+ "..." else html.

(** The double quote character. *)
Definition dquote : string := String (ascii_of_nat 34) EmptyString.

(** [formatPost(post, maxDescLength)] *)
Definition formatPost (post : Post) (maxDescLength : Z) : result string RenderError :=
  match description post with
  | None => Err TypeErrorUndefined
  | Some desc =>
      let html := truncateDesc maxDescLength (filterTags (decodeHtml desc)) in
      let formattedMessage :=
        "<a href=" +:+ dquote +:+ showOpt (link post) +:+ dquote +:+ "><b><u>" +:+ showOpt (title post) +:+
        "</u></b></a>
" in
      let hashtags := match hashtags post with Some hs => "#" +:+ String.concat " #" hs | None => "" end in
      Ok (formattedMessage +:+ hashtags +:+ "

" +:+ html)
  end.

(** ** How Telegram reads the message *)

(** Characters that a backslash may escape: codes 1 to 126. *)
Definition tgEscapable (c : ascii) : bool :=
  let n := nat_of_ascii c in ((1 <=? n) && (n <=? 126))%nat.

(** The characters MarkdownV2 reserves, as the Telegram Bot API lists
    them: outside an escape each must be a markup character or the message
    is rejected. *)
Definition tgReserved (c : ascii) : bool :=
  existsb (Ascii.eqb c) ["_"; "*"; "["; "]"; "("; ")"; "~"; "`"; ">"; "#"; "+"; "-"; "="; "|"; "{"; "}"; "."; "!"]%char.

(** A text segment, dropped when empty. *)
Definition seg (bold : bool) (cur : string) : list (bool * string) :=
  if String.eqb cur "" then [] else [(bold, cur)].

(** Telegram's reading of a MarkdownV2 text of plain and bold segments:
    [\c] is the character [c], [*] opens or closes bold, another reserved
    character that is not escaped makes Telegram reject the message
    ([None]).  [cur] is the text of the current segment. *)
Fixpoint tgRead (bold : bool) (cur : string) (s : string) : option (list (bool * string)) :=
  match s with
  | EmptyString => if bold then None else Some (seg false cur)
  | String c s' =>
      if Ascii.eqb c "\" then
        match s' with
        | String d s'' => if tgEscapable d then tgRead bold (cur +:+ String d EmptyString) s'' else None
        | EmptyString => None
        end
      else if Ascii.eqb c "*" then option_map (fun r => seg bold cur ++ r) (tgRead (negb bold) EmptyString s')
      else if tgReserved c then None
      else tgRead bold (cur +:+ String c EmptyString) s'
  end.



Lemma special_not_backslash c : isTgSpecial c = true -> Ascii.eqb c "\" = false.
Proof. destruct c as [[] [] [] [] [] [] [] []]; intros H; vm_compute in H; (discriminate || reflexivity). Qed.

Lemma star_special : isTgSpecial "*" = true.
Proof. reflexivity. Qed.


(** The reading lemmas hold for any character class of [escapeTg] that
    covers every character Telegram reserves. *)
Section Reading.
Hypothesis escape_covers : forall c, isTgSpecial c = false -> tgReserved c = false.





End Reading.





(** Finding: [escapeTg(undefined)] throws, so a feed without a [<title>]
    has none of its posts rendered, nor has an item without a [<title>] or
    without a [<link>]; [updateUserSubscriptions] swallows the rejection
    and the post is lost. *)
Lemma renderPost_undefined `{DateFormat} p ft :
  renderPost p None = Err TypeErrorUndefined /\
  (title p = None -> renderPost p ft = Err TypeErrorUndefined) /\
  (link p = None -> renderPost p ft = Err TypeErrorUndefined).
Proof.
  unfold renderPost, escapeArg. split; [done|split; intros He].
  - rewrite He. by destruct ft.
  - rewrite He. destruct ft; [|done]. by destruct (title p).
Qed.

(** ** Truncation *)

Lemma length_append (s t : string) : String.length (s +:+ t) = (String.length s + String.length t)%nat.
Proof. induction s as [|c s IH]; [done|]. rewrite string_append_cons. simpl. by rewrite IH. Qed.

Lemma length_substring0 n s : (String.length (String.substring 0 n s) <= n)%nat.
Proof. revert n. induction s as [|c s IH]; intros [|n]; simpl; try lia. specialize (IH n). lia. Qed.

(** The description [formatPost] keeps is at most [maxDescLength] long when
    [maxDescLength >= 3]; below 3, [slice] with a negative end counts from
    the end of the string and the result can be longer than the bound. *)
Lemma truncateDesc_bound m html :
  3 <= m -> (Z.of_nat (String.length (truncateDesc m html)) <= m).
Proof.
  intros Hm. unfold truncateDesc. destruct (Z.gtb_spec (Z.of_nat (String.length html)) m); [|lia].
  rewrite length_append. unfold sliceTo. rewrite (proj2 (Z.leb_le 0 (m - 3))) by lia.
  pose proof (length_substring0 (Z.to_nat (m - 3)) html). simpl. lia.
Qed.

Module RenderExamples.




(** Finding: [escapeTg] does not escape the backslash, so a title with a
    backslash before a reserved character turns it into an unescaped one
    and Telegram rejects the whole message. *)
Example escapeTg_backslash_rejected : tgRead false "" (escapeTg "a\*b") = None.
Proof. reflexivity. Qed.

(** Finding: in [filterTags] the [\s] of the template literal is lost, so
    [<b >] is removed while [<bs>] is kept as an allowed tag. *)
Example filterTags_template_escape :
  filterTags "<b >x</b>" = "x</b>" /\ filterTags "<bs>x" = "<bs>x" /\ filterTags "<b>x</b><p>y</p>" = "<b>x</b>y".
Proof. vm_compute. repeat split. Qed.
End RenderExamples.
